(** * WorldSimulation: a shallow embedding of [WorldSimulation.py]

    The development follows the source file class by class: [RLAgent],
    [Ecosystem], [World], [Country] and the driver [simulate_world].

    Conventions of the embedding.
    - Python [int] is [Z].  Python [float] is modelled by the exact
      rationals [Q]: every arithmetic expression of the source is kept
      with its shape and order, and [int(..)] and [//] are written out as
      truncation and floor; rounding of binary floating point is not
      modelled.
    - A method that mutates objects is a computation in the monad [M]: a
      state transformer over the [World] and the random source, which can
      raise.  A raised exception keeps the mutations done so far, as the
      [try/except] blocks of the source do.
    - [random] is an oracle: a stream of draws and a cursor.  The theorems
      quantify over every stream.
    - Objects of class [Country] live in the list [countries] of the
      world and are referred to by their position in it; [c1 != c2] on
      objects is inequality of positions.
    - [safe_print] only writes to the console and to the log file and is
      left out. *)

From Stdlib Require Import ZArith QArith Qround Lqa Lia.
From stdpp Require Import base option list sorting gmap strings.

Local Open Scope Z_scope.

(** ** Python numbers *)

Module Py.

(** [int(x)] on a float: truncation toward zero. *)
Definition int (x : Q) : Z := Z.quot (Qnum x) (Zpos (Qden x)).

(** [x // y] on floats: the floor of the quotient. *)
Definition floordiv (x y : Q) : Z := Qfloor (x / y).

Definition ltb (x y : Q) : bool := negb (Qle_bool y x).
Definition gtb (x y : Q) : bool := ltb y x.
Definition eqb (x y : Q) : bool := Qeq_bool x y.

(** [max(a, b)]: [a] unless [b > a].  [min(a, b)]: [a] unless [b < a]. *)
Definition max (a b : Q) : Q := if gtb b a then b else a.
Definition min (a b : Q) : Q := if ltb b a then b else a.

(** [abs(x)] *)
Definition abs (x : Q) : Q := if ltb x 0 then (- x)%Q else x.

(** [sum(xs)]: starts from [0] and adds from the left. *)
Definition sum (xs : list Q) : Q := fold_left Qplus xs 0%Q.

(** [max(xs)] on a non-empty sequence; [None] stands for [ValueError]. *)
Definition max_list (xs : list Q) : option Q :=
  match xs with
  | [] => None
  | x :: rest => Some (fold_left max rest x)
  end.

(** [max(xs, key=f)]: the first element whose key is maximal. *)
Definition max_by {A} (f : A → Q) (xs : list A) : option A :=
  match xs with
  | [] => None
  | x :: rest =>
      Some (fold_left (fun best y => if gtb (f y) (f best) then y else best) rest x)
  end.

(** [sorted(xs, key=f, reverse=True)]: a stable insertion sort by
    decreasing key; elements with equal keys keep their order. *)
Fixpoint insert_desc {A} (f : A → Q) (x : A) (xs : list A) : list A :=
  match xs with
  | [] => [x]
  | y :: ys => if gtb (f y) (f x) then y :: insert_desc f x ys else x :: y :: ys
  end.

Definition sorted_desc {A} (f : A → Q) (xs : list A) : list A :=
  fold_right (insert_desc f) [] xs.

End Py.

(** ** The random source *)

Record RandomSource := {
  draws : nat → N;
  cursor : nat
}.

Module Rand.

Definition next (r : RandomSource) : N * RandomSource :=
  (draws r (cursor r), {| draws := draws r; cursor := S (cursor r) |}).

(** [random.random()]: a multiple of 2^-53 in [[0, 1)]. *)
Definition random (r : RandomSource) : Q * RandomSource :=
  let (n, r') := next r in
  (Qmake (Z.of_N (n mod 2 ^ 53)) (2 ^ 53), r').

(** [random.randint(a, b)]: an integer in [[a, b]]. *)
Definition randint (a b : Z) (r : RandomSource) : Z * RandomSource :=
  let (n, r') := next r in
  (a + Z.of_N n mod (b - a + 1), r').

(** [random.uniform(a, b)] is [a + (b - a) * random()]. *)
Definition uniform (a b : Q) (r : RandomSource) : Q * RandomSource :=
  let (u, r') := random r in
  ((a + (b - a) * u)%Q, r').

(** [random.choice(xs)]; [None] stands for [IndexError] on an empty
    sequence (no draw is consumed then). *)
Definition choice {A} (xs : list A) (r : RandomSource) : option A * RandomSource :=
  match xs with
  | [] => (None, r)
  | _ => let (n, r') := next r in (xs !! N.to_nat (n mod N.of_nat (length xs)), r')
  end.

(** [random.shuffle(xs)]: for [i] from [len - 1] down to [1], swap
    positions [i] and [randbelow(i + 1)]. *)
Definition swap {A} (i j : nat) (xs : list A) : list A :=
  match xs !! i, xs !! j with
  | Some a, Some b => <[i := b]> (<[j := a]> xs)
  | _, _ => xs
  end.

Fixpoint shuffle_from {A} (i : nat) (xs : list A) (r : RandomSource)
  : list A * RandomSource :=
  match i with
  | O => (xs, r)
  | S i' =>
      let (n, r') := next r in
      shuffle_from i' (swap i (N.to_nat (n mod N.of_nat (S i))) xs) r'
  end.

Definition shuffle {A} (xs : list A) (r : RandomSource) : list A * RandomSource :=
  shuffle_from (pred (length xs)) xs r.

End Rand.

(** ** Data model *)

Inductive Government := GovRight | GovLeft.

Inductive Resource := oil | coal | gas | forest.

(** The keys of [resources], in the order of the dict literal. *)
Definition resource_keys : list Resource := [oil; coal; gas; forest].

Record Resources := {
  r_oil : Z;
  r_coal : Z;
  r_gas : Z;
  r_forest : Z
}.

Definition res_get (k : Resource) (r : Resources) : Z :=
  match k with
  | oil => r_oil r
  | coal => r_coal r
  | gas => r_gas r
  | forest => r_forest r
  end.

Definition res_set (k : Resource) (v : Z) (r : Resources) : Resources :=
  match k with
  | oil => {| r_oil := v; r_coal := r_coal r; r_gas := r_gas r; r_forest := r_forest r |}
  | coal => {| r_oil := r_oil r; r_coal := v; r_gas := r_gas r; r_forest := r_forest r |}
  | gas => {| r_oil := r_oil r; r_coal := r_coal r; r_gas := v; r_forest := r_forest r |}
  | forest => {| r_oil := r_oil r; r_coal := r_coal r; r_gas := r_gas r; r_forest := v |}
  end.

Inductive Action :=
  | economy | environment | infrastructure
  | join | refuse
  | attack | peace.

Global Instance Action_eq_dec : EqDecision Action.
Proof. solve_decision. Defined.

Global Instance Government_eq_dec : EqDecision Government.
Proof. solve_decision. Defined.

Global Instance Resource_eq_dec : EqDecision Resource.
Proof. solve_decision. Defined.

Record Investments := {
  inv_economy : Z;
  inv_environment : Z;
  inv_infrastructure : Z
}.

(** [investments[area] += amount]; a key outside the dict is a [KeyError]. *)
Definition inv_add (area : Action) (amount : Z) (i : Investments) : option Investments :=
  match area with
  | economy => Some {| inv_economy := inv_economy i + amount;
                       inv_environment := inv_environment i;
                       inv_infrastructure := inv_infrastructure i |}
  | environment => Some {| inv_economy := inv_economy i;
                           inv_environment := inv_environment i + amount;
                           inv_infrastructure := inv_infrastructure i |}
  | infrastructure => Some {| inv_economy := inv_economy i;
                              inv_environment := inv_environment i;
                              inv_infrastructure := inv_infrastructure i + amount |}
  | _ => None
  end.

(** *** Q-tables

    A table is a [defaultdict]: its factory and the entries written so
    far.  An entry is a dict from action to value; its insertion order
    decides ties in [max] and is kept. *)

Definition StateKey := list Z.
Definition QEntry := list (Action * Q).

Record QTable := {
  default_factory : QEntry;
  entries : gmap (list Z) QEntry
}.

Inductive DiplomaticStatus := friendly | hostile | neutral.

Global Instance DiplomaticStatus_eq_dec : EqDecision DiplomaticStatus.
Proof. solve_decision. Defined.

Record RLAgent := {
  alpha : Q;
  gamma : Q;
  epsilon : Q;
  invest_q : QTable;
  agree_q : QTable;
  war_q : QTable
}.

Record Country := {
  name : string;
  population : Z;
  resources : Resources;
  natural_disaster_risk : Q;
  government : Government;
  ideology_score : Z;
  money : Z;
  military_power : Z;
  happiness : Q;
  tech_level : Z;
  education_level : Z;
  pollution : Q;
  production : Q;
  investments : Investments;
  infrastructure_level : Q;
  rebellion_risk : Q;
  year : Z;
  has_rebelled_this_year : bool;
  tension_score : gmap string Z;
  diplomatic_relations : gmap string DiplomaticStatus;
  environment_agreement : Z;
  agent : RLAgent
}.

Record Ecosystem := {
  global_pollution : Q;
  regional_pollution : gmap string Q;
  ecosystem_health : Q;
  alarm_level : Z
}.

(** [Ecosystem.countries] is the list object of [World.countries]; the
    model keeps the one list. *)
Record World := {
  countries : list Country;
  global_events : gmap string bool;
  global_events_done : gmap Z bool;
  ecosystem : Ecosystem
}.

(** *** Attribute assignment

    [set_f v c] is the object [c] after [c.f = v]. *)

Definition set_population (v : Z) (c : Country) : Country :=
  {| name := name c;
     population := v;
     resources := resources c;
     natural_disaster_risk := natural_disaster_risk c;
     government := government c;
     ideology_score := ideology_score c;
     money := money c;
     military_power := military_power c;
     happiness := happiness c;
     tech_level := tech_level c;
     education_level := education_level c;
     pollution := pollution c;
     production := production c;
     investments := investments c;
     infrastructure_level := infrastructure_level c;
     rebellion_risk := rebellion_risk c;
     year := year c;
     has_rebelled_this_year := has_rebelled_this_year c;
     tension_score := tension_score c;
     diplomatic_relations := diplomatic_relations c;
     environment_agreement := environment_agreement c;
     agent := agent c |}.

Definition set_resources (v : Resources) (c : Country) : Country :=
  {| name := name c;
     population := population c;
     resources := v;
     natural_disaster_risk := natural_disaster_risk c;
     government := government c;
     ideology_score := ideology_score c;
     money := money c;
     military_power := military_power c;
     happiness := happiness c;
     tech_level := tech_level c;
     education_level := education_level c;
     pollution := pollution c;
     production := production c;
     investments := investments c;
     infrastructure_level := infrastructure_level c;
     rebellion_risk := rebellion_risk c;
     year := year c;
     has_rebelled_this_year := has_rebelled_this_year c;
     tension_score := tension_score c;
     diplomatic_relations := diplomatic_relations c;
     environment_agreement := environment_agreement c;
     agent := agent c |}.

Definition set_natural_disaster_risk (v : Q) (c : Country) : Country :=
  {| name := name c;
     population := population c;
     resources := resources c;
     natural_disaster_risk := v;
     government := government c;
     ideology_score := ideology_score c;
     money := money c;
     military_power := military_power c;
     happiness := happiness c;
     tech_level := tech_level c;
     education_level := education_level c;
     pollution := pollution c;
     production := production c;
     investments := investments c;
     infrastructure_level := infrastructure_level c;
     rebellion_risk := rebellion_risk c;
     year := year c;
     has_rebelled_this_year := has_rebelled_this_year c;
     tension_score := tension_score c;
     diplomatic_relations := diplomatic_relations c;
     environment_agreement := environment_agreement c;
     agent := agent c |}.

Definition set_government (v : Government) (c : Country) : Country :=
  {| name := name c;
     population := population c;
     resources := resources c;
     natural_disaster_risk := natural_disaster_risk c;
     government := v;
     ideology_score := ideology_score c;
     money := money c;
     military_power := military_power c;
     happiness := happiness c;
     tech_level := tech_level c;
     education_level := education_level c;
     pollution := pollution c;
     production := production c;
     investments := investments c;
     infrastructure_level := infrastructure_level c;
     rebellion_risk := rebellion_risk c;
     year := year c;
     has_rebelled_this_year := has_rebelled_this_year c;
     tension_score := tension_score c;
     diplomatic_relations := diplomatic_relations c;
     environment_agreement := environment_agreement c;
     agent := agent c |}.

Definition set_ideology_score (v : Z) (c : Country) : Country :=
  {| name := name c;
     population := population c;
     resources := resources c;
     natural_disaster_risk := natural_disaster_risk c;
     government := government c;
     ideology_score := v;
     money := money c;
     military_power := military_power c;
     happiness := happiness c;
     tech_level := tech_level c;
     education_level := education_level c;
     pollution := pollution c;
     production := production c;
     investments := investments c;
     infrastructure_level := infrastructure_level c;
     rebellion_risk := rebellion_risk c;
     year := year c;
     has_rebelled_this_year := has_rebelled_this_year c;
     tension_score := tension_score c;
     diplomatic_relations := diplomatic_relations c;
     environment_agreement := environment_agreement c;
     agent := agent c |}.

Definition set_money (v : Z) (c : Country) : Country :=
  {| name := name c;
     population := population c;
     resources := resources c;
     natural_disaster_risk := natural_disaster_risk c;
     government := government c;
     ideology_score := ideology_score c;
     money := v;
     military_power := military_power c;
     happiness := happiness c;
     tech_level := tech_level c;
     education_level := education_level c;
     pollution := pollution c;
     production := production c;
     investments := investments c;
     infrastructure_level := infrastructure_level c;
     rebellion_risk := rebellion_risk c;
     year := year c;
     has_rebelled_this_year := has_rebelled_this_year c;
     tension_score := tension_score c;
     diplomatic_relations := diplomatic_relations c;
     environment_agreement := environment_agreement c;
     agent := agent c |}.

Definition set_military_power (v : Z) (c : Country) : Country :=
  {| name := name c;
     population := population c;
     resources := resources c;
     natural_disaster_risk := natural_disaster_risk c;
     government := government c;
     ideology_score := ideology_score c;
     money := money c;
     military_power := v;
     happiness := happiness c;
     tech_level := tech_level c;
     education_level := education_level c;
     pollution := pollution c;
     production := production c;
     investments := investments c;
     infrastructure_level := infrastructure_level c;
     rebellion_risk := rebellion_risk c;
     year := year c;
     has_rebelled_this_year := has_rebelled_this_year c;
     tension_score := tension_score c;
     diplomatic_relations := diplomatic_relations c;
     environment_agreement := environment_agreement c;
     agent := agent c |}.

Definition set_happiness (v : Q) (c : Country) : Country :=
  {| name := name c;
     population := population c;
     resources := resources c;
     natural_disaster_risk := natural_disaster_risk c;
     government := government c;
     ideology_score := ideology_score c;
     money := money c;
     military_power := military_power c;
     happiness := v;
     tech_level := tech_level c;
     education_level := education_level c;
     pollution := pollution c;
     production := production c;
     investments := investments c;
     infrastructure_level := infrastructure_level c;
     rebellion_risk := rebellion_risk c;
     year := year c;
     has_rebelled_this_year := has_rebelled_this_year c;
     tension_score := tension_score c;
     diplomatic_relations := diplomatic_relations c;
     environment_agreement := environment_agreement c;
     agent := agent c |}.

Definition set_tech_level (v : Z) (c : Country) : Country :=
  {| name := name c;
     population := population c;
     resources := resources c;
     natural_disaster_risk := natural_disaster_risk c;
     government := government c;
     ideology_score := ideology_score c;
     money := money c;
     military_power := military_power c;
     happiness := happiness c;
     tech_level := v;
     education_level := education_level c;
     pollution := pollution c;
     production := production c;
     investments := investments c;
     infrastructure_level := infrastructure_level c;
     rebellion_risk := rebellion_risk c;
     year := year c;
     has_rebelled_this_year := has_rebelled_this_year c;
     tension_score := tension_score c;
     diplomatic_relations := diplomatic_relations c;
     environment_agreement := environment_agreement c;
     agent := agent c |}.

Definition set_pollution (v : Q) (c : Country) : Country :=
  {| name := name c;
     population := population c;
     resources := resources c;
     natural_disaster_risk := natural_disaster_risk c;
     government := government c;
     ideology_score := ideology_score c;
     money := money c;
     military_power := military_power c;
     happiness := happiness c;
     tech_level := tech_level c;
     education_level := education_level c;
     pollution := v;
     production := production c;
     investments := investments c;
     infrastructure_level := infrastructure_level c;
     rebellion_risk := rebellion_risk c;
     year := year c;
     has_rebelled_this_year := has_rebelled_this_year c;
     tension_score := tension_score c;
     diplomatic_relations := diplomatic_relations c;
     environment_agreement := environment_agreement c;
     agent := agent c |}.

Definition set_production (v : Q) (c : Country) : Country :=
  {| name := name c;
     population := population c;
     resources := resources c;
     natural_disaster_risk := natural_disaster_risk c;
     government := government c;
     ideology_score := ideology_score c;
     money := money c;
     military_power := military_power c;
     happiness := happiness c;
     tech_level := tech_level c;
     education_level := education_level c;
     pollution := pollution c;
     production := v;
     investments := investments c;
     infrastructure_level := infrastructure_level c;
     rebellion_risk := rebellion_risk c;
     year := year c;
     has_rebelled_this_year := has_rebelled_this_year c;
     tension_score := tension_score c;
     diplomatic_relations := diplomatic_relations c;
     environment_agreement := environment_agreement c;
     agent := agent c |}.

Definition set_investments (v : Investments) (c : Country) : Country :=
  {| name := name c;
     population := population c;
     resources := resources c;
     natural_disaster_risk := natural_disaster_risk c;
     government := government c;
     ideology_score := ideology_score c;
     money := money c;
     military_power := military_power c;
     happiness := happiness c;
     tech_level := tech_level c;
     education_level := education_level c;
     pollution := pollution c;
     production := production c;
     investments := v;
     infrastructure_level := infrastructure_level c;
     rebellion_risk := rebellion_risk c;
     year := year c;
     has_rebelled_this_year := has_rebelled_this_year c;
     tension_score := tension_score c;
     diplomatic_relations := diplomatic_relations c;
     environment_agreement := environment_agreement c;
     agent := agent c |}.

Definition set_infrastructure_level (v : Q) (c : Country) : Country :=
  {| name := name c;
     population := population c;
     resources := resources c;
     natural_disaster_risk := natural_disaster_risk c;
     government := government c;
     ideology_score := ideology_score c;
     money := money c;
     military_power := military_power c;
     happiness := happiness c;
     tech_level := tech_level c;
     education_level := education_level c;
     pollution := pollution c;
     production := production c;
     investments := investments c;
     infrastructure_level := v;
     rebellion_risk := rebellion_risk c;
     year := year c;
     has_rebelled_this_year := has_rebelled_this_year c;
     tension_score := tension_score c;
     diplomatic_relations := diplomatic_relations c;
     environment_agreement := environment_agreement c;
     agent := agent c |}.

Definition set_rebellion_risk (v : Q) (c : Country) : Country :=
  {| name := name c;
     population := population c;
     resources := resources c;
     natural_disaster_risk := natural_disaster_risk c;
     government := government c;
     ideology_score := ideology_score c;
     money := money c;
     military_power := military_power c;
     happiness := happiness c;
     tech_level := tech_level c;
     education_level := education_level c;
     pollution := pollution c;
     production := production c;
     investments := investments c;
     infrastructure_level := infrastructure_level c;
     rebellion_risk := v;
     year := year c;
     has_rebelled_this_year := has_rebelled_this_year c;
     tension_score := tension_score c;
     diplomatic_relations := diplomatic_relations c;
     environment_agreement := environment_agreement c;
     agent := agent c |}.

Definition set_year (v : Z) (c : Country) : Country :=
  {| name := name c;
     population := population c;
     resources := resources c;
     natural_disaster_risk := natural_disaster_risk c;
     government := government c;
     ideology_score := ideology_score c;
     money := money c;
     military_power := military_power c;
     happiness := happiness c;
     tech_level := tech_level c;
     education_level := education_level c;
     pollution := pollution c;
     production := production c;
     investments := investments c;
     infrastructure_level := infrastructure_level c;
     rebellion_risk := rebellion_risk c;
     year := v;
     has_rebelled_this_year := has_rebelled_this_year c;
     tension_score := tension_score c;
     diplomatic_relations := diplomatic_relations c;
     environment_agreement := environment_agreement c;
     agent := agent c |}.

Definition set_has_rebelled_this_year (v : bool) (c : Country) : Country :=
  {| name := name c;
     population := population c;
     resources := resources c;
     natural_disaster_risk := natural_disaster_risk c;
     government := government c;
     ideology_score := ideology_score c;
     money := money c;
     military_power := military_power c;
     happiness := happiness c;
     tech_level := tech_level c;
     education_level := education_level c;
     pollution := pollution c;
     production := production c;
     investments := investments c;
     infrastructure_level := infrastructure_level c;
     rebellion_risk := rebellion_risk c;
     year := year c;
     has_rebelled_this_year := v;
     tension_score := tension_score c;
     diplomatic_relations := diplomatic_relations c;
     environment_agreement := environment_agreement c;
     agent := agent c |}.

Definition set_tension_score (v : gmap string Z) (c : Country) : Country :=
  {| name := name c;
     population := population c;
     resources := resources c;
     natural_disaster_risk := natural_disaster_risk c;
     government := government c;
     ideology_score := ideology_score c;
     money := money c;
     military_power := military_power c;
     happiness := happiness c;
     tech_level := tech_level c;
     education_level := education_level c;
     pollution := pollution c;
     production := production c;
     investments := investments c;
     infrastructure_level := infrastructure_level c;
     rebellion_risk := rebellion_risk c;
     year := year c;
     has_rebelled_this_year := has_rebelled_this_year c;
     tension_score := v;
     diplomatic_relations := diplomatic_relations c;
     environment_agreement := environment_agreement c;
     agent := agent c |}.

Definition set_diplomatic_relations (v : gmap string DiplomaticStatus) (c : Country) : Country :=
  {| name := name c;
     population := population c;
     resources := resources c;
     natural_disaster_risk := natural_disaster_risk c;
     government := government c;
     ideology_score := ideology_score c;
     money := money c;
     military_power := military_power c;
     happiness := happiness c;
     tech_level := tech_level c;
     education_level := education_level c;
     pollution := pollution c;
     production := production c;
     investments := investments c;
     infrastructure_level := infrastructure_level c;
     rebellion_risk := rebellion_risk c;
     year := year c;
     has_rebelled_this_year := has_rebelled_this_year c;
     tension_score := tension_score c;
     diplomatic_relations := v;
     environment_agreement := environment_agreement c;
     agent := agent c |}.

Definition set_environment_agreement (v : Z) (c : Country) : Country :=
  {| name := name c;
     population := population c;
     resources := resources c;
     natural_disaster_risk := natural_disaster_risk c;
     government := government c;
     ideology_score := ideology_score c;
     money := money c;
     military_power := military_power c;
     happiness := happiness c;
     tech_level := tech_level c;
     education_level := education_level c;
     pollution := pollution c;
     production := production c;
     investments := investments c;
     infrastructure_level := infrastructure_level c;
     rebellion_risk := rebellion_risk c;
     year := year c;
     has_rebelled_this_year := has_rebelled_this_year c;
     tension_score := tension_score c;
     diplomatic_relations := diplomatic_relations c;
     environment_agreement := v;
     agent := agent c |}.

Definition set_agent (v : RLAgent) (c : Country) : Country :=
  {| name := name c;
     population := population c;
     resources := resources c;
     natural_disaster_risk := natural_disaster_risk c;
     government := government c;
     ideology_score := ideology_score c;
     money := money c;
     military_power := military_power c;
     happiness := happiness c;
     tech_level := tech_level c;
     education_level := education_level c;
     pollution := pollution c;
     production := production c;
     investments := investments c;
     infrastructure_level := infrastructure_level c;
     rebellion_risk := rebellion_risk c;
     year := year c;
     has_rebelled_this_year := has_rebelled_this_year c;
     tension_score := tension_score c;
     diplomatic_relations := diplomatic_relations c;
     environment_agreement := environment_agreement c;
     agent := v |}.

Definition set_global_pollution (v : Q) (c : Ecosystem) : Ecosystem :=
  {| global_pollution := v;
     regional_pollution := regional_pollution c;
     ecosystem_health := ecosystem_health c;
     alarm_level := alarm_level c |}.

Definition set_regional_pollution (v : gmap string Q) (c : Ecosystem) : Ecosystem :=
  {| global_pollution := global_pollution c;
     regional_pollution := v;
     ecosystem_health := ecosystem_health c;
     alarm_level := alarm_level c |}.

Definition set_ecosystem_health (v : Q) (c : Ecosystem) : Ecosystem :=
  {| global_pollution := global_pollution c;
     regional_pollution := regional_pollution c;
     ecosystem_health := v;
     alarm_level := alarm_level c |}.

Definition set_alarm_level (v : Z) (c : Ecosystem) : Ecosystem :=
  {| global_pollution := global_pollution c;
     regional_pollution := regional_pollution c;
     ecosystem_health := ecosystem_health c;
     alarm_level := v |}.

Definition set_countries (v : list Country) (c : World) : World :=
  {| countries := v;
     global_events := global_events c;
     global_events_done := global_events_done c;
     ecosystem := ecosystem c |}.

Definition set_global_events (v : gmap string bool) (c : World) : World :=
  {| countries := countries c;
     global_events := v;
     global_events_done := global_events_done c;
     ecosystem := ecosystem c |}.

Definition set_global_events_done (v : gmap Z bool) (c : World) : World :=
  {| countries := countries c;
     global_events := global_events c;
     global_events_done := v;
     ecosystem := ecosystem c |}.

Definition set_ecosystem (v : Ecosystem) (c : World) : World :=
  {| countries := countries c;
     global_events := global_events c;
     global_events_done := global_events_done c;
     ecosystem := v |}.

Definition set_invest_q (v : QTable) (c : RLAgent) : RLAgent :=
  {| alpha := alpha c;
     gamma := gamma c;
     epsilon := epsilon c;
     invest_q := v;
     agree_q := agree_q c;
     war_q := war_q c |}.

Definition set_agree_q (v : QTable) (c : RLAgent) : RLAgent :=
  {| alpha := alpha c;
     gamma := gamma c;
     epsilon := epsilon c;
     invest_q := invest_q c;
     agree_q := v;
     war_q := war_q c |}.

Definition set_war_q (v : QTable) (c : RLAgent) : RLAgent :=
  {| alpha := alpha c;
     gamma := gamma c;
     epsilon := epsilon c;
     invest_q := invest_q c;
     agree_q := agree_q c;
     war_q := v |}.

(** ** The monad of the simulation *)

Record State := {
  world : World;
  rng : RandomSource
}.

Inductive Outcome (A : Type) :=
  | Ok (a : A)
  | Raised.
Arguments Ok {A} a.
Arguments Raised {A}.

Definition M (A : Type) : Type := State → Outcome A * State.

Definition ret {A} (a : A) : M A := fun s => (Ok a, s).

Definition bind {A B} (m : M A) (k : A → M B) : M B :=
  fun s =>
    match m s with
    | (Ok a, s') => k a s'
    | (Raised, s') => (Raised, s')
    end.

Notation "x <- m ; k" := (bind m (fun x => k))
  (at level 20, m at level 100, k at level 200, only parsing).

(** [raise] *)
Definition raise {A} : M A := fun s => (Raised, s).

(** [try: body except Exception: handler] *)
Definition try_except {A} (body handler : M A) : M A :=
  fun s =>
    match body s with
    | (Ok a, s') => (Ok a, s')
    | (Raised, s') => handler s'
    end.

Definition of_option {A} (o : option A) : M A :=
  match o with
  | Some a => ret a
  | None => raise
  end.

Definition get_world : M World := fun s => (Ok (world s), s).

Definition upd_world (f : World → World) : M unit :=
  fun s => (Ok tt, {| world := f (world s); rng := rng s |}).

Definition lift_rand {A} (f : RandomSource → A * RandomSource) : M A :=
  fun s => let (a, r) := f (rng s) in (Ok a, {| world := world s; rng := r |}).

(** The object at position [i] of [world.countries]. *)
Definition get_country (i : nat) : M Country :=
  w <- get_world ; of_option (countries w !! i).

(** An assignment to attributes of the object at position [i]. *)
Definition upd_country (i : nat) (f : Country → Country) : M unit :=
  upd_world (fun w => set_countries (alter f i (countries w)) w).

Definition get_eco : M Ecosystem :=
  w <- get_world ; ret (ecosystem w).

Definition upd_eco (f : Ecosystem → Ecosystem) : M unit :=
  upd_world (fun w => set_ecosystem (f (ecosystem w)) w).

(** [for x in xs: body x] *)
Fixpoint for_each {A} (xs : list A) (body : A → M unit) : M unit :=
  match xs with
  | [] => ret tt
  | x :: rest => _ <- body x ; for_each rest body
  end.

(** A loop that carries a local variable. *)
Fixpoint for_fold {A B} (xs : list A) (acc : B) (body : B → A → M B) : M B :=
  match xs with
  | [] => ret acc
  | x :: rest => acc' <- body acc x ; for_fold rest acc' body
  end.

(** [d[k] += v] on a dict of floats; a missing key is a [KeyError]. *)
Definition dict_add (k : string) (v : Q) (d : gmap string Q) : option (gmap string Q) :=
  match d !! k with
  | Some old => Some (<[k := (old + v)%Q]> d)
  | None => None
  end.

(** [world.ecosystem.regional_pollution[name] += v] *)
Definition regional_pollution_add (nm : string) (v : Q) : M unit :=
  e <- get_eco ;
  d <- of_option (dict_add nm v (regional_pollution e)) ;
  upd_eco (set_regional_pollution d).

(** ** class RLAgent *)

Definition RLAgent_init : RLAgent := {|
  alpha := 0.1;
  gamma := 0.9;
  epsilon := 0.3;
  invest_q := {| default_factory := [(economy, 0%Q); (environment, 0%Q); (infrastructure, 0%Q)];
                 entries := ∅ |};
  agree_q := {| default_factory := [(join, 0%Q); (refuse, 0%Q)]; entries := ∅ |};
  war_q := {| default_factory := [(attack, 0%Q); (peace, 0%Q)]; entries := ∅ |}
|}.

(** The three tables of an agent; a method that receives [q_table]
    receives one of them. *)
Inductive TableId := InvestQ | AgreeQ | WarQ.

Definition table_of (t : TableId) (a : RLAgent) : QTable :=
  match t with
  | InvestQ => invest_q a
  | AgreeQ => agree_q a
  | WarQ => war_q a
  end.

Definition set_table (t : TableId) (q : QTable) (a : RLAgent) : RLAgent :=
  match t with
  | InvestQ => set_invest_q q a
  | AgreeQ => set_agree_q q a
  | WarQ => set_war_q q a
  end.

Module QT.

(** [q_table[state]]: an unseen key is first bound to a fresh entry of
    the factory. *)
Definition getitem (s : StateKey) (t : QTable) : QEntry * QTable :=
  match entries t !! s with
  | Some e => (e, t)
  | None =>
      (default_factory t,
       {| default_factory := default_factory t;
          entries := <[s := default_factory t]> (entries t) |})
  end.

(** [entry[a]] *)
Fixpoint entry_get (a : Action) (e : QEntry) : option Q :=
  match e with
  | [] => None
  | (b, v) :: rest => if decide (a = b) then Some v else entry_get a rest
  end.

(** [entry[a] = v] for a key of the entry. *)
Fixpoint entry_set (a : Action) (v : Q) (e : QEntry) : QEntry :=
  match e with
  | [] => []
  | (b, w) :: rest =>
      if decide (a = b) then (b, v) :: rest else (b, w) :: entry_set a v rest
  end.

Definition setitem (s : StateKey) (e : QEntry) (t : QTable) : QTable :=
  {| default_factory := default_factory t; entries := <[s := e]> (entries t) |}.

(** The body of [RLAgent.update] on one table. *)
Definition update (al ga : Q) (s : StateKey) (a : Action) (reward : Q)
    (new_state : StateKey) (t : QTable) : Outcome unit * QTable :=
  let (e_next, t1) := getitem new_state t in
  match Py.max_list (map snd e_next) with
  | None => (Raised, t1)
  | Some max_next =>
      let (e, t2) := getitem s t1 in
      match entry_get a e with
      | None => (Raised, t2)
      | Some q =>
          (Ok tt,
           setitem s (entry_set a (q + al * (reward + ga * max_next - q))%Q e) t2)
      end
  end.

(** What a read of [q_table[state][a]] returns. *)
Definition read (s : StateKey) (a : Action) (t : QTable) : option Q :=
  entry_get a (fst (getitem s t)).

End QT.

(** [RLAgent.get_state(country, tension=None)]; [country] is the object at
    position [i], and [world] is the global of the module. *)
Definition get_state (i : nat) (tension : option Z) : M StateKey :=
  country <- get_country i ;
  w <- get_world ;
  let hap := Z.min 5 (Py.floordiv (happiness country) 20) in
  let pol := Z.min 5 (Py.floordiv (pollution country) 20) in
  let infra := Z.min 5 (Py.floordiv (infrastructure_level country) 20) in
  let prod := Z.min 5 (Py.int (production country) / 50) in
  let gov := if decide (government country = GovRight) then 0 else 1 in
  let eco := Z.min 5 (Py.floordiv (ecosystem_health (ecosystem w)) 20) in
  let state := [hap; pol; infra; prod; gov; eco] in
  match tension with
  | Some t => ret (state ++ [Z.min 5 (Z.max 0 ((t - 50) / 10))])
  | None => ret state
  end.

(** [q_table[state]] on table [tid] of the agent of country [i]. *)
Definition table_getitem (i : nat) (tid : TableId) (s : StateKey) : M QEntry :=
  c <- get_country i ;
  let (e, t) := QT.getitem s (table_of tid (agent c)) in
  _ <- upd_country i (fun c => set_agent (set_table tid t (agent c)) c) ;
  ret e.

(** [RLAgent.choose_action(q_table, state)] *)
Definition choose_action (i : nat) (tid : TableId) (s : StateKey) : M Action :=
  c <- get_country i ;
  u <- lift_rand Rand.random ;
  if Py.ltb u (epsilon (agent c)) then
    e <- table_getitem i tid s ;
    a <- lift_rand (Rand.choice (map fst e)) ;
    of_option a
  else
    e <- table_getitem i tid s ;
    of_option (fst <$> Py.max_by snd e).

(** [RLAgent.update(q_table, state, action, reward, new_state)] *)
Definition update (i : nat) (tid : TableId) (s : StateKey) (a : Action)
    (reward : Q) (new_state : StateKey) : M unit :=
  c <- get_country i ;
  let ag := agent c in
  let (r, t) := QT.update (alpha ag) (gamma ag) s a reward new_state (table_of tid ag) in
  _ <- upd_country i (fun c => set_agent (set_table tid t (agent c)) c) ;
  match r with
  | Ok _ => ret tt
  | Raised => raise
  end.

(** [map] with an effect, left to right. *)
Fixpoint map_m {A B} (f : A → M B) (xs : list A) : M (list B) :=
  match xs with
  | [] => ret []
  | x :: rest => y <- f x ; ys <- map_m f rest ; ret (y :: ys)
  end.

(** The positions of [world.countries]. *)
Definition positions (w : World) : list nat := seq 0 (length (countries w)).

(** ** class Ecosystem *)

(** [x / len(xs)]; a zero divisor is a [ZeroDivisionError]. *)
Definition div_len (x : Q) (n : nat) : option Q :=
  match n with
  | O => None
  | S _ => Some (x / inject_Z (Z.of_nat n))%Q
  end.

(** [Ecosystem.__init__(countries)] *)
Definition Ecosystem_init (cs : list Country) : option Ecosystem :=
  gp ← div_len (Py.sum (map pollution cs)) (length cs);
  Some {| global_pollution := gp;
          regional_pollution :=
            fold_left (fun d c => <[name c := pollution c]> d) cs ∅;
          ecosystem_health := 60;
          alarm_level := 0 |}.

(** [[c for c in self.countries if c != country]] for the country at
    position [i]. *)
Definition neighbors (i : nat) (cs : list Country) : list Country := delete i cs.

(** The penalty of [update_pollution] on one country. *)
Definition pollution_penalty (i : nat) : M unit :=
  _ <- upd_country i (fun c => set_happiness (Py.max 0 (happiness c - 5)%Q) c) ;
  _ <- upd_country i (fun c =>
         set_resources (res_set forest (Z.max 0 (r_forest (resources c) - 10)) (resources c)) c) ;
  upd_country i (fun c => set_rebellion_risk (rebellion_risk c + 0.05)%Q c).

(** The body of the loop of [update_pollution] for the country at
    position [i]; [regional] is the local dict [regional_pollution]. *)
Definition regional_step (regional : gmap string Q) (i : nat) : M (gmap string Q) :=
  w <- get_world ;
  country <- get_country i ;
  let rp := (pollution country
             + Py.sum (map (fun c => pollution c * 0.1) (neighbors i (countries w))))%Q in
  let regional := <[name country := rp]> regional in
  _ <- (if Py.gtb rp 50 then pollution_penalty i else ret tt) ;
  ret regional.

(** [Ecosystem.update_pollution()] *)
Definition update_pollution : M unit :=
  try_except
    (w <- get_world ;
     gp <- of_option (div_len (Py.sum (map pollution (countries w))) (length (countries w))) ;
     _ <- upd_eco (set_global_pollution gp) ;
     regional <- for_fold (positions w) (∅ : gmap string Q) regional_step ;
     _ <- upd_eco (set_regional_pollution regional) ;
     upd_eco (fun e =>
       set_ecosystem_health
         (Py.max 0 (Py.min 100
            (ecosystem_health e - inject_Z (Py.int (global_pollution e / 5)))%Q)) e))
    (ret tt).

(** The loop of [sound_alarm] over [enumerate(thresholds, 1)]: the first
    pair that passes the test sets the level, and the method returns. *)
Fixpoint sound_alarm_loop (thresholds : list (Z * Q)) : M unit :=
  match thresholds with
  | [] => ret tt
  | (i, threshold) :: rest =>
      e <- get_eco ;
      if Py.gtb (global_pollution e) threshold && (alarm_level e <? i)
      then upd_eco (set_alarm_level i)
      else sound_alarm_loop rest
  end.

(** [enumerate(thresholds, 1)] for [thresholds = [30, 50, 70]]. *)
Definition thresholds : list (Z * Q) := [(1, 30%Q); (2, 50%Q); (3, 70%Q)].

(** [Ecosystem.sound_alarm()] *)
Definition sound_alarm : M unit :=
  try_except (sound_alarm_loop thresholds) (ret tt).

(** The conditional expression
    [2 if c.infrastructure_level < 50 else (0.5 if c.infrastructure_level > 70 else 1)],
    written three times in [trigger_disasters]. *)
Definition severity_multiplier (infra : Q) : Q :=
  if Py.ltb infra 50 then 2
  else if Py.gtb infra 70 then 0.5
  else 1.

(** [alarm_level >= level or random.random() < p]: the draw is made only
    when the first test fails. *)
Definition disaster_gate (level : Z) (p : Q) : M bool :=
  e <- get_eco ;
  if level <=? alarm_level e then ret true
  else u <- lift_rand Rand.random ; ret (Py.ltb u p).

(** The positions with the key [self.regional_pollution[c.name]] of each. *)
Definition by_regional_pollution : M (list (nat * Q)) :=
  w <- get_world ;
  map_m (fun i =>
           c <- get_country i ;
           k <- of_option (regional_pollution (ecosystem w) !! name c) ;
           ret (i, k))
        (positions w).

(** The effect of the disease on its target. *)
Definition disease_on (worst_country : nat) : M unit :=
  c <- get_country worst_country ;
  let multiplier := severity_multiplier (infrastructure_level c) in
  _ <- upd_country worst_country (fun c =>
         set_population (Py.int (inject_Z (population c) * (1 - 0.05 * multiplier))%Q) c) ;
  _ <- upd_country worst_country (fun c =>
         set_happiness (Py.max 0 (happiness c - 10 * multiplier)%Q) c) ;
  upd_country worst_country (fun c =>
         set_rebellion_risk (rebellion_risk c + 0.05 * multiplier)%Q c).

Definition disease : M unit :=
  keyed <- by_regional_pollution ;
  worst_country <- of_option (fst <$> Py.max_by snd keyed) ;
  disease_on worst_country.

(** The effect of the earthquake on its target. *)
Definition earthquake_on (target : nat) : M unit :=
  c <- get_country target ;
  let multiplier := severity_multiplier (infrastructure_level c) in
  _ <- upd_country target (fun c =>
         set_population (Z.max 0 (population c - Py.int (5000 * multiplier)%Q)) c) ;
  _ <- upd_country target (fun c =>
         set_production (Py.max 0 (production c * (1 - 0.2 * multiplier))%Q) c) ;
  upd_country target (fun c =>
         set_happiness (Py.max 0 (happiness c - 5 * multiplier)%Q) c).

Definition earthquake : M unit :=
  w <- get_world ;
  t <- lift_rand (Rand.choice (positions w)) ;
  target <- of_option t ;
  earthquake_on target.

(** The effect of the flood on one of its targets. *)
Definition flood_one (country : nat) : M unit :=
  c <- get_country country ;
  let multiplier := severity_multiplier (infrastructure_level c) in
  _ <- upd_country country (fun c =>
         set_resources
           (res_set forest (Z.max 0 (r_forest (resources c) - Py.int (20 * multiplier)%Q))
                    (resources c)) c) ;
  _ <- upd_country country (fun c =>
         set_money (Py.int (inject_Z (money c) * (1 - 0.1 * multiplier))%Q) c) ;
  upd_country country (fun c =>
         set_happiness (Py.max 0 (happiness c - 5 * multiplier)%Q) c).

Definition flood : M unit :=
  keyed <- by_regional_pollution ;
  for_each (take 2 (map fst (Py.sorted_desc snd keyed))) flood_one.

(** [Ecosystem.trigger_disasters()] *)
Definition trigger_disasters : M unit :=
  try_except
    (g1 <- disaster_gate 1 0.1 ;
     _ <- (if g1 then disease else ret tt) ;
     g2 <- disaster_gate 2 0.05 ;
     _ <- (if g2 then earthquake else ret tt) ;
     g3 <- disaster_gate 3 0.02 ;
     if g3 then flood else ret tt)
    (ret tt).

(** ** class Country: diplomacy

    [get_diplomatic_status] and [update_tension] come first because
    [World.simulate_war] calls them. *)

(** [self.tension_score.get(other.name, 50)] *)
Definition tension_with (self other : Country) : Z :=
  default 50 (tension_score self !! name other).

(** [Country.get_diplomatic_status(other)] *)
Definition get_diplomatic_status (self other : Country) : DiplomaticStatus :=
  let tension := tension_with self other in
  if tension <? 30 then friendly
  else if 70 <? tension then hostile
  else neutral.

(** [Country.update_tension(partner, change)] *)
Definition update_tension (self partner : nat) (change : Z) : M unit :=
  try_except
    (p <- get_country partner ;
     upd_country self (fun c =>
       set_tension_score
         (<[name p := Z.min 100 (Z.max 0 (tension_with c p + change))]> (tension_score c)) c))
    (ret tt).

(** ** class World *)

(** [self.global_events[key] = random.random() < p] *)
Definition draw_event (key : string) (p : Q) : M unit :=
  u <- lift_rand Rand.random ;
  upd_world (fun w => set_global_events (<[key := Py.ltb u p]> (global_events w)) w).

(** [self.global_events[key]] *)
Definition event (key : string) : M bool :=
  w <- get_world ; of_option (global_events w !! key).

(** [self.ecosystem.regional_pollution[country.name] += v] *)
Definition regional_pollution_of_country_add (i : nat) (v : Q) : M unit :=
  c <- get_country i ; regional_pollution_add (name c) v.

Definition pandemic (i : nat) : M unit :=
  _ <- upd_country i (fun c => set_production (production c * 0.5)%Q c) ;
  _ <- upd_country i (fun c => set_happiness (Py.max 0 (happiness c - 10)%Q) c) ;
  _ <- upd_country i (fun c => set_pollution (pollution c + 2)%Q c) ;
  _ <- upd_country i (fun c =>
         set_population (Py.int (inject_Z (population c) * 0.98)%Q) c) ;
  regional_pollution_of_country_add i 2.

Definition meteor (i : nat) : M unit :=
  _ <- for_each resource_keys (fun key =>
         n <- lift_rand (Rand.randint 5 20) ;
         upd_country i (fun c =>
           set_resources
             (res_set key (Z.max 0 (res_get key (resources c) - n)) (resources c)) c)) ;
  _ <- upd_country i (fun c => set_happiness (Py.max 0 (happiness c - 5)%Q) c) ;
  _ <- upd_country i (fun c => set_pollution (pollution c + 3)%Q c) ;
  _ <- upd_country i (fun c => set_tech_level (Z.max 1 (tech_level c - 1)) c) ;
  regional_pollution_of_country_add i 3.

Definition economic_crash (i : nat) : M unit :=
  _ <- upd_country i (fun c => set_money (Py.int (inject_Z (money c) * 0.7)%Q) c) ;
  _ <- upd_country i (fun c => set_happiness (Py.max 0 (happiness c - 10)%Q) c) ;
  _ <- upd_country i (fun c => set_pollution (pollution c + 3)%Q c) ;
  regional_pollution_of_country_add i 3.

Definition blackout (i : nat) : M unit :=
  _ <- upd_country i (fun c => set_tech_level (Z.max 1 (tech_level c - 1)) c) ;
  _ <- upd_country i (fun c => set_production (production c * 0.6)%Q c) ;
  _ <- upd_country i (fun c => set_pollution (pollution c + 2)%Q c) ;
  regional_pollution_of_country_add i 2.

(** [if self.global_events[key]: for country in self.countries: body] *)
Definition when_event (key : string) (body : nat → M unit) : M unit :=
  b <- event key ;
  if b then (w <- get_world ; for_each (positions w) body) else ret tt.

(** What [simulate_global_events] does once the guard has let it pass. *)
Definition fire_global_events : M unit :=
  _ <- draw_event "pandemic" 0.05 ;
  _ <- draw_event "meteor" 0.1 ;
  _ <- draw_event "economic_crash" 0.03 ;
  _ <- draw_event "blackout" 0.04 ;
  _ <- when_event "pandemic" pandemic ;
  _ <- when_event "meteor" meteor ;
  _ <- when_event "economic_crash" economic_crash ;
  _ <- when_event "blackout" blackout ;
  _ <- update_pollution ;
  _ <- sound_alarm ;
  trigger_disasters.

(** [self.global_events_done[year]]; a year that is not a key is a
    [KeyError]. *)
Definition events_done (yr : Z) : M bool :=
  w <- get_world ; of_option (global_events_done w !! yr).

(** [World.simulate_global_events(year)] *)
Definition simulate_global_events (yr : Z) : M unit :=
  try_except
    (done <- events_done yr ;
     if done then ret tt
     else
       _ <- upd_world (fun w =>
              set_global_events_done (<[yr := true]> (global_events_done w)) w) ;
       fire_global_events)
    (ret tt).

(** [World.__init__()] and [World.add_country]: the world of an episode
    before [initialize_ecosystem]. *)
Definition years_done_init : gmap Z bool :=
  list_to_map (map (fun y => (Z.of_nat y, false)) (seq 1 20)).

(** The candidate pairs of [simulate_war], in the order of the two nested
    loops. *)
Definition potential_wars (w : World) : list (nat * nat) :=
  let cs := countries w in
  i ← positions w;
  j ← positions w;
  match cs !! i, cs !! j with
  | Some c1, Some c2 =>
      if decide (i ≠ j) then
        let tension := tension_with c1 c2 in
        let tension :=
          if Py.gtb (global_pollution (ecosystem w)) 50 then tension + 5 else tension in
        if 70 <? tension then [(i, j)] else []
      else []
  | _, _ => []
  end.

(** [c.population * k * c.tech_level * (1 + c.resources['oil'] / 100 + c.resources['gas'] / 200)] *)
Definition combat_score (k : Q) (c : Country) : Q :=
  (inject_Z (population c) * k * inject_Z (tech_level c)
   * (1 + inject_Z (r_oil (resources c)) / 100 + inject_Z (r_gas (resources c)) / 200))%Q.

(** The loop over [loser.resources] of a decided war. *)
Definition plunder (winner loser : nat) : M unit :=
  for_each resource_keys (fun resource =>
    l <- get_country loser ;
    let loss := Py.int (inject_Z (res_get resource (resources l)) * 0.3)%Q in
    _ <- upd_country loser (fun c =>
           set_resources
             (res_set resource (Z.max 0 (res_get resource (resources c) - loss)) (resources c)) c) ;
    upd_country winner (fun c =>
           set_resources
             (res_set resource (res_get resource (resources c) + loss) (resources c)) c)).

(** The statements of a decided war, from the plunder to the peace
    agreement. *)
Definition war_effects (winner loser : nat) : M unit :=
  _ <- plunder winner loser ;
  l <- get_country loser ;
  let pop_loss := Py.int (inject_Z (population l) * 0.05)%Q in
  _ <- upd_country loser (fun c => set_population (population c - pop_loss) c) ;
  _ <- upd_country winner (fun c =>
         set_population (population c - Py.int (inject_Z (population c) * 0.02)%Q) c) ;
  _ <- upd_country loser (fun c => set_happiness (Py.max 0 (happiness c - 10)%Q) c) ;
  _ <- upd_country winner (fun c => set_happiness (Py.min 100 (happiness c + 5)%Q) c) ;
  _ <- upd_country winner (fun c => set_pollution (pollution c + 10)%Q c) ;
  _ <- upd_country loser (fun c => set_pollution (pollution c + 10)%Q c) ;
  _ <- upd_country winner (fun c => set_rebellion_risk (rebellion_risk c + 0.05)%Q c) ;
  _ <- upd_country loser (fun c => set_rebellion_risk (rebellion_risk c + 0.05)%Q c) ;
  _ <- upd_country winner (fun c => set_pollution (pollution c + 2)%Q c) ;
  _ <- upd_country loser (fun c => set_pollution (pollution c + 2)%Q c) ;
  _ <- upd_eco (fun e => set_global_pollution (global_pollution e + 2)%Q e) ;
  _ <- regional_pollution_of_country_add winner 12 ;
  _ <- regional_pollution_of_country_add loser 12 ;
  _ <- upd_eco (fun e => set_ecosystem_health (Py.max 0 (ecosystem_health e - 15)%Q) e) ;
  _ <- update_tension winner loser 10 ;
  _ <- update_tension loser winner 30 ;
  u <- lift_rand Rand.random ;
  if Py.ltb u 0.5 then
    _ <- update_tension winner loser (-20) ;
    update_tension loser winner (-20)
  else ret tt.

(** [attacker.tension_score.get(defender.name, 50)] on the objects as they
    are now. *)
Definition current_tension (attacker defender : nat) : M Z :=
  a <- get_country attacker ;
  d <- get_country defender ;
  ret (tension_with a d).

(** The body of the loop [for attacker, defender in potential_wars[:2]]. *)
Definition resolve_war (attacker defender : nat) : M unit :=
  tension <- current_tension attacker defender ;
  state <- get_state attacker (Some tension) ;
  action <- choose_action attacker WarQ state ;
  if decide (action = peace) then
    new_state <- get_state attacker (Some tension) ;
    update attacker WarQ state action 1 new_state
  else
    a <- get_country attacker ;
    d <- get_country defender ;
    e <- get_eco ;
    let old_hap_a := happiness a in
    let old_mon_a := money a in
    let old_pol_a := pollution a in
    let old_eco := ecosystem_health e in
    let old_reb_a := rebellion_risk a in
    let attack_score := combat_score 0.15 a in
    let defense_score := combat_score 0.20 d in
    if Py.eqb attack_score defense_score then
      t <- current_tension attacker defender ;
      new_state <- get_state attacker (Some t) ;
      update attacker WarQ state action (-1) new_state
    else
      let (winner, loser) :=
        if Py.gtb attack_score defense_score
        then (attacker, defender) else (defender, attacker) in
      _ <- war_effects winner loser ;
      t <- current_tension attacker defender ;
      new_state <- get_state attacker (Some t) ;
      a' <- get_country attacker ;
      e' <- get_eco ;
      let delta_hap := (happiness a' - old_hap_a)%Q in
      let delta_mon := (inject_Z (money a' - old_mon_a) / 10000000)%Q in
      let delta_pol := (pollution a' - old_pol_a)%Q in
      let delta_eco := (ecosystem_health e' - old_eco)%Q in
      let delta_reb := (rebellion_risk a' - old_reb_a)%Q in
      let reward :=
        (delta_hap + delta_mon - delta_pol - Py.abs delta_eco * 2 - delta_reb * 10)%Q in
      let reward :=
        if decide (winner = attacker) then (reward + 10)%Q else (reward - 10)%Q in
      update attacker WarQ state action reward new_state.

(** What [simulate_war] does once the guard has let it pass. *)
Definition wage_wars : M unit :=
  w <- get_world ;
  shuffled <- lift_rand (Rand.shuffle (potential_wars w)) ;
  for_each (take 2 shuffled) (fun '(attacker, defender) => resolve_war attacker defender).

(** [World.simulate_war(year)] *)
Definition simulate_war (yr : Z) : M unit :=
  try_except
    (done <- events_done yr ;
     if done then ret tt else wage_wars)
    (ret tt).

(** ** class Country *)

(** [Country.__init__(name)]; the agent is assigned right after. *)
Definition Country_init (nm : string) (ag : RLAgent) : RandomSource → Country * RandomSource :=
  fun r =>
    let (pop, r) := Rand.randint 10000000 80000000 r in
    let (risk, r) := Rand.uniform 0 1 r in
    let (gov, r) := Rand.choice [GovRight; GovLeft] r in
    let gov := default GovRight gov in
    let (ideology, r) :=
      if decide (gov = GovRight) then Rand.randint 20 60 r else Rand.randint (-60) (-20) r in
    let (mon, r) := Rand.randint 100000000 1000000000 r in
    let (mil, r) := Rand.randint 50 300 r in
    let (tech, r) := Rand.randint 1 5 r in
    let (edu, r) := Rand.randint 1 5 r in
    let (pol, r) := Rand.randint 10 20 r in
    ({| name := nm;
        population := pop;
        resources := {| r_oil := 100; r_coal := 100; r_gas := 100; r_forest := 100 |};
        natural_disaster_risk := risk;
        government := gov;
        ideology_score := ideology;
        money := mon;
        military_power := mil;
        happiness := 70;
        tech_level := tech;
        education_level := edu;
        pollution := inject_Z pol;
        production := 100;
        investments := {| inv_economy := 0; inv_environment := 0; inv_infrastructure := 0 |};
        infrastructure_level := 50;
        rebellion_risk := 0;
        year := 0;
        has_rebelled_this_year := false;
        tension_score := ∅;
        diplomatic_relations := ∅;
        environment_agreement := 0;
        agent := ag |}, r).

(** The statements of the ['join'] branch inside the loop over
    [world.countries], for one [other]. *)
Definition align_with (self other : nat) : M unit :=
  o <- get_country other ;
  if bool_decide (other ≠ self) && negb (environment_agreement o =? 0) then
    _ <- update_tension self other (-5) ;
    _ <- update_tension other self (-5) ;
    s <- get_country self ;
    o <- get_country other ;
    _ <- upd_country self (set_ideology_score ((ideology_score s + ideology_score o) / 2)) ;
    s <- get_country self ;
    upd_country other (set_ideology_score (ideology_score s))
  else ret tt.

(** [Country.join_environment_agreement()] *)
Definition join_environment_agreement (self : nat) : M bool :=
  try_except
    (c <- get_country self ;
     if environment_agreement c =? 1 then ret true
     else
       state <- get_state self None ;
       action <- choose_action self AgreeQ state ;
       c <- get_country self ;
       e <- get_eco ;
       let old_hap := happiness c in
       let old_mon := money c in
       let old_pol := pollution c in
       let old_eco := ecosystem_health e in
       let old_reb := rebellion_risk c in
       success <-
         (if decide (action = join) then
            _ <- upd_country self (set_environment_agreement 1) ;
            _ <- upd_country self (fun c => set_pollution (Py.max 0 (pollution c - 10)%Q) c) ;
            _ <- upd_country self (fun c => set_money (Py.int (inject_Z (money c) * 0.95)%Q) c) ;
            _ <- upd_eco (fun e =>
                   set_ecosystem_health (Py.min 100 (ecosystem_health e + 5)%Q) e) ;
            w <- get_world ;
            _ <- for_each (positions w) (align_with self) ;
            ret true
          else
            _ <- upd_country self (fun c => set_pollution (pollution c + 5)%Q c) ;
            _ <- regional_pollution_of_country_add self 5 ;
            _ <- upd_country self (fun c => set_happiness (Py.max 0 (happiness c - 2)%Q) c) ;
            _ <- upd_country self (fun c => set_rebellion_risk (rebellion_risk c + 0.02)%Q c) ;
            ret false) ;
       new_state <- get_state self None ;
       c' <- get_country self ;
       e' <- get_eco ;
       let delta_hap := (happiness c' - old_hap)%Q in
       let delta_mon := (inject_Z (money c' - old_mon) / 10000000)%Q in
       let delta_pol := (pollution c' - old_pol)%Q in
       let delta_eco := (ecosystem_health e' - old_eco)%Q in
       let delta_reb := (rebellion_risk c' - old_reb)%Q in
       let reward := (delta_hap + delta_mon - delta_pol / 10 + delta_eco - delta_reb * 10)%Q in
       _ <- update self AgreeQ state action reward new_state ;
       ret success)
    (ret false).

(** The dict [resource_needs] of [trade_resources]. *)
Definition resource_needs (c : Country) (k : Resource) : Z :=
  match k with
  | oil => 30 - r_oil (resources c)
  | coal => 20 - r_coal (resources c)
  | gas => 20 - r_gas (resources c)
  | forest => 50 - r_forest (resources c)
  end.

(** The dict [pollution_increase] of [trade_resources]. *)
Definition trade_pollution (k : Resource) : Q :=
  match k with
  | oil => 4
  | coal => 6
  | gas => 2
  | forest => 1
  end.

(** The statements of an accepted trade. *)
Definition accepted_trade (self partner : nat) (resource : Resource) (amount : Z) : M unit :=
  _ <- upd_country self (fun c =>
         set_resources (res_set resource (res_get resource (resources c) + amount) (resources c)) c) ;
  _ <- upd_country partner (fun c =>
         set_resources (res_set resource (res_get resource (resources c) - amount) (resources c)) c) ;
  _ <- upd_country self (fun c => set_money (money c - amount * 1000) c) ;
  _ <- upd_country partner (fun c => set_money (money c + amount * 1000) c) ;
  _ <- upd_country self (fun c => set_pollution (pollution c + trade_pollution resource)%Q c) ;
  _ <- regional_pollution_of_country_add self (trade_pollution resource) ;
  _ <- update_tension self partner (-5) ;
  update_tension partner self (-5).

(** [Country.trade_resources(partner)] *)
Definition trade_resources (self partner : nat) : M unit :=
  try_except
    (e <- get_eco ;
     if bool_decide (partner = self) || Py.ltb (ecosystem_health e) 30 then ret tt
     else
       c <- get_country self ;
       p <- get_country partner ;
       resource <- of_option (Py.max_by (fun k => inject_Z (resource_needs c k)) resource_keys) ;
       if (resource_needs c resource <=? 0) || (res_get resource (resources p) <? 10)
       then ret tt
       else
         n <- lift_rand (Rand.randint 5 20) ;
         let amount := Z.min n (res_get resource (resources p)) in
         if money p <? amount * 1000 then ret tt
         else
           let relation := 100 - Z.abs (ideology_score c - ideology_score p) in
           let trade_chance := (0.5 + inject_Z relation / 200)%Q in
           let trade_chance :=
             if decide (get_diplomatic_status c p = friendly)
             then (trade_chance + 0.1)%Q else trade_chance in
           u <- lift_rand Rand.random ;
           if Py.gtb u trade_chance then
             _ <- update_tension self partner 5 ;
             update_tension partner self 5
           else accepted_trade self partner resource amount)
    (ret tt).

(** [Country.collect_taxes()] *)
Definition collect_taxes (self : nat) : M unit :=
  try_except
    (c <- get_country self ;
     e <- get_eco ;
     let tax_rate := (if decide (government c = GovRight) then 0.05 else 0.10)%Q in
     let tax_income := Py.int (inject_Z (population c) * tax_rate)%Q in
     let tax_income :=
       if bool_decide (government c = GovRight) && Py.gtb (infrastructure_level c) 70
       then Py.int (inject_Z tax_income * 1.10)%Q else tax_income in
     let happiness_loss : Z := if decide (government c = GovRight) then 2 else 5 in
     let happiness_loss :=
       if Py.gtb (global_pollution e) 50 then happiness_loss + 3 else happiness_loss in
     _ <- upd_country self (fun c => set_money (money c + tax_income) c) ;
     upd_country self (fun c =>
       set_happiness (Py.max 0 (happiness c - inject_Z happiness_loss)%Q) c))
    (ret tt).

(** The efficiency of an investment, from the ecosystem health and the
    happiness of the investor. *)
Definition investment_efficiency (eco_health hap : Q) : Q :=
  let efficiency := (if Py.ltb eco_health 30 then 0.5 else 1.0)%Q in
  if Py.gtb hap 70 then (efficiency * 1.2)%Q
  else if Py.ltb hap 30 then (efficiency * 0.8)%Q
  else efficiency.

Definition invest_economy (self : nat) (efficiency : Q) : M unit :=
  c <- get_country self ;
  let right := bool_decide (government c = GovRight) in
  let production_increase := (if right then 10 * efficiency else 12 * efficiency)%Q in
  let pollution_increase := (if right then 7 * efficiency else 5 * efficiency)%Q in
  let money_increase := (if right then 0.07 * efficiency else 0.05 * efficiency)%Q in
  _ <- upd_country self (fun c => set_production (production c + production_increase)%Q c) ;
  _ <- upd_country self (fun c => set_pollution (pollution c + pollution_increase)%Q c) ;
  _ <- regional_pollution_of_country_add self pollution_increase ;
  _ <- upd_country self (fun c =>
         set_money (Py.int (inject_Z (money c) * (1 + money_increase))%Q) c) ;
  _ <- upd_country self (fun c =>
         set_resources (res_set oil (r_oil (resources c) + Py.int (5 * efficiency)%Q) (resources c)) c) ;
  _ <- upd_country self (fun c =>
         set_resources (res_set coal (r_coal (resources c) + Py.int (5 * efficiency)%Q) (resources c)) c) ;
  _ <- upd_country self (fun c =>
         set_resources (res_set gas (r_gas (resources c) + Py.int (3 * efficiency)%Q) (resources c)) c) ;
  c <- get_country self ;
  if decide (government c = GovLeft) then
    upd_country self (fun c => set_happiness (Py.max 0 (happiness c - 2 * efficiency)%Q) c)
  else ret tt.

Definition invest_environment (self : nat) (efficiency : Q) : M unit :=
  c <- get_country self ;
  let right := bool_decide (government c = GovRight) in
  let pollution_decrease := (if right then 10 * efficiency else 12 * efficiency)%Q in
  let eco_health_increase := (if right then 3 * efficiency else 7 * efficiency)%Q in
  _ <- upd_country self (fun c => set_pollution (Py.max 0 (pollution c - pollution_decrease)%Q) c) ;
  e <- get_eco ;
  old <- of_option (regional_pollution e !! name c) ;
  _ <- upd_eco (fun e =>
         set_regional_pollution
           (<[name c := Py.max 0 (old - pollution_decrease)%Q]> (regional_pollution e)) e) ;
  _ <- upd_eco (fun e =>
         set_ecosystem_health (Py.min 100 (ecosystem_health e + eco_health_increase)%Q) e) ;
  _ <- upd_eco (fun e =>
         set_global_pollution (Py.max 0 (global_pollution e - 2 * efficiency)%Q) e) ;
  _ <- upd_country self (fun c => set_happiness (Py.min 100 (happiness c + 5 * efficiency)%Q) c) ;
  _ <- upd_country self (fun c =>
         set_money (Py.int (inject_Z (money c) * (1 + 0.02 * efficiency))%Q) c) ;
  upd_country self (fun c =>
         set_resources
           (res_set forest (r_forest (resources c) + Py.int (5 * efficiency)%Q) (resources c)) c).

Definition invest_infrastructure (self : nat) (efficiency : Q) : M unit :=
  c <- get_country self ;
  let right := bool_decide (government c = GovRight) in
  let infra_increase := (if right then 25 * efficiency else 15 * efficiency)%Q in
  let rebellion_decrease := (if right then 0.03 * efficiency else 0.02 * efficiency)%Q in
  _ <- upd_country self (fun c =>
         set_infrastructure_level (Py.min 100 (infrastructure_level c + infra_increase)%Q) c) ;
  _ <- upd_country self (fun c => set_happiness (Py.min 100 (happiness c + 4 * efficiency)%Q) c) ;
  upd_country self (fun c =>
         set_rebellion_risk (Py.max 0 (rebellion_risk c - rebellion_decrease)%Q) c).

(** The part of [make_investment_decision] after the action is chosen and
    the two guards are passed. *)
Definition invest (self : nat) (state : StateKey) (action : Action)
    (investment_amount : Z) : M unit :=
  c <- get_country self ;
  e <- get_eco ;
  let old_hap := happiness c in
  let old_mon := money c in
  let old_pol := pollution c in
  let old_eco := ecosystem_health e in
  let old_reb := rebellion_risk c in
  _ <- upd_country self (fun c => set_money (money c - investment_amount) c) ;
  inv <- of_option (inv_add action investment_amount (investments c)) ;
  _ <- upd_country self (set_investments inv) ;
  let efficiency := investment_efficiency (ecosystem_health e) (happiness c) in
  _ <- match action with
       | economy => invest_economy self efficiency
       | environment => invest_environment self efficiency
       | infrastructure => invest_infrastructure self efficiency
       | _ => ret tt
       end ;
  new_state <- get_state self None ;
  c' <- get_country self ;
  e' <- get_eco ;
  let delta_hap := (happiness c' - old_hap)%Q in
  let delta_mon := (inject_Z (money c' - old_mon) / 10000000)%Q in
  let delta_pol := (pollution c' - old_pol)%Q in
  let delta_eco := (ecosystem_health e' - old_eco)%Q in
  let delta_reb := (rebellion_risk c' - old_reb)%Q in
  let reward := (delta_hap + delta_mon - delta_pol + delta_eco * 0.5 - delta_reb * 10)%Q in
  update self InvestQ state action reward new_state.

(** [Country.make_investment_decision()] *)
Definition make_investment_decision (self : nat) : M unit :=
  try_except
    (c <- get_country self ;
     if money c <? 10000000 then ret tt
     else
       state <- get_state self None ;
       action <- choose_action self InvestQ state ;
       c <- get_country self ;
       let investment_amount := Py.int (inject_Z (money c) * 0.05)%Q in
       if investment_amount <? 5000 then ret tt
       else invest self state action investment_amount)
    (ret tt).

(** [self.government = 'left' if self.government == 'right' else 'right'] *)
Definition flip (g : Government) : Government :=
  match g with
  | GovRight => GovLeft
  | GovLeft => GovRight
  end.

(** [Country.rebellion()] *)
Definition rebellion (self : nat) : M unit :=
  try_except
    (_ <- upd_country self (fun c => set_population (Py.int (inject_Z (population c) * 0.9)%Q) c) ;
     _ <- upd_country self (fun c =>
            set_military_power (Py.int (inject_Z (military_power c) * 0.5)%Q) c) ;
     _ <- upd_country self (fun c => set_money (Py.int (inject_Z (money c) * 0.5)%Q) c) ;
     u <- lift_rand Rand.random ;
     if Py.ltb u 0.25 then
       _ <- upd_country self (fun c => set_government (flip (government c)) c) ;
       _ <- upd_country self (fun c => set_ideology_score (- ideology_score c) c) ;
       upd_country self (set_happiness 70)
     else
       n <- lift_rand (Rand.randint 30 40) ;
       upd_country self (set_happiness (inject_Z n)))
    (ret tt).

(** [test and random.random() < p]: the draw is made only when [test]
    holds. *)
Definition and_chance (test : bool) (p : Q) : M bool :=
  if test then u <- lift_rand Rand.random ; ret (Py.ltb u p) else ret false.

(** *** The phases of [simulate_turn], in the order of the source *)

Definition turn_growth (self : nat) : M unit :=
  _ <- upd_country self (fun c => set_year (year c + 1) c) ;
  _ <- upd_country self (fun c =>
         set_population (population c + Py.int (inject_Z (population c) * 0.01)%Q) c) ;
  _ <- upd_country self (fun c =>
         set_production
           (production c + inject_Z (tech_level c * education_level c) * 0.1)%Q c) ;
  upd_country self (fun c => set_money (money c + Py.int (production c * 1000)%Q) c).

Definition turn_consumption (self : nat) : M unit :=
  c <- get_country self ;
  if Py.gtb (production c) 100 then
    let oil_consumed := Z.min 5 (r_oil (resources c)) in
    let coal_consumed := Z.min 3 (r_coal (resources c)) in
    let gas_consumed := Z.min 2 (r_gas (resources c)) in
    _ <- upd_country self (fun c =>
           set_resources (res_set oil (Z.max 0 (r_oil (resources c) - oil_consumed)) (resources c)) c) ;
    _ <- upd_country self (fun c =>
           set_resources (res_set coal (Z.max 0 (r_coal (resources c) - coal_consumed)) (resources c)) c) ;
    _ <- upd_country self (fun c =>
           set_resources (res_set gas (Z.max 0 (r_gas (resources c) - gas_consumed)) (resources c)) c) ;
    let emitted :=
      (inject_Z oil_consumed * 1.5 + inject_Z coal_consumed * 2 + inject_Z gas_consumed * 0.5)%Q in
    _ <- upd_country self (fun c => set_pollution (pollution c + emitted)%Q c) ;
    regional_pollution_of_country_add self emitted
  else ret tt.

Definition turn_scarcity (self : nat) : M unit :=
  c <- get_country self ;
  _ <- (if r_oil (resources c) =? 0 then
          _ <- upd_country self (fun c => set_production (production c * 0.7)%Q c) ;
          _ <- upd_country self (fun c => set_happiness (Py.max 0 (happiness c - 10)%Q) c) ;
          upd_country self (fun c => set_rebellion_risk (rebellion_risk c + 0.1)%Q c)
        else ret tt) ;
  _ <- (if r_coal (resources c) =? 0 then
          _ <- upd_country self (fun c => set_production (production c * 0.8)%Q c) ;
          upd_country self (fun c => set_happiness (Py.max 0 (happiness c - 5)%Q) c)
        else ret tt) ;
  if r_gas (resources c) =? 0 then
    _ <- upd_country self (fun c => set_production (production c * 0.9)%Q c) ;
    upd_country self (fun c => set_money (money c - 5000) c)
  else ret tt.

Definition turn_forest (self : nat) : M unit :=
  c <- get_country self ;
  _ <- (if 70 <? r_forest (resources c) then
          _ <- upd_country self (fun c => set_happiness (Py.min 100 (happiness c + 3)%Q) c) ;
          upd_eco (fun e => set_ecosystem_health (Py.min 100 (ecosystem_health e + 1)%Q) e)
        else if r_forest (resources c) <? 30 then
          _ <- upd_country self (fun c => set_happiness (Py.max 0 (happiness c - 3)%Q) c) ;
          upd_country self (fun c => set_rebellion_risk (rebellion_risk c + 0.05)%Q c)
        else ret tt) ;
  _ <- upd_country self (fun c =>
         set_resources (res_set forest (r_forest (resources c) + 2) (resources c)) c) ;
  if decide (government c = GovLeft) then
    for_each resource_keys (fun k =>
      upd_country self (fun c =>
        set_resources (res_set k (res_get k (resources c) + 3) (resources c)) c))
  else
    _ <- upd_country self (fun c =>
           set_resources (res_set oil (r_oil (resources c) + 2) (resources c)) c) ;
    upd_country self (fun c =>
           set_resources (res_set coal (r_coal (resources c) + 2) (resources c)) c).

Definition turn_environment (self : nat) : M unit :=
  c <- get_country self ;
  _ <- (if Py.gtb (production c) 100 then
          _ <- upd_country self (fun c => set_pollution (pollution c + 3)%Q c) ;
          regional_pollution_of_country_add self 3
        else ret tt) ;
  e <- get_eco ;
  if Py.ltb (ecosystem_health e) 30 then
    _ <- upd_country self (fun c => set_happiness (Py.max 0 (happiness c - 5)%Q) c) ;
    _ <- upd_country self (fun c =>
           set_natural_disaster_risk (natural_disaster_risk c + 0.2)%Q c) ;
    upd_country self (fun c => set_rebellion_risk (rebellion_risk c + 0.05)%Q c)
  else if Py.gtb (ecosystem_health e) 70 then
    let happiness_increase : Z := if decide (government c = GovRight) then 5 else 7 in
    _ <- upd_country self (fun c =>
           set_happiness (Py.min 100 (happiness c + inject_Z happiness_increase)%Q) c) ;
    upd_country self (fun c => set_money (Py.int (inject_Z (money c) * 1.05)%Q) c)
  else ret tt.

Definition turn_society (self : nat) : M unit :=
  c <- get_country self ;
  sports <- and_chance (year c mod 4 =? 0) 0.3 ;
  _ <- (if sports then
          _ <- upd_country self (fun c => set_happiness (Py.min 100 (happiness c + 5)%Q) c) ;
          _ <- upd_country self (fun c => set_rebellion_risk (Py.max 0 (rebellion_risk c - 2)%Q) c) ;
          upd_country self (fun c => set_production (production c * 1.1)%Q c)
        else ret tt) ;
  students <- and_chance (education_level c <? 4) 0.2 ;
  _ <- (if students then
          _ <- upd_country self (fun c =>
                 set_population (population c - Py.int (inject_Z (population c) * 0.01)%Q) c) ;
          upd_country self (fun c => set_happiness (Py.max 0 (happiness c - 2)%Q) c)
        else ret tt) ;
  c <- get_country self ;
  technicians <- and_chance (tech_level c <? 5) 0.15 ;
  if technicians then
    share <- lift_rand (Rand.uniform 0.03 0.07) ;
    _ <- upd_country self (fun c =>
           set_population (population c - Py.int (inject_Z (population c) * share)%Q) c) ;
    upd_country self (fun c => set_happiness (Py.max 0 (happiness c - 5)%Q) c)
  else ret tt.

Definition turn_trade (self : nat) : M unit :=
  w <- get_world ;
  p <- lift_rand (Rand.choice (filter (fun j => j ≠ self) (positions w))) ;
  trade_partner <- of_option p ;
  trade_resources self trade_partner.

Definition turn_politics (self : nat) : M unit :=
  c <- get_country self ;
  if year c mod 4 =? 0 then
    if Py.gtb (happiness c) 50 then ret tt
    else
      _ <- upd_country self (fun c => set_government (flip (government c)) c) ;
      _ <- upd_country self (fun c => set_ideology_score (- ideology_score c) c) ;
      upd_country self (set_happiness 70)
  else ret tt.

Definition turn_rebellion (self : nat) : M unit :=
  c <- get_country self ;
  _ <- (if Py.ltb (happiness c) 20 && negb (has_rebelled_this_year c)
        then rebellion self else ret tt) ;
  c <- get_country self ;
  _ <- (if Py.ltb (happiness c) 0 then upd_country self (set_happiness 0) else ret tt) ;
  upd_country self (set_has_rebelled_this_year false).

(** [Country.simulate_turn()] *)
Definition simulate_turn (self : nat) : M unit :=
  try_except
    (_ <- turn_growth self ;
     _ <- turn_consumption self ;
     _ <- turn_scarcity self ;
     _ <- turn_forest self ;
     _ <- turn_environment self ;
     _ <- turn_society self ;
     _ <- collect_taxes self ;
     _ <- turn_trade self ;
     _ <- join_environment_agreement self ;
     _ <- make_investment_decision self ;
     _ <- turn_politics self ;
     turn_rebellion self)
    (ret tt).

(** ** The driver

    [simulate_world] hands one [simulate_turn] per country to a thread
    pool and waits for all of them; here the turns run one after the
    other, in the order in which they are submitted. *)

Definition simulate_year (yr : Z) : M unit :=
  _ <- simulate_global_events yr ;
  _ <- simulate_war yr ;
  w <- get_world ;
  for_each (positions w) simulate_turn.

Definition simulate_world (years : nat) : M unit :=
  try_except
    (for_each (map Z.of_nat (seq 1 years)) simulate_year)
    (ret tt).

(** ** The start of an episode *)

(** The loop that draws the first tension of every ordered pair. *)
Definition init_tension (i j : nat) : M unit :=
  if decide (i ≠ j) then
    other <- get_country j ;
    n <- lift_rand (Rand.randint 40 60) ;
    _ <- upd_country i (fun c => set_tension_score (<[name other := n]> (tension_score c)) c) ;
    upd_country i (fun c =>
      set_diplomatic_relations
        (<[name other := get_diplomatic_status c other]> (diplomatic_relations c)) c)
  else ret tt.

Definition init_tensions : M unit :=
  w <- get_world ;
  for_each (positions w) (fun i => for_each (positions w) (init_tension i)).

(** [Country(name)] for every name, each with its agent. *)
Fixpoint make_countries (agents : list (string * RLAgent)) (r : RandomSource)
  : list Country * RandomSource :=
  match agents with
  | [] => ([], r)
  | (nm, ag) :: rest =>
      let (c, r) := Country_init nm ag r in
      let (cs, r) := make_countries rest r in
      (c :: cs, r)
  end.

(** The world of a new episode: [World()], the countries,
    [initialize_ecosystem()] and the first tensions.  [None] when the
    construction raises (no country). *)
Definition new_episode (agents : list (string * RLAgent)) (r : RandomSource) : option State :=
  let (cs, r) := make_countries agents r in
  e ← Ecosystem_init cs;
  let w := {| countries := cs;
              global_events := ∅;
              global_events_done := years_done_init;
              ecosystem := e |} in
  match init_tensions {| world := w; rng := r |} with
  | (Ok _, s) => Some s
  | (Raised, _) => None
  end.

(** * Vocabulary of the specification *)

(** ** Relations between the state before and the state after *)

(** A relation between the state before and the state after that is
    reflexive, transitive, and blind to the random source. *)
Class Frame (R : State → State → Prop) := {
  frame_refl : ∀ s, R s s;
  frame_trans : ∀ s1 s2 s3, R s1 s2 → R s2 s3 → R s1 s3;
  frame_rng : ∀ s r, R s {| world := world s; rng := r |}
}.

(** [lifts R m]: the state in which [m] ends, returning or raising, is
    related by [R] to the state in which it starts. *)
Definition lifts (R : State → State → Prop) {A} (m : M A) : Prop :=
  ∀ s, R s (snd (m s)).

(** The part [π] of the world is the same before and after. *)
Definition keeps {X} (π : World → X) (s s' : State) : Prop := π (world s') = π (world s).

(** The flags of the years are the same before and after. *)
Definition same_years_done (s s' : State) : Prop :=
  global_events_done (world s') = global_events_done (world s).

(** The pollution of country [i]. *)
Definition pollution_at (i : nat) (w : World) : option Q := pollution <$> countries w !! i.



(** ** The tables of an agent *)

(** The action domain of each table, as written in the dict literals of
    [RLAgent.__init__]. *)
Definition action_domain (tid : TableId) : list Action :=
  match tid with
  | InvestQ => [economy; environment; infrastructure]
  | AgreeQ => [join; refuse]
  | WarQ => [attack; peace]
  end.


(** ** Trade *)

(** What country [k] holds of resource [Y]; [0] when there is no such
    country. *)
Definition holding (Y : Resource) (k : nat) (s : State) : Z :=
  default 0 (res_get Y ∘ resources <$> countries (world s) !! k).

(** When [i] and [j] are countries of the world: the same countries are
    there afterwards, and for every resource the holdings of [i] and [j]
    add up to the same amount. *)
Definition conserves (i j : nat) (s s' : State) : Prop :=
  is_Some (countries (world s) !! i) →
  is_Some (countries (world s) !! j) →
  length (countries (world s')) = length (countries (world s))
  ∧ ∀ Y, holding Y i s' + holding Y j s' = holding Y i s + holding Y j s.

(** The state after the two assignments that move [amount] of [X]. *)
Definition transferred (self partner : nat) (X : Resource) (amount : Z) (s : State) : State :=
  {| world :=
       set_countries
         (alter (fun c => set_resources
                   (res_set X (res_get X (resources c) - amount) (resources c)) c) partner
            (alter (fun c => set_resources
                      (res_set X (res_get X (resources c) + amount) (resources c)) c) self
               (countries (world s))))
         (set_countries
            (alter (fun c => set_resources
                      (res_set X (res_get X (resources c) + amount) (resources c)) c) self
               (countries (world s)))
            (world s));
     rng := rng s |}.

(** ** The pollution update *)

(** The value that [update_pollution] stores for the country [c] at
    position [i] of [cs]. *)
Definition regional_of (cs : list Country) (i : nat) (c : Country) : Q :=
  (pollution c + Py.sum (map (fun c => pollution c * 0.1) (neighbors i cs)))%Q.

(** The country after the three assignments of the penalty. *)
Definition penalised (c : Country) : Country :=
  set_rebellion_risk (rebellion_risk c + 0.05)%Q
    (set_resources (res_set forest (Z.max 0 (r_forest (resources c) - 10)) (resources c))
       (set_happiness (Py.max 0 (happiness c - 5)%Q) c)).

(** The country at position [i] after its turn of the loop. *)
Definition after_step (cs : list Country) (i : nat) (c : Country) : Country :=
  if Py.gtb (regional_of cs i c) 50 then penalised c else c.

(** The entry that the loop writes for position [i]. *)
Definition record_regional (cs : list Country) (d : gmap string Q) (i : nat) : gmap string Q :=
  match cs !! i with
  | Some c => <[name c := regional_of cs i c]> d
  | None => d
  end.

(** The state with [cs] as the countries of the world. *)
Definition with_countries (cs : list Country) (s : State) : State :=
  {| world := set_countries cs (world s); rng := rng s |}.

(** ** The bounds *)

(** The bounds on the attributes of a country. *)
Record country_ok (c : Country) : Prop := {
  happiness_lo : (0 <= happiness c)%Q;
  happiness_hi : (happiness c <= 100)%Q;
  rebellion_lo : (0 <= rebellion_risk c)%Q;
  tension_range : ∀ nm t, tension_score c !! nm = Some t → 0 ≤ t ≤ 100
}.

(** The bounds on the attributes of the ecosystem. *)
Record ecosystem_ok (e : Ecosystem) : Prop := {
  health_lo : (0 <= ecosystem_health e)%Q;
  health_hi : (ecosystem_health e <= 100)%Q;
  alarm_range : 0 ≤ alarm_level e ≤ 3
}.

(** The bounds hold for every country and for the ecosystem. *)
Definition world_ok (w : World) : Prop :=
  Forall country_ok (countries w) ∧ ecosystem_ok (ecosystem w).

(** The bounds are kept, and the alarm level does not go down. *)
Definition bounded (s s' : State) : Prop :=
  (world_ok (world s) → world_ok (world s'))
  ∧ alarm_level (ecosystem (world s)) ≤ alarm_level (ecosystem (world s')).

(** ** The operations of the program and the states they reach *)

(** The methods and the phases that can run on a world, with their
    arguments. *)
Inductive Operation :=
  | OpSimulateWorld (years : nat)
  | OpSimulateYear (yr : Z)
  | OpGlobalEvents (yr : Z)
  | OpFireGlobalEvents
  | OpSimulateWar (yr : Z)
  | OpWageWars
  | OpResolveWar (attacker defender : nat)
  | OpUpdatePollution
  | OpSoundAlarm
  | OpTriggerDisasters
  | OpSimulateTurn (i : nat)
  | OpTurnGrowth (i : nat)
  | OpTurnConsumption (i : nat)
  | OpTurnScarcity (i : nat)
  | OpTurnForest (i : nat)
  | OpTurnEnvironment (i : nat)
  | OpTurnSociety (i : nat)
  | OpCollectTaxes (i : nat)
  | OpTradeResources (i j : nat)
  | OpJoinAgreement (i : nat)
  | OpInvest (i : nat)
  | OpTurnPolitics (i : nat)
  | OpTurnRebellion (i : nat)
  | OpRebellion (i : nat)
  | OpUpdateTension (i j : nat) (change : Z).

(** The computation of an operation. *)
Definition run (op : Operation) : M unit :=
  match op with
  | OpSimulateWorld years => simulate_world years
  | OpSimulateYear yr => simulate_year yr
  | OpGlobalEvents yr => simulate_global_events yr
  | OpFireGlobalEvents => fire_global_events
  | OpSimulateWar yr => simulate_war yr
  | OpWageWars => wage_wars
  | OpResolveWar attacker defender => resolve_war attacker defender
  | OpUpdatePollution => update_pollution
  | OpSoundAlarm => sound_alarm
  | OpTriggerDisasters => trigger_disasters
  | OpSimulateTurn i => simulate_turn i
  | OpTurnGrowth i => turn_growth i
  | OpTurnConsumption i => turn_consumption i
  | OpTurnScarcity i => turn_scarcity i
  | OpTurnForest i => turn_forest i
  | OpTurnEnvironment i => turn_environment i
  | OpTurnSociety i => turn_society i
  | OpCollectTaxes i => collect_taxes i
  | OpTradeResources i j => trade_resources i j
  | OpJoinAgreement i => _ <- join_environment_agreement i ; ret tt
  | OpInvest i => make_investment_decision i
  | OpTurnPolitics i => turn_politics i
  | OpTurnRebellion i => turn_rebellion i
  | OpRebellion i => rebellion i
  | OpUpdateTension i j change => update_tension i j change
  end.

(** The states of an episode: the state that [new_episode] builds, and
    every state in which an operation ends, returning or raising, when
    started in such a state. *)
Inductive reachable : State → Prop :=
  | reachable_start agents r s : new_episode agents r = Some s → reachable s
  | reachable_step op s : reachable s → reachable (snd (run op s)).

(** ** Sample objects *)

(** A country as [Country.__init__] can build it. *)
Definition sample_country (nm : string) (gov : Government) : Country := {|
  name := nm;
  population := 20000000;
  resources := {| r_oil := 100; r_coal := 100; r_gas := 100; r_forest := 100 |};
  natural_disaster_risk := 0.5;
  government := gov;
  ideology_score := if decide (gov = GovRight) then 40 else -40;
  money := 200000000;
  military_power := 100;
  happiness := 70;
  tech_level := 3;
  education_level := 3;
  pollution := 15;
  production := 100;
  investments := {| inv_economy := 0; inv_environment := 0; inv_infrastructure := 0 |};
  infrastructure_level := 50;
  rebellion_risk := 0;
  year := 0;
  has_rebelled_this_year := false;
  tension_score := ∅;
  diplomatic_relations := ∅;
  environment_agreement := 0;
  agent := RLAgent_init
|}.

(** A random source that always draws [n]. *)
Definition constant_source (n : N) : RandomSource := {| draws := fun _ => n; cursor := 0 |}.

(** A world of the given countries, with its ecosystem in the given
    health and no year done yet. *)
Definition sample_world (cs : list Country) (health : Q) : World := {|
  countries := cs;
  global_events := ∅;
  global_events_done := years_done_init;
  ecosystem := {| global_pollution := 15;
                  regional_pollution := list_to_map (map (fun c => (name c, pollution c)) cs);
                  ecosystem_health := health;
                  alarm_level := 0 |}
|}.

(** The sample world with the constant random source. *)
Definition sample_state (cs : list Country) (health : Q) (n : N) : State :=
  {| world := sample_world cs health; rng := constant_source n |}.

(** Two hostile countries: the tension of Sofialand toward Jimenara is 90. *)
Definition hostile_pair : list Country :=
  [ set_tension_score {[ "Jimenara" := 90 ]} (sample_country "Sofialand" GovRight);
    set_tension_score {[ "Sofialand" := 50 ]} (sample_country "Jimenara" GovLeft) ].

(** Every draw of [random.random()] is 0.5: no event, no disaster, and
    no exploration. *)
Definition hostile_state : State := sample_state hostile_pair 60 (2 ^ 52).

(** Sofialand is short of oil; the partner has oil and money, and the
    draws make the trade go through. *)
Definition trading_pair : list Country :=
  [ set_resources {| r_oil := 10; r_coal := 100; r_gas := 100; r_forest := 100 |}
      (sample_country "Sofialand" GovRight);
    sample_country "Jimenara" GovLeft ].

(** The scenario on a sample world: the greedy choice on the table of
    Jimenara in which ['environment'] has the largest value. *)
Definition green_agent : RLAgent :=
  set_invest_q
    (QT.setitem [4; 0; 2; 2; 1; 4]
       [(economy, 0%Q); (environment, 1%Q); (infrastructure, 0%Q)]
       (invest_q RLAgent_init))
    RLAgent_init.

(** Jimenara, governed from the left, with happiness 80 in a world of
    ecosystem health 80. *)
Definition green_state : State :=
  sample_state
    [ sample_country "Sofialand" GovRight;
      set_agent green_agent (set_happiness 80 (sample_country "Jimenara" GovLeft)) ]
    80 (2 ^ 52).

(** The first year of an episode of two countries. *)
Definition episode_start : State :=
  default (sample_state [] 60 0)
    (new_episode [("Sofialand", RLAgent_init); ("Jimenara", RLAgent_init)]
       (constant_source (2 ^ 52))).

(** ** Further vocabulary: what every operation keeps *)

(** The names of the countries, in the order of [world.countries]. *)
Definition names_of (w : World) : list string := name <$> countries w.

(** The year counters of the countries. *)
Definition years_of (w : World) : list Z := year <$> countries w.

(** A year whose flag is [True] keeps it. *)
Definition flags_kept (s s' : State) : Prop :=
  ∀ y, global_events_done (world s) !! y = Some true →
       global_events_done (world s') !! y = Some true.

(** A country that has joined the environment agreement is still a
    member. *)
Definition membership_kept (s s' : State) : Prop :=
  ∀ j c, countries (world s) !! j = Some c → environment_agreement c = 1 →
         ∃ c', countries (world s') !! j = Some c' ∧ environment_agreement c' = 1.

(** ** Further vocabulary: the tables of the agents *)

(** The keys of an entry are the actions of the domain of its table, in
    the order of the dict literal. *)
Definition entry_wf (tid : TableId) (e : QEntry) : Prop :=
  map fst e = action_domain tid.

(** The factory and every stored entry have the keys of the domain. *)
Definition table_wf (tid : TableId) (t : QTable) : Prop :=
  entry_wf tid (default_factory t)
  ∧ ∀ k e, entries t !! k = Some e → entry_wf tid e.

Definition agent_wf (a : RLAgent) : Prop := ∀ tid, table_wf tid (table_of tid a).

Definition agents_wf (w : World) : Prop :=
  Forall (fun c => agent_wf (agent c)) (countries w).

(** The tables that were well formed before are well formed after. *)
Definition agents_kept (s s' : State) : Prop := agents_wf (world s) → agents_wf (world s').

(** ** Further vocabulary: war *)


(** The tension that [simulate_war] compares with 70: the stored tension,
    5 higher when the global pollution exceeds 50. *)
Definition war_tension (w : World) (c1 c2 : Country) : Z :=
  if Py.gtb (global_pollution (ecosystem w)) 50
  then tension_with c1 c2 + 5 else tension_with c1 c2.


(** What the loser of a war hands over of a holding [r]. *)
Definition war_loss (r : Z) : Z := Py.int (inject_Z r * 0.3)%Q.

(** Sofialand has joined the environment agreement; Jimenara has not. *)
Definition member_state : State :=
  sample_state
    [ set_environment_agreement 1 (sample_country "Sofialand" GovRight);
      sample_country "Jimenara" GovLeft ]
    60 (2 ^ 52).

(** ** Further vocabulary: the years of an episode *)

(** No year becomes a key of [global_events_done]. *)
Definition no_year_added (s s' : State) : Prop :=
  ∀ y, global_events_done (world s) !! y = None →
       global_events_done (world s') !! y = None.

(** [min(100, max(0, t))] *)
Definition clamp_tension (t : Z) : Z := Z.min 100 (Z.max 0 t).


(** ** Further vocabulary: money and investments *)

(** The money of country [k]; [0] when there is no such country. *)
Definition wealth (k : nat) (s : State) : Z :=
  default 0 (money <$> countries (world s) !! k).

(** When [i] and [j] are countries of the world: the same countries are
    there afterwards, and the money of [i] and [j] adds up to the same
    amount. *)
Definition pays_within (i j : nat) (s s' : State) : Prop :=
  is_Some (countries (world s) !! i) →
  is_Some (countries (world s) !! j) →
  length (countries (world s')) = length (countries (world s))
  ∧ wealth i s' + wealth j s' = wealth i s + wealth j s.


(** What the decisions of a turn read and write: the agent, the
    investments, the membership of the agreement, the government and the
    ideology of every country. *)
Definition decisions_of (w : World)
  : list (RLAgent * Investments * Z * Government * Z) :=
  (fun c => (agent c, investments c, environment_agreement c, government c,
             ideology_score c)) <$> countries w.

(** In a world of one country, the decisions are as they were. *)
Definition alone_undecided (s s' : State) : Prop :=
  length (countries (world s)) = 1%nat →
  length (countries (world s')) = 1%nat ∧ decisions_of (world s') = decisions_of (world s).

(** A world of one country. *)
Definition lone_state : State :=
  sample_state [sample_country "Sofialand" GovRight] 60 (2 ^ 52).


(** ** Further vocabulary: the stocks of a country *)

(** What a country has is never negative, its levels stay in their
    ranges, and the flag of the rebellion is not set. *)
Record stock_ok (c : Country) : Prop := {
  population_lo : 0 ≤ population c;
  resources_lo : ∀ X, 0 ≤ res_get X (resources c);
  tech_range : 1 ≤ tech_level c ≤ 5;
  education_range : 1 ≤ education_level c ≤ 5;
  pollution_lo : (0 <= pollution c)%Q;
  production_lo : (0 <= production c)%Q;
  infrastructure_lo : (0 <= infrastructure_level c)%Q;
  infrastructure_hi : (infrastructure_level c <= 100)%Q;
  military_lo : 0 ≤ military_power c;
  flag_unset : has_rebelled_this_year c = false
}.

(** The stocks that were in order before are in order after. *)
Definition stocked (s s' : State) : Prop :=
  Forall stock_ok (countries (world s)) → Forall stock_ok (countries (world s')).

(** The first country of [episode_start]. *)
Definition episode_first : Country :=
  default (sample_country "Sofialand" GovRight) (countries (world episode_start) !! 0%nat).


(** ** Further vocabulary: what a turn needs to run to its end *)

(** Every country has its key in [regional_pollution]. *)
Definition regional_keys_cover (w : World) : Prop :=
  ∀ nm, nm ∈ names_of w → is_Some (regional_pollution (ecosystem w) !! nm).

(** The names are the same, and if every country had its key in
    [regional_pollution], every country has it afterwards. *)
Definition keys_kept (s s' : State) : Prop :=
  names_of (world s') = names_of (world s)
  ∧ (regional_keys_cover (world s) → regional_keys_cover (world s')).




(** ** Further vocabulary: the start of an episode *)

(** The tensions of a country are between 40 and 60 and all its recorded
    relations are ['neutral']. *)
Definition calm (c : Country) : Prop :=
  (∀ nm t, tension_score c !! nm = Some t → 40 ≤ t ≤ 60)
  ∧ ∀ nm st, diplomatic_relations c !! nm = Some st → st = neutral.

(** The countries that were calm before are calm after. *)
Definition calm_kept (s s' : State) : Prop :=
  Forall calm (countries (world s)) → Forall calm (countries (world s')).

(** [self.regional_pollution[c.name]] for the country [c]; [0] when the
    key is missing. *)
Definition regional_pollution_of (w : World) (c : Country) : Q :=
  default 0%Q (regional_pollution (ecosystem w) !! name c).

(** ** Further vocabulary: the levels of a country *)

(** Every country with a tech level of 1 or more is still there, its tech
    level is not higher, not below 1, and its education level is the
    same. *)
Definition no_progress (s s' : State) : Prop :=
  ∀ i c, countries (world s) !! i = Some c →
         1 ≤ tech_level c →
         ∃ c', countries (world s') !! i = Some c'
               ∧ 1 ≤ tech_level c' ≤ tech_level c
               ∧ education_level c' = education_level c.

(** The order of [sorted(..., key=f, reverse=True)]: the key does not
    increase. *)
Definition by_decreasing {A} (f : A → Q) : relation A := fun a b => (f b <= f a)%Q.

(** * Verification *)

(** ** Comparisons and clamps *)

Lemma ltb_lt (x y : Q) : Py.ltb x y = true ↔ (x < y)%Q.
Proof.
  unfold Py.ltb. rewrite negb_true_iff, <- not_true_iff_false, Qle_bool_iff.
  split; [apply Qnot_le_lt | apply Qlt_not_le].
Qed.

Lemma ltb_ge (x y : Q) : Py.ltb x y = false ↔ (y <= x)%Q.
Proof. unfold Py.ltb. rewrite negb_false_iff. apply Qle_bool_iff. Qed.

Lemma gtb_gt (x y : Q) : Py.gtb x y = true ↔ (y < x)%Q.
Proof. apply ltb_lt. Qed.

Lemma gtb_le (x y : Q) : Py.gtb x y = false ↔ (x <= y)%Q.
Proof. apply ltb_ge. Qed.

(** Case analysis on every comparison of the goal. *)
Ltac py_cases :=
  unfold Py.max, Py.min, Py.abs, Py.gtb in *;
  repeat match goal with
    | |- context [Py.ltb ?a ?b] =>
        let E := fresh "E" in
        destruct (Py.ltb a b) eqn:E;
        [apply ltb_lt in E | apply ltb_ge in E]
    end.

Lemma max_lower (a b : Q) : (a <= Py.max a b)%Q.
Proof. py_cases; lra. Qed.

Lemma max_upper (a b c : Q) : (a <= c → b <= c → Py.max a b <= c)%Q.
Proof. intros. py_cases; lra. Qed.

Lemma min_upper (a b : Q) : (Py.min a b <= a)%Q.
Proof. py_cases; lra. Qed.

Lemma min_lower (a b c : Q) : (c <= a → c <= b → c <= Py.min a b)%Q.
Proof. intros. py_cases; lra. Qed.

Lemma severity_multiplier_pos (infra : Q) : (0 < severity_multiplier infra)%Q.
Proof. unfold severity_multiplier. py_cases; lra. Qed.

Lemma investment_efficiency_pos (eh hap : Q) : (0 < investment_efficiency eh hap)%Q.
Proof. unfold investment_efficiency. py_cases; lra. Qed.

(** ** Running the primitives *)

Lemma bind_ok {A B} (m : M A) (k : A → M B) s a s' :
  m s = (Ok a, s') → bind m k s = k a s'.
Proof. intros H. unfold bind. by rewrite H. Qed.

Lemma bind_raised {A B} (m : M A) (k : A → M B) s s' :
  m s = (Raised, s') → bind m k s = (Raised, s').
Proof. intros H. unfold bind. by rewrite H. Qed.

Lemma get_country_ok s i c :
  countries (world s) !! i = Some c → get_country i s = (Ok c, s).
Proof. intros H. unfold get_country, get_world, bind, of_option. by rewrite H. Qed.

Lemma get_country_raised s i :
  countries (world s) !! i = None → get_country i s = (Raised, s).
Proof. intros H. unfold get_country, get_world, bind, of_option. by rewrite H. Qed.

Lemma bind_get_world {B} (k : World → M B) s : bind get_world k s = k (world s) s.
Proof. reflexivity. Qed.

Lemma bind_get_eco {B} (k : Ecosystem → M B) s :
  bind get_eco k s = k (ecosystem (world s)) s.
Proof. reflexivity. Qed.


Lemma bind_upd_country {B} i (f : Country → Country) (k : unit → M B) s :
  bind (upd_country i f) k s
  = k tt {| world := set_countries (alter f i (countries (world s))) (world s);
            rng := rng s |}.
Proof. reflexivity. Qed.

Lemma bind_upd_eco {B} (f : Ecosystem → Ecosystem) (k : unit → M B) s :
  bind (upd_eco f) k s
  = k tt {| world := set_ecosystem (f (ecosystem (world s))) (world s); rng := rng s |}.
Proof. reflexivity. Qed.

Lemma bind_ret {A B} (a : A) (k : A → M B) s : bind (ret a) k s = k a s.
Proof. reflexivity. Qed.

(** ** Relations that every step of a computation respects *)

Section Lifts.

Context (R : State → State → Prop) `{!Frame R}.

Lemma lifts_ret {A} (a : A) : lifts R (ret a).
Proof. intros s. apply frame_refl. Qed.

Lemma lifts_raise {A} : lifts R (@raise A).
Proof. intros s. apply frame_refl. Qed.

Lemma lifts_bind {A B} (m : M A) (k : A → M B) :
  lifts R m → (∀ a, lifts R (k a)) → lifts R (bind m k).
Proof.
  intros Hm Hk s. unfold bind. specialize (Hm s).
  destruct (m s) as [[a|] s']; simpl in *; [|done].
  eapply frame_trans; [exact Hm | apply Hk].
Qed.

(** The same with what is known of the value that [m] returns. *)
Lemma lifts_bind_post {A B} (P : A → Prop) (m : M A) (k : A → M B) :
  lifts R m → (∀ s a, fst (m s) = Ok a → P a) → (∀ a, P a → lifts R (k a)) →
  lifts R (bind m k).
Proof.
  intros Hm HP Hk s. unfold bind. specialize (Hm s). specialize (HP s).
  destruct (m s) as [[a|] s']; simpl in *; [|done].
  eapply frame_trans; [exact Hm | apply Hk; auto].
Qed.

Lemma lifts_try_except {A} (body handler : M A) :
  lifts R body → lifts R handler → lifts R (try_except body handler).
Proof.
  intros Hb Hh s. unfold try_except. specialize (Hb s).
  destruct (body s) as [[a|] s']; simpl in *; [done|].
  eapply frame_trans; [exact Hb | apply Hh].
Qed.

Lemma lifts_of_option {A} (o : option A) : lifts R (of_option o).
Proof. destruct o; [apply lifts_ret | apply lifts_raise]. Qed.

Lemma lifts_get_world : lifts R get_world.
Proof. intros s. apply frame_refl. Qed.

Lemma lifts_lift_rand {A} (f : RandomSource → A * RandomSource) : lifts R (lift_rand f).
Proof. intros s. unfold lift_rand. destruct (f (rng s)). apply frame_rng. Qed.

Lemma lifts_get_country i : lifts R (get_country i).
Proof.
  unfold get_country. apply lifts_bind; [apply lifts_get_world|].
  intros w. apply lifts_of_option.
Qed.

Lemma lifts_get_eco : lifts R get_eco.
Proof.
  unfold get_eco. apply lifts_bind; [apply lifts_get_world|].
  intros w. apply lifts_ret.
Qed.

Lemma lifts_for_each {A} (xs : list A) (body : A → M unit) :
  (∀ x, lifts R (body x)) → lifts R (for_each xs body).
Proof.
  intros Hb. induction xs as [|x xs IH]; simpl.
  - apply lifts_ret.
  - apply lifts_bind; [apply Hb | intros _; exact IH].
Qed.

Lemma lifts_for_fold {A B} (xs : list A) (acc : B) (body : B → A → M B) :
  (∀ b x, lifts R (body b x)) → lifts R (for_fold xs acc body).
Proof.
  intros Hb. revert acc. induction xs as [|x xs IH]; intros acc; simpl.
  - apply lifts_ret.
  - apply lifts_bind; [apply Hb | intros b; apply IH].
Qed.

Lemma lifts_map_m {A B} (f : A → M B) (xs : list A) :
  (∀ x, lifts R (f x)) → lifts R (map_m f xs).
Proof.
  intros Hf. induction xs as [|x xs IH]; simpl.
  - apply lifts_ret.
  - apply lifts_bind; [apply Hf | intros y].
    apply lifts_bind; [exact IH | intros ys; apply lifts_ret].
Qed.

(** The loop of [sound_alarm], from what the assignment of the level
    does. *)
Lemma lifts_sound_alarm_loop ts :
  (∀ i t, (i, t) ∈ ts → lifts R (
     e <- get_eco ;
     if Py.gtb (global_pollution e) t && (alarm_level e <? i)
     then upd_eco (set_alarm_level i) else ret tt)) →
  lifts R (sound_alarm_loop ts).
Proof.
  induction ts as [|[i t] ts IH]; intros H; simpl.
  - apply lifts_ret.
  - intros s. rewrite bind_get_eco.
    pose proof (H i t ltac:(left) s) as Hi. rewrite bind_get_eco in Hi.
    destruct (_ && _); [exact Hi|].
    apply IH. intros j t' Hin. apply H. by right.
Qed.

End Lifts.

(** One step of the structural proof that a computation lifts a relation:
    [prim] closes the goals on assignments and on the methods proved
    before. *)
Ltac lifts_step prim :=
  cbv beta zeta;
  lazymatch goal with
  | |- Frame _ => exact _
  | |- ∀ _, _ => intro
  | |- lifts _ (bind _ _) => apply lifts_bind
  | |- lifts _ (ret _) => apply lifts_ret
  | |- lifts _ raise => apply lifts_raise
  | |- lifts _ (of_option _) => apply lifts_of_option
  | |- lifts _ get_world => apply lifts_get_world
  | |- lifts _ get_eco => apply lifts_get_eco
  | |- lifts _ (get_country _) => apply lifts_get_country
  | |- lifts _ (lift_rand _) => apply lifts_lift_rand
  | |- lifts _ (try_except _ _) => apply lifts_try_except
  | |- lifts _ (for_each _ _) => apply lifts_for_each
  | |- lifts _ (for_fold _ _ _) => apply lifts_for_fold
  | |- lifts _ (map_m _ _) => apply lifts_map_m
  | |- lifts _ (match ?x with _ => _ end) => destruct x
  | |- _ => prim
  end.

Ltac lifts_go prim := repeat (lifts_step prim).

(** ** RLAgent: the tables *)

Section Tables.

Implicit Types (t : QTable) (e : QEntry) (s k : StateKey) (a : Action).

Lemma entry_get_set a v e q :
  QT.entry_get a e = Some q → QT.entry_get a (QT.entry_set a v e) = Some v.
Proof.
  induction e as [|[b w] e IH]; simpl; [done|].
  destruct (decide (a = b)) as [->|Hne]; simpl.
  - intros _. by rewrite decide_True.
  - intros H. rewrite decide_False by done. auto.
Qed.

Lemma entry_get_set_ne a b v e :
  a ≠ b → QT.entry_get b (QT.entry_set a v e) = QT.entry_get b e.
Proof.
  intros Hne. induction e as [|[c w] e IH]; simpl; [done|].
  destruct (decide (a = c)) as [->|Hac]; simpl.
  - by rewrite !decide_False by done.
  - destruct (decide (b = c)); [done | exact IH].
Qed.

Lemma getitem_factory s t : default_factory (snd (QT.getitem s t)) = default_factory t.
Proof. unfold QT.getitem. by destruct (entries t !! s). Qed.

Lemma getitem_stored s t :
  entries (snd (QT.getitem s t)) !! s = Some (fst (QT.getitem s t)).
Proof.
  unfold QT.getitem. destruct (entries t !! s) eqn:E; simpl; [done|].
  apply lookup_insert_eq.
Qed.

Lemma getitem_other s k t :
  s ≠ k → entries (snd (QT.getitem s t)) !! k = entries t !! k.
Proof.
  intros Hne. unfold QT.getitem. destruct (entries t !! s) eqn:E; simpl; [done|].
  by apply lookup_insert_ne.
Qed.

(** Reading [s'] first does not change what a read of [s] returns. *)
Lemma getitem_after_getitem s s' t :
  fst (QT.getitem s (snd (QT.getitem s' t))) = fst (QT.getitem s t).
Proof.
  destruct (decide (s' = s)) as [->|Hne].
  - unfold QT.getitem at 1. by rewrite getitem_stored.
  - unfold QT.getitem at 1. rewrite getitem_other, getitem_factory by done.
    unfold QT.getitem. by destruct (entries t !! s).
Qed.

Lemma getitem_unseen s t :
  entries t !! s = None → fst (QT.getitem s t) = default_factory t.
Proof. intros H. unfold QT.getitem. by rewrite H. Qed.

Lemma update_factory al ga s a r s' t :
  default_factory (snd (QT.update al ga s a r s' t)) = default_factory t.
Proof.
  unfold QT.update.
  destruct (QT.getitem s' t) as [e1 t1] eqn:E1.
  assert (default_factory t1 = default_factory t) as H1
    by (change t1 with (snd (e1, t1)); rewrite <- E1; apply getitem_factory).
  destruct (Py.max_list _); [|done].
  destruct (QT.getitem s t1) as [e2 t2] eqn:E2.
  assert (default_factory t2 = default_factory t1) as H2
    by (change t2 with (snd (e2, t2)); rewrite <- E2; apply getitem_factory).
  destruct (QT.entry_get a e2); simpl; congruence.
Qed.

(** One update on a table. *)
Lemma table_update_rule al ga s a r s' t q m :
  QT.read s a t = Some q →
  Py.max_list (map snd (fst (QT.getitem s' t))) = Some m →
  ∃ t', QT.update al ga s a r s' t = (Ok tt, t')
        ∧ QT.read s a t' = Some (q + al * (r + ga * m - q))%Q
        ∧ ∀ b, b ≠ a → QT.read s b t' = QT.read s b t.
Proof.
  unfold QT.read. intros Hq Hm. unfold QT.update.
  pose proof (getitem_after_getitem s s' t) as Hs.
  destruct (QT.getitem s' t) as [e1 t1]; simpl in *. rewrite Hm.
  destruct (QT.getitem s t1) as [e2 t2]; simpl in *. subst e2. rewrite Hq.
  eexists. split; [reflexivity|].
  unfold QT.getitem, QT.setitem; simpl. rewrite lookup_insert_eq; simpl.
  split; [by eapply entry_get_set|].
  intros b Hb. by apply entry_get_set_ne.
Qed.

Lemma table_of_set_table tid t (ag : RLAgent) : table_of tid (set_table tid t ag) = t.
Proof. by destruct tid. Qed.

End Tables.

(** ** The update of a Q-table (claim C4) *)

(** C4.  One call of [RLAgent.update] on a table of an agent with
    [alpha = 0.1] and [gamma = 0.9]: when the entry of [(s, a)] reads [q]
    before the call and the largest value of the entry of the next state
    is [m], the call returns and the entry of [(s, a)] reads
    [q + 0.1 * (r + 0.9 * m - q)] afterwards.  And in a table built by
    [RLAgent.__init__], a state key that was never written reads as the
    entry that has the value [0] for every action of the domain of the
    table. *)
Theorem update_is_q_learning_step
    (st : State) (i : nat) (c : Country) (tid : TableId)
    (s s' : StateKey) (a : Action) (r q m : Q) :
  countries (world st) !! i = Some c →
  alpha (agent c) = 0.1%Q →
  gamma (agent c) = 0.9%Q →
  QT.read s a (table_of tid (agent c)) = Some q →
  Py.max_list (map snd (fst (QT.getitem s' (table_of tid (agent c))))) = Some m →
  (∃ st' c',
      update i tid s a r s' st = (Ok tt, st')
      ∧ countries (world st') !! i = Some c'
      ∧ QT.read s a (table_of tid (agent c')) = Some (q + 0.1 * (r + 0.9 * m - q))%Q)
  ∧ (∀ (tid' : TableId) (t : QTable) (k : StateKey),
        default_factory t = default_factory (table_of tid' RLAgent_init) →
        entries t !! k = None →
        fst (QT.getitem k t) = map (fun b => (b, 0%Q)) (action_domain tid')
        ∧ ∀ b, b ∈ action_domain tid' → QT.read k b t = Some 0%Q).
Proof.
  intros Hc Hal Hga Hq Hm. split.
  - destruct (table_update_rule (alpha (agent c)) (gamma (agent c)) s a r s' _ q m Hq Hm)
      as (t' & Hup & Hread & _).
    unfold update. rewrite (bind_ok _ _ _ _ _ (get_country_ok _ _ _ Hc)).
    rewrite Hup, bind_upd_country.
    eexists _, _. split; [reflexivity|]. simpl.
    rewrite list_lookup_alter_eq, Hc. simpl. split; [reflexivity|].
    unfold set_agent; cbn [agent].
    rewrite table_of_set_table, Hread, Hal, Hga. reflexivity.
  - intros tid' t k Hf Hk.
    assert (fst (QT.getitem k t) = map (fun b => (b, 0%Q)) (action_domain tid')) as He.
    { rewrite getitem_unseen, Hf by done. by destruct tid'. }
    split; [exact He|].
    intros b Hb. unfold QT.read. rewrite He.
    destruct tid'; simpl in Hb; set_unfold; destruct_or!; subst; reflexivity.
Qed.

Lemma update_is_q_learning_step_witness :
  ∃ st' c',
    update 0 WarQ [3; 0; 2; 2; 0; 3; 4] attack (-1) [3; 0; 2; 2; 0; 3; 4]
      (sample_state [sample_country "Sofialand" GovRight] 60 0) = (Ok tt, st')
    ∧ countries (world st') !! 0%nat = Some c'
    ∧ QT.read [3; 0; 2; 2; 0; 3; 4] attack (table_of WarQ (agent c'))
      = Some (0 + 0.1 * (-1 + 0.9 * 0 - 0))%Q.
Proof.
  refine (proj1 (update_is_q_learning_step
    (sample_state [sample_country "Sofialand" GovRight] 60 0) 0
    (sample_country "Sofialand" GovRight) WarQ
    [3; 0; 2; 2; 0; 3; 4] [3; 0; 2; 2; 0; 3; 4] attack (-1) 0 0 _ _ _ _ _));
    reflexivity.
Defined.

(** ** The alarm (claim C6) *)

(** C6.  One call of [sound_alarm] returns, changes nothing but the alarm
    level, and never lowers it.  The new level is the ordinal of the
    first threshold, in the order 30, 50, 70, that the global pollution
    exceeds and whose ordinal is above the current level; when there is
    no such threshold the level stays as it is.  Later thresholds are not
    looked at once one has raised the level. *)
Theorem sound_alarm_raises_to_first_exceeded (s : State) :
  let e := ecosystem (world s) in
  ∃ level,
    sound_alarm s
    = (Ok tt, {| world := set_ecosystem (set_alarm_level level e) (world s); rng := rng s |})
    ∧ alarm_level e ≤ level
    ∧ (∀ i t,
         (i, t) ∈ thresholds →
         (t < global_pollution e)%Q → alarm_level e < i →
         (∀ j t', (j, t') ∈ thresholds → j < i →
                  ¬ ((t' < global_pollution e)%Q ∧ alarm_level e < j)) →
         level = i)
    ∧ ((∀ i t, (i, t) ∈ thresholds →
               ¬ ((t < global_pollution e)%Q ∧ alarm_level e < i)) →
       level = alarm_level e)
    ∧ thresholds = [(1, 30%Q); (2, 50%Q); (3, 70%Q)].
Proof.
  intros e.
  assert (∀ t i, Py.gtb (global_pollution e) t && (alarm_level e <? i) = true
                 ↔ (t < global_pollution e)%Q ∧ alarm_level e < i) as Htest.
  { intros t i. rewrite andb_true_iff, gtb_gt, Z.ltb_lt. reflexivity. }
  unfold sound_alarm, try_except, thresholds. simpl sound_alarm_loop.
  rewrite !bind_get_eco. fold e.
  destruct (Py.gtb (global_pollution e) 30 && (alarm_level e <? 1)) eqn:T1;
    [|rewrite bind_get_eco; fold e;
      destruct (Py.gtb (global_pollution e) 50 && (alarm_level e <? 2)) eqn:T2;
      [|rewrite bind_get_eco; fold e;
        destruct (Py.gtb (global_pollution e) 70 && (alarm_level e <? 3)) eqn:T3]].
  all: try apply Htest in T1; try apply Htest in T2; try apply Htest in T3.
  all: try (apply not_true_iff_false in T1; rewrite Htest in T1).
  all: try (apply not_true_iff_false in T2; rewrite Htest in T2).
  all: try (apply not_true_iff_false in T3; rewrite Htest in T3).
  - exists 1. split; [reflexivity|]. split; [lia|]. split; [|split; [|reflexivity]].
    + intros i t Hin Ht Hi Hfirst. set_unfold.
      destruct_or!; destruct_and?; simplify_eq; [done| |];
        exfalso; apply (Hfirst 1 30%Q); auto; lia.
    + intros Hnone. exfalso. apply (Hnone 1 30%Q); [repeat constructor | done].
  - exists 2. split; [reflexivity|]. split; [lia|]. split; [|split; [|reflexivity]].
    + intros i t Hin Ht Hi Hfirst. set_unfold.
      destruct_or!; destruct_and?; simplify_eq; [tauto|done|].
      exfalso; apply (Hfirst 2 50%Q); auto; lia.
    + intros Hnone. exfalso. apply (Hnone 2 50%Q); [repeat constructor | done].
  - exists 3. split; [reflexivity|]. split; [lia|]. split; [|split; [|reflexivity]].
    + intros i t Hin Ht Hi Hfirst. set_unfold.
      destruct_or!; destruct_and?; simplify_eq; [tauto|tauto|done].
    + intros Hnone. exfalso. apply (Hnone 3 70%Q); [repeat constructor | done].
  - exists (alarm_level e). split.
    { subst e. destruct s as [[cs ge gd [gp rp eh al]] r]. reflexivity. }
    split; [lia|]. split; [|split; [done|reflexivity]].
    intros i t Hin Ht Hi Hfirst. set_unfold.
    destruct_or!; destruct_and?; simplify_eq; tauto.
Qed.

(** With global pollution 80 and alarm level 0 all three thresholds are
    exceeded; one call raises the level to 1, the next to 2, the third
    to 3. *)
Example sound_alarm_one_level_per_call :
  let s0 := {| world := set_ecosystem
                          (set_global_pollution 80 (ecosystem (sample_world [] 60)))
                          (sample_world [] 60);
               rng := constant_source 0 |} in
  let s1 := snd (sound_alarm s0) in
  let s2 := snd (sound_alarm s1) in
  let s3 := snd (sound_alarm s2) in
  alarm_level (ecosystem (world s1)) = 1
  ∧ alarm_level (ecosystem (world s2)) = 2
  ∧ alarm_level (ecosystem (world s3)) = 3
  ∧ alarm_level (ecosystem (world (snd (sound_alarm s3)))) = 3.
Proof. repeat split; reflexivity. Qed.

(** ** The severity of a disaster (claim C8) *)

Lemma alter_country_at (f : Country → Country) (s : State) i c :
  countries (world s) !! i = Some c →
  alter f i (countries (world s)) !! i = Some (f c).
Proof. intros H. by rewrite list_lookup_alter_eq, H. Qed.



(** ** Trade while the ecosystem is degraded (claim C10) *)

(** C10.  A call of [trade_resources] returns at once and leaves the whole
    state as it is (both countries, the ecosystem, the random source)
    when the partner is the country itself or the ecosystem health is
    below 30. *)
Theorem trade_disabled_when_degraded (s : State) (self partner : nat) :
  partner = self ∨ (ecosystem_health (ecosystem (world s)) < 30)%Q →
  trade_resources self partner s = (Ok tt, s).
Proof.
  intros H. unfold trade_resources, try_except. rewrite bind_get_eco.
  assert (bool_decide (partner = self) || Py.ltb (ecosystem_health (ecosystem (world s))) 30
          = true) as ->; [|reflexivity].
  apply orb_true_iff. destruct H as [H|H]; [left | right].
  - by apply bool_decide_eq_true.
  - by apply ltb_lt.
Qed.

Lemma trade_disabled_when_degraded_witness :
  trade_resources 0 1
    (sample_state [sample_country "Sofialand" GovRight; sample_country "Jimenara" GovLeft] 29 0)
  = (Ok tt,
     sample_state [sample_country "Sofialand" GovRight; sample_country "Jimenara" GovLeft] 29 0).
Proof.
  apply trade_disabled_when_degraded. right. reflexivity.
Defined.

(** ** The guard on the year (claims C3 and C1) *)

Global Instance same_years_done_frame : Frame same_years_done.
Proof.
  split; unfold same_years_done.
  - done.
  - intros s1 s2 s3 H1 H2. by rewrite H2.
  - done.
Qed.

Ltac head_of t :=
  lazymatch t with
  | ?f _ => head_of f
  | _ => t
  end.

(** Assignments to countries, to the ecosystem and to the event flags do
    not touch the flags of the years; a method is opened. *)
Ltac years_done_prim :=
  idtac;
  lazymatch goal with
  | |- lifts _ (upd_country _ _) => intros ?; reflexivity
  | |- lifts _ (upd_eco _) => intros ?; reflexivity
  | |- lifts _ (upd_world (fun w => set_global_events _ w)) => intros ?; reflexivity
  | |- lifts _ (sound_alarm_loop _) => apply lifts_sound_alarm_loop
  | |- lifts _ ?m => let h := head_of m in unfold h
  end.

Lemma fire_global_events_keeps_years_done : lifts same_years_done fire_global_events.
Proof. lifts_go years_done_prim. Qed.

Lemma events_done_run yr s :
  events_done yr s
  = (match global_events_done (world s) !! yr with
     | Some b => Ok b
     | None => Raised
     end, s).
Proof.
  unfold events_done. rewrite bind_get_world. unfold of_option.
  by destruct (global_events_done (world s) !! yr).
Qed.

(** Once the year is marked, or when it is no key of the dict, a call of
    [simulate_global_events] does nothing. *)
Lemma simulate_global_events_guarded yr s :
  global_events_done (world s) !! yr ≠ Some false →
  simulate_global_events yr s = (Ok tt, s).
Proof.
  intros H. unfold simulate_global_events, try_except, bind.
  rewrite events_done_run.
  destruct (global_events_done (world s) !! yr) as [[|]|]; done.
Qed.

(** [simulate_war] reads the same flag. *)
Lemma simulate_war_guarded yr s :
  global_events_done (world s) !! yr ≠ Some false →
  simulate_war yr s = (Ok tt, s).
Proof.
  intros H. unfold simulate_war, try_except, bind.
  rewrite events_done_run.
  destruct (global_events_done (world s) !! yr) as [[|]|]; done.
Qed.

(** After [simulate_global_events(year)] the flag of the year is never
    [False]. *)
Lemma year_marked_after_events yr s :
  global_events_done (world (snd (simulate_global_events yr s))) !! yr ≠ Some false.
Proof.
  destruct (decide (global_events_done (world s) !! yr = Some false)) as [E|E].
  - unfold simulate_global_events, try_except, bind.
    rewrite events_done_run, E.
    pose proof (fire_global_events_keeps_years_done
      (upd_world (fun w => set_global_events_done (<[yr := true]> (global_events_done w)) w) s).2)
      as Hk.
    unfold same_years_done in Hk. simpl in Hk |- *.
    destruct (fire_global_events _) as [[[]|] s']; simpl in *;
      rewrite Hk, lookup_insert_eq; done.
  - by rewrite simulate_global_events_guarded.
Qed.


(** In [simulate_world], [simulate_war(year)] comes after
    [simulate_global_events(year)] and so always finds the guard closed. *)
Lemma simulate_war_skipped_after_events (yr : Z) (s : State) :
  let s1 := snd (simulate_global_events yr s) in
  simulate_war yr s1 = (Ok tt, s1).
Proof. intros s1. apply simulate_war_guarded, year_marked_after_events. Qed.

(** C1, on the code.  In year 1 of [simulate_world] on [hostile_state],
    after the global events there is a pair with tension above 70, and the
    body of the war resolution would make the attacker fight and lose
    population; but [simulate_war(1)] returns with the state unchanged.
    This holds for every state and year: the guard of [simulate_war]
    reads the flag that [simulate_global_events] has just set. *)
Theorem war_resolution_never_runs :
  (let s1 := snd (simulate_global_events 1 hostile_state) in
   potential_wars (world s1) = [(0, 1)%nat]
   ∧ population <$> countries (world s1) !! 0%nat = Some 20000000
   ∧ population <$> countries (world (snd (wage_wars s1))) !! 0%nat = Some 19000000
   ∧ simulate_war 1 s1 = (Ok tt, s1))
  ∧ (∀ (yr : Z) (s : State),
       simulate_war yr (snd (simulate_global_events yr s))
       = (Ok tt, snd (simulate_global_events yr s))).
Proof.
  split.
  - split; [vm_compute; reflexivity|].
    split; [vm_compute; reflexivity|].
    split; [vm_compute; reflexivity|].
    apply simulate_war_skipped_after_events.
  - intros yr s. apply simulate_war_skipped_after_events.
Qed.

(** ** Trade (claim C7) *)

Lemma res_get_set (X Y : Resource) (v : Z) (r : Resources) :
  res_get Y (res_set X v r) = if decide (X = Y) then v else res_get Y r.
Proof. by destruct X, Y. Qed.

Global Instance conserves_frame i j : Frame (conserves i j).
Proof.
  split; unfold conserves.
  - done.
  - intros s1 s2 s3 H1 H2 Hi Hj.
    destruct (H1 Hi Hj) as [L1 E1].
    destruct H2 as [L2 E2].
    { apply lookup_lt_is_Some. rewrite L1. by apply lookup_lt_is_Some. }
    { apply lookup_lt_is_Some. rewrite L1. by apply lookup_lt_is_Some. }
    split; [congruence|]. intros Y. by rewrite E2, E1.
  - done.
Qed.

Lemma holding_upd_country Y k i (f : Country → Country) s :
  (∀ c, resources (f c) = resources c) →
  holding Y k {| world := set_countries (alter f i (countries (world s))) (world s);
                 rng := rng s |}
  = holding Y k s.
Proof.
  intros Hf. unfold holding. simpl.
  destruct (decide (i = k)) as [->|Hne].
  - rewrite list_lookup_alter_eq. destruct (countries (world s) !! k); simpl; [|done].
    by rewrite Hf.
  - by rewrite list_lookup_alter_ne.
Qed.

Lemma conserves_upd_country i j k (f : Country → Country) :
  (∀ c, resources (f c) = resources c) → lifts (conserves i j) (upd_country k f).
Proof.
  intros Hf s _ _. split; simpl.
  - apply length_alter.
  - intros Y. by rewrite !(holding_upd_country _ _ _ _ s Hf).
Qed.

Lemma conserves_upd_world i j (f : World → World) :
  (∀ w, countries (f w) = countries w) → lifts (conserves i j) (upd_world f).
Proof.
  intros Hf s _ _. unfold holding. simpl. by rewrite Hf.
Qed.

Lemma conserves_upd_eco i j (f : Ecosystem → Ecosystem) : lifts (conserves i j) (upd_eco f).
Proof. by apply conserves_upd_world. Qed.

Lemma transferred_holdings self partner X amount s cs cp :
  self ≠ partner →
  countries (world s) !! self = Some cs →
  countries (world s) !! partner = Some cp →
  ∀ Y,
    holding Y self (transferred self partner X amount s)
    = (if decide (X = Y) then res_get Y (resources cs) + amount else res_get Y (resources cs))
    ∧ holding Y partner (transferred self partner X amount s)
      = (if decide (X = Y) then res_get Y (resources cp) - amount else res_get Y (resources cp)).
Proof.
  intros Hne Hs Hp Y. unfold holding, transferred. simpl.
  rewrite list_lookup_alter_ne, list_lookup_alter_eq, Hs by done.
  rewrite list_lookup_alter_eq, list_lookup_alter_ne, Hp by done. simpl.
  rewrite !res_get_set. split; case_decide; subst; done.
Qed.

Ltac conserves_prim :=
  idtac;
  lazymatch goal with
  | |- lifts _ (upd_country _ _) => apply conserves_upd_country; intros; reflexivity
  | |- lifts _ (upd_eco _) => apply conserves_upd_eco
  | |- lifts _ ?m => let h := head_of m in unfold h
  end.

(** What follows the transfer in an accepted trade moves no resource. *)
Lemma after_transfer_conserves i j self partner (X : Resource) (amount : Z) :
  lifts (conserves i j)
    (_ <- upd_country self (fun c => set_money (money c - amount * 1000) c) ;
     _ <- upd_country partner (fun c => set_money (money c + amount * 1000) c) ;
     _ <- upd_country self (fun c => set_pollution (pollution c + trade_pollution X)%Q c) ;
     _ <- regional_pollution_of_country_add self (trade_pollution X) ;
     _ <- update_tension self partner (-5) ;
     update_tension partner self (-5)).
Proof. lifts_go conserves_prim. Qed.

Lemma accepted_trade_split self partner X amount s :
  snd (accepted_trade self partner X amount s)
  = snd ((_ <- upd_country self (fun c => set_money (money c - amount * 1000) c) ;
          _ <- upd_country partner (fun c => set_money (money c + amount * 1000) c) ;
          _ <- upd_country self (fun c => set_pollution (pollution c + trade_pollution X)%Q c) ;
          _ <- regional_pollution_of_country_add self (trade_pollution X) ;
          _ <- update_tension self partner (-5) ;
          update_tension partner self (-5)) (transferred self partner X amount s)).
Proof. reflexivity. Qed.

Lemma accepted_trade_conserves self partner X amount :
  self ≠ partner → lifts (conserves self partner) (accepted_trade self partner X amount).
Proof.
  intros Hne s. rewrite accepted_trade_split.
  eapply frame_trans; [|apply after_transfer_conserves].
  intros [cs Hs] [cp Hp]. split.
  - unfold transferred. simpl. by rewrite !length_alter.
  - intros Y. unfold holding at 3 4. rewrite Hs, Hp. simpl.
    destruct (transferred_holdings self partner X amount s cs cp Hne Hs Hp Y) as [-> ->].
    case_decide; lia.
Qed.

Ltac trade_prim :=
  idtac;
  lazymatch goal with
  | |- lifts _ (accepted_trade _ _ _ _) => apply accepted_trade_conserves; assumption
  | |- _ => conserves_prim
  end.

Lemma trade_resources_conserves self partner :
  self ≠ partner → lifts (conserves self partner) (trade_resources self partner).
Proof. intros Hne. unfold trade_resources. lifts_go trade_prim. Qed.

(** C7.  For two distinct countries: the statements of an accepted trade
    of amount [A] of resource [X] add [A] to what the caller holds of [X]
    and take [A] from what the partner holds, so the two holdings add up
    to the same amount; and after any call of [trade_resources], whatever
    branch it takes, the holdings of the two countries add up to the same
    amount for every resource. *)
Theorem trade_conserves_resource
    (s : State) (self partner : nat) (cs cp : Country) :
  self ≠ partner →
  countries (world s) !! self = Some cs →
  countries (world s) !! partner = Some cp →
  (∀ (X : Resource) (A : Z),
     let s' := snd (accepted_trade self partner X A s) in
     holding X self s' = res_get X (resources cs) + A
     ∧ holding X partner s' = res_get X (resources cp) - A
     ∧ holding X self s' + holding X partner s'
       = res_get X (resources cs) + res_get X (resources cp))
  ∧ (let s' := snd (trade_resources self partner s) in
     ∃ cs' cp',
       countries (world s') !! self = Some cs'
       ∧ countries (world s') !! partner = Some cp'
       ∧ ∀ Y, res_get Y (resources cs') + res_get Y (resources cp')
              = res_get Y (resources cs) + res_get Y (resources cp)).
Proof.
  intros Hne Hs Hp. split.
  - intros X A s'.
    destruct (transferred_holdings self partner X A s cs cp Hne Hs Hp X) as [E1 E2].
    rewrite decide_True in E1, E2 by done.
    assert (is_Some (countries (world (transferred self partner X A s)) !! self)) as Is.
    { apply lookup_lt_is_Some. unfold transferred. simpl. rewrite !length_alter.
      by eapply lookup_lt_Some. }
    assert (is_Some (countries (world (transferred self partner X A s)) !! partner)) as Ip.
    { apply lookup_lt_is_Some. unfold transferred. simpl. rewrite !length_alter.
      by eapply lookup_lt_Some. }
    destruct (after_transfer_conserves self self self partner X A
                (transferred self partner X A s) Is Is) as [_ H1].
    destruct (after_transfer_conserves partner partner self partner X A
                (transferred self partner X A s) Ip Ip) as [_ H2].
    specialize (H1 X). specialize (H2 X).
    subst s'. rewrite accepted_trade_split. lia.
  - intros s'.
    destruct (trade_resources_conserves self partner Hne s) as [L E]; [by eexists..|].
    fold s' in L, E.
    destruct (lookup_lt_is_Some_2 (countries (world s')) self) as [cs' Hs'].
    { rewrite L. by eapply lookup_lt_Some. }
    destruct (lookup_lt_is_Some_2 (countries (world s')) partner) as [cp' Hp'].
    { rewrite L. by eapply lookup_lt_Some. }
    exists cs', cp'. split; [done|]. split; [done|].
    intros Y. specialize (E Y). unfold holding in E.
    rewrite Hs, Hp, Hs', Hp' in E. exact E.
Qed.

Lemma trade_conserves_resource_witness :
  let s := sample_state trading_pair 60 (2 ^ 52) in
  let s' := snd (trade_resources 0 1 s) in
  holding oil 0 s = 10 ∧ holding oil 1 s = 100
  ∧ holding oil 0 s' = 15 ∧ holding oil 1 s' = 95
  ∧ ∃ cs' cp',
      countries (world s') !! 0%nat = Some cs'
      ∧ countries (world s') !! 1%nat = Some cp'
      ∧ ∀ Y, res_get Y (resources cs') + res_get Y (resources cp')
             = res_get Y (resources (set_resources
                   {| r_oil := 10; r_coal := 100; r_gas := 100; r_forest := 100 |}
                   (sample_country "Sofialand" GovRight)))
               + res_get Y (resources (sample_country "Jimenara" GovLeft)).
Proof.
  intros s s'.
  split; [reflexivity|]. split; [reflexivity|].
  split; [vm_compute; reflexivity|]. split; [vm_compute; reflexivity|].
  refine (proj2 (trade_conserves_resource s 0 1 _ _ _ _ _)).
  - discriminate.
  - reflexivity.
  - reflexivity.
Defined.

(** ** What a computation leaves alone *)

Global Instance keeps_frame {X} (π : World → X) : Frame (keeps π).
Proof.
  split; unfold keeps.
  - done.
  - intros s1 s2 s3 H1 H2. by rewrite H2.
  - done.
Qed.

Lemma keeps_upd_world {X} (π : World → X) (f : World → World) :
  (∀ w, π (f w) = π w) → lifts (keeps π) (upd_world f).
Proof. intros H s. apply H. Qed.

Lemma lookup_alter_proj {X} (g : Country → X) (f : Country → Country) i k (cs : list Country) :
  (∀ c, g (f c) = g c) → g <$> alter f i cs !! k = g <$> cs !! k.
Proof.
  intros H. destruct (decide (i = k)) as [->|Hne].
  - rewrite list_lookup_alter_eq. destruct (cs !! k); simpl; [|done]. by rewrite H.
  - by rewrite list_lookup_alter_ne.
Qed.

Lemma fmap_alter_proj {X} (g : Country → X) (f : Country → Country) i (cs : list Country) :
  (∀ c, g (f c) = g c) → g <$> alter f i cs = g <$> cs.
Proof.
  intros H. apply list_eq. intros k. rewrite !list_lookup_fmap. by apply lookup_alter_proj.
Qed.

(** The state in which [bind m k] ends is related to the state in which
    [m] ends. *)
Lemma lifts_after (R : State → State → Prop) `{!Frame R} {A B} (m : M A) (k : A → M B) :
  (∀ a, lifts R (k a)) → ∀ s, R (snd (m s)) (snd (bind m k s)).
Proof.
  intros Hk s. unfold bind. destruct (m s) as [[a|] s1]; simpl.
  - apply Hk.
  - apply frame_refl.
Qed.

Lemma try_except_ret_snd {A} (body : M A) (a : A) s :
  snd (try_except body (ret a) s) = snd (body s).
Proof. unfold try_except. by destruct (body s) as [[?|] ?]. Qed.

Lemma bind_assoc {A B C} (m : M A) (k : A → M B) (k' : B → M C) s :
  bind (bind m k) k' s = bind m (fun a => bind (k a) k') s.
Proof. unfold bind. by destruct (m s) as [[?|] ?]. Qed.




Ltac pollution_prim :=
  idtac;
  lazymatch goal with
  | |- lifts _ (upd_country _ _) =>
      apply keeps_upd_world; intros ?; unfold pollution_at; simpl;
      apply lookup_alter_proj; intros ?; reflexivity
  | |- lifts _ (upd_eco _) => apply keeps_upd_world; intros ?; reflexivity
  | |- lifts _ ?m => let h := head_of m in unfold h
  end.


Lemma update_keeps_pollution i k tid st a r st' :
  lifts (keeps (pollution_at k)) (update i tid st a r st').
Proof. lifts_go pollution_prim. Qed.

Lemma get_state_keeps_pollution i k t : lifts (keeps (pollution_at k)) (get_state i t).
Proof. lifts_go pollution_prim. Qed.

(** ** An investment in the environment (claim C9) *)






(** ** The pollution update (claim C5) *)

Section Sums.

Local Open Scope Q_scope.






(** On a float that is not negative, [int] is the floor. *)
Lemma int_is_floor (x : Q) : 0 <= x → Py.int x = Qfloor x.
Proof.
  destruct x as [n d]. unfold Qle, Py.int, Qfloor. simpl. intros H.
  apply Z.quot_div_nonneg; lia.
Qed.


End Sums.

Lemma with_countries_id s : with_countries (countries (world s)) s = s.
Proof. by destruct s as [[] ?]. Qed.


Lemma regional_of_ext (cs1 cs2 : list Country) i c1 c2 :
  pollution <$> cs1 = pollution <$> cs2 → pollution c1 = pollution c2 →
  regional_of cs1 i c1 = regional_of cs2 i c2.
Proof.
  intros Hcs Hc. unfold regional_of, neighbors. rewrite Hc. f_equal. f_equal.
  change (map (fun c => pollution c * 0.1)%Q (delete i cs1)
          = map (fun c => pollution c * 0.1)%Q (delete i cs2))
    with ((fun c => pollution c * 0.1)%Q <$> delete i cs1
          = (fun c => pollution c * 0.1)%Q <$> delete i cs2).
  rewrite !(list_fmap_compose pollution (fun p => p * 0.1)%Q), !list_fmap_delete.
  by rewrite Hcs.
Qed.

Lemma after_step_pollution cs i c : pollution (after_step cs i c) = pollution c.
Proof. unfold after_step. by destruct (Py.gtb _ _). Qed.

Lemma after_step_name cs i c : name (after_step cs i c) = name c.
Proof. unfold after_step. by destruct (Py.gtb _ _). Qed.

Lemma penalty_alters (cs : list Country) i c :
  cs !! i = Some c →
  alter (fun c => set_rebellion_risk (rebellion_risk c + 0.05)%Q c) i
    (alter (fun c => set_resources
                       (res_set forest (Z.max 0 (r_forest (resources c) - 10)) (resources c)) c) i
       (alter (fun c => set_happiness (Py.max 0 (happiness c - 5)%Q) c) i cs))
  = <[i := penalised c]> cs.
Proof.
  intros H. apply list_eq. intros j. destruct (decide (i = j)) as [<-|Hne].
  - rewrite !list_lookup_alter_eq, H, list_lookup_insert_eq by (by eapply lookup_lt_Some).
    reflexivity.
  - by rewrite !list_lookup_alter_ne, list_lookup_insert_ne.
Qed.

(** One turn of the loop of [update_pollution]. *)
Lemma regional_step_run acc i s c :
  countries (world s) !! i = Some c →
  regional_step acc i s
  = (Ok (<[name c := regional_of (countries (world s)) i c]> acc),
     with_countries (<[i := after_step (countries (world s)) i c]> (countries (world s))) s).
Proof.
  intros H. unfold regional_step.
  rewrite bind_get_world, (bind_ok _ _ _ _ _ (get_country_ok _ _ _ H)). cbv zeta.
  fold (regional_of (countries (world s)) i c). unfold after_step.
  destruct (Py.gtb (regional_of (countries (world s)) i c) 50).
  - unfold pollution_penalty. rewrite bind_assoc, bind_upd_country, bind_assoc, bind_upd_country.
    rewrite bind_upd_country. unfold ret, with_countries. simpl.
    rewrite <- (penalty_alters _ _ _ H). reflexivity.
  - rewrite bind_ret. unfold ret. by rewrite list_insert_id, with_countries_id.
Qed.

(** The loop of [update_pollution] over the positions [k .. k + m - 1],
    started in a state whose countries have the pollutions and the names
    of [cs]. *)
Lemma pollution_loop (cs : list Country) (m : nat) :
  ∀ (k : nat) (acc : gmap string Q) (s : State),
    pollution <$> countries (world s) = pollution <$> cs →
    name <$> countries (world s) = name <$> cs →
    (k + m ≤ length cs)%nat →
    ∃ cs',
      for_fold (seq k m) acc regional_step s
      = (Ok (fold_left (record_regional cs) (seq k m) acc), with_countries cs' s)
      ∧ pollution <$> cs' = pollution <$> cs
      ∧ name <$> cs' = name <$> cs
      ∧ ∀ i, cs' !! i
             = if bool_decide (k ≤ i < k + m)%nat
               then after_step cs i <$> countries (world s) !! i
               else countries (world s) !! i.
Proof.
  induction m as [|m IH]; intros k acc s Hp Hn Hlen.
  - exists (countries (world s)). simpl. unfold ret. rewrite with_countries_id.
    split; [done|]. split; [done|]. split; [done|].
    intros i. rewrite bool_decide_eq_false_2; [done | lia].
  - assert (length (countries (world s)) = length cs) as Hl
      by (rewrite <- (length_fmap pollution), Hp; apply length_fmap).
    destruct (lookup_lt_is_Some_2 (countries (world s)) k) as [c Hc]; [lia|].
    destruct (lookup_lt_is_Some_2 cs k) as [c0 Hc0]; [lia|].
    assert (pollution c = pollution c0) as Hpc.
    { apply (f_equal (fun l => l !! k)) in Hp. rewrite !list_lookup_fmap, Hc, Hc0 in Hp.
      simpl in Hp. congruence. }
    assert (name c = name c0) as Hnc.
    { apply (f_equal (fun l => l !! k)) in Hn. rewrite !list_lookup_fmap, Hc, Hc0 in Hn.
      simpl in Hn. congruence. }
    assert (regional_of (countries (world s)) k c = regional_of cs k c0) as Hr
      by (by apply regional_of_ext).
    assert (after_step (countries (world s)) k c = after_step cs k c) as Ha.
    { unfold after_step. by rewrite (regional_of_ext _ cs k c c Hp). }
    simpl seq. simpl for_fold. simpl fold_left.
    rewrite (bind_ok _ _ _ _ _ (regional_step_run acc k s c Hc)), Hr, Ha, Hnc.
    set (s1 := with_countries (<[k := after_step cs k c]> (countries (world s))) s).
    destruct (IH (S k) (<[name c0 := regional_of cs k c0]> acc) s1) as (cs' & Hrun & Hp' & Hn' & Hl').
    { subst s1. simpl. rewrite list_fmap_insert, after_step_pollution, list_insert_id; [done|].
      by rewrite list_lookup_fmap, Hc. }
    { subst s1. simpl. rewrite list_fmap_insert, after_step_name, list_insert_id; [done|].
      by rewrite list_lookup_fmap, Hc. }
    { lia. }
    exists cs'. split.
    { rewrite Hrun.
      assert (record_regional cs acc k = <[name c0 := regional_of cs k c0]> acc) as ->
        by (unfold record_regional; by rewrite Hc0).
      reflexivity. }
    split; [done|]. split; [done|].
    intros i. rewrite Hl'. subst s1. simpl.
    destruct (decide (i = k)) as [->|Hne].
    + rewrite bool_decide_eq_false_2 by lia. rewrite bool_decide_eq_true_2 by lia.
      rewrite list_lookup_insert_eq by (by eapply lookup_lt_Some). by rewrite Hc.
    + rewrite list_lookup_insert_ne by done.
      destruct (decide (S k ≤ i < S k + m)%nat).
      * rewrite !bool_decide_eq_true_2 by lia. done.
      * rewrite !bool_decide_eq_false_2 by lia. done.
Qed.




(** ** The bounds (claim C2) *)

Global Instance bounded_frame : Frame bounded.
Proof.
  split; unfold bounded.
  - intros s. split; [done | lia].
  - intros s1 s2 s3 [H1 A1] [H2 A2]. split; [auto | lia].
  - intros s r. simpl. split; [done | lia].
Qed.

Lemma bounded_upd_country i (f : Country → Country) :
  (∀ c, country_ok c → country_ok (f c)) → lifts bounded (upd_country i f).
Proof.
  intros Hf s. split; simpl; [|lia].
  intros [Hcs He]. split; [|done]. simpl.
  apply Forall_lookup. intros j c Hj.
  destruct (decide (i = j)) as [->|Hne].
  - rewrite list_lookup_alter_eq in Hj.
    destruct (countries (world s) !! j) as [c0|] eqn:E; [|done].
    injection Hj as <-. apply Hf. by eapply (Forall_lookup_1 _ _ _ _ Hcs).
  - rewrite list_lookup_alter_ne in Hj by done.
    by eapply (Forall_lookup_1 _ _ _ _ Hcs).
Qed.

Lemma bounded_upd_eco (f : Ecosystem → Ecosystem) :
  (∀ e, ecosystem_ok e → ecosystem_ok (f e)) →
  (∀ e, alarm_level e ≤ alarm_level (f e)) →
  lifts bounded (upd_eco f).
Proof.
  intros Hf Ha s. split; simpl; [|apply Ha].
  intros [Hcs He]. split; [done|]. by apply Hf.
Qed.

Lemma bounded_upd_world (f : World → World) :
  (∀ w, countries (f w) = countries w) →
  (∀ w, ecosystem (f w) = ecosystem w) →
  lifts bounded (upd_world f).
Proof.
  intros Hc He s. unfold bounded, world_ok. simpl. rewrite Hc, He. split; [done | lia].
Qed.

Lemma tension_insert_ok (d : gmap string Z) (k : string) (v : Z) :
  (∀ nm t, d !! nm = Some t → 0 ≤ t ≤ 100) →
  0 ≤ v ≤ 100 →
  ∀ nm t, <[k := v]> d !! nm = Some t → 0 ≤ t ≤ 100.
Proof.
  intros Hd Hv nm t. rewrite lookup_insert. case_decide.
  - intros [= <-]. done.
  - apply Hd.
Qed.

Ltac unfold_setters :=
  unfold set_population, set_resources, set_natural_disaster_risk, set_government,
    set_ideology_score, set_money, set_military_power, set_happiness, set_tech_level,
    set_pollution, set_production, set_investments, set_infrastructure_level,
    set_rebellion_risk, set_year, set_has_rebelled_this_year, set_tension_score,
    set_diplomatic_relations, set_environment_agreement, set_agent,
    set_global_pollution, set_regional_pollution, set_ecosystem_health, set_alarm_level;
  cbn [happiness rebellion_risk tension_score ecosystem_health alarm_level].

(** The multipliers are positive whatever they are computed from. *)
Ltac pose_positive :=
  repeat match goal with
    | |- context [severity_multiplier ?x] =>
        lazymatch goal with
        | _ : (0 < severity_multiplier x)%Q |- _ => fail
        | _ => pose proof (severity_multiplier_pos x)
        end
    | |- context [investment_efficiency ?x ?y] =>
        lazymatch goal with
        | _ : (0 < investment_efficiency x y)%Q |- _ => fail
        | _ => pose proof (investment_efficiency_pos x y)
        end
    end.

(** [inject_Z] of a literal, as a fraction. *)
Ltac eval_inject_Z :=
  repeat match goal with
    | |- context [inject_Z ?z] =>
        let v := eval vm_compute in (inject_Z z) in change (inject_Z z) with v
    | H : context [inject_Z ?z] |- _ =>
        let v := eval vm_compute in (inject_Z z) in change (inject_Z z) with v in H
    end.

Ltac solve_country_ok :=
  let c := fresh "c" in
  let Hlo := fresh "Hlo" in
  let Hhi := fresh "Hhi" in
  let Hreb := fresh "Hreb" in
  let Hten := fresh "Hten" in
  intros c [Hlo Hhi Hreb Hten];
  pose_positive;
  split; unfold_setters; try assumption;
  try (apply (tension_insert_ok _ _ _ Hten); lia);
  repeat case_decide; repeat case_bool_decide;
  py_cases; eval_inject_Z; lra.

Ltac solve_ecosystem_ok :=
  let e := fresh "e" in
  let Hlo := fresh "Hlo" in
  let Hhi := fresh "Hhi" in
  let Hal := fresh "Hal" in
  first
    [ intros e [Hlo Hhi Hal];
      pose_positive;
      split; unfold_setters; try assumption;
      repeat case_decide; repeat case_bool_decide;
      py_cases; lra
    | intros e; unfold_setters; lia ].

Lemma bounded_alarm_check i t :
  (i, t) ∈ thresholds →
  lifts bounded
    (e <- get_eco ;
     if Py.gtb (global_pollution e) t && (alarm_level e <? i)
     then upd_eco (set_alarm_level i) else ret tt).
Proof.
  intros Hin s. rewrite bind_get_eco.
  destruct (Py.gtb _ _ && _) eqn:E; [|apply frame_refl].
  apply andb_true_iff in E as [_ E]. apply Z.ltb_lt in E.
  assert (1 ≤ i ≤ 3) as Hi.
  { unfold thresholds in Hin. set_unfold. destruct_or!; destruct_and?; simplify_eq; lia. }
  split; simpl; [|lia].
  intros [Hcs [Hlo Hhi Hal]]. split; [done|]. split; simpl; [done | done | lia].
Qed.

Lemma bounded_sound_alarm : lifts bounded sound_alarm.
Proof.
  unfold sound_alarm. apply lifts_try_except; [exact _| |apply lifts_ret; exact _].
  apply lifts_sound_alarm_loop; [exact _|]. intros i t Hin. by apply bounded_alarm_check.
Qed.

Lemma randint_range (a b : Z) s n :
  a ≤ b → fst (lift_rand (Rand.randint a b) s) = Ok n → a ≤ n ≤ b.
Proof.
  intros Hab. unfold lift_rand, Rand.randint, Rand.next. simpl. intros [= <-].
  pose proof (Z.mod_pos_bound (Z.of_N (draws (rng s) (cursor (rng s)))) (b - a + 1)).
  lia.
Qed.

Ltac bounded_prim :=
  idtac;
  lazymatch goal with
  | |- lifts _ sound_alarm => apply bounded_sound_alarm
  | |- lifts _ (upd_country _ _) => apply bounded_upd_country; solve_country_ok
  | |- lifts _ (upd_eco _) => apply bounded_upd_eco; solve_ecosystem_ok
  | |- lifts _ (upd_world _) => apply bounded_upd_world; intros ?; reflexivity
  | |- lifts _ ?m => let h := head_of m in unfold h
  end.

Lemma bounded_update_pollution : lifts bounded update_pollution.
Proof. lifts_go bounded_prim. Qed.

Lemma bounded_trigger_disasters : lifts bounded trigger_disasters.
Proof. lifts_go bounded_prim. Qed.

Lemma bounded_update_tension i j change : lifts bounded (update_tension i j change).
Proof. lifts_go bounded_prim. Qed.

Lemma bounded_rebellion i : lifts bounded (rebellion i).
Proof.
  unfold rebellion. apply lifts_try_except; [exact _ | | apply lifts_ret; exact _].
  do 3 (apply lifts_bind; [exact _ | bounded_prim | intros _]).
  apply lifts_bind; [exact _ | apply lifts_lift_rand; exact _ | intros u].
  destruct (Py.ltb u 0.25).
  - lifts_go bounded_prim.
  - apply (lifts_bind_post bounded (fun n => 30 ≤ n ≤ 40)).
    + apply lifts_lift_rand. exact _.
    + intros s n. by apply randint_range.
    + intros n Hn. apply bounded_upd_country.
      intros c [Hlo Hhi Hreb Hten]. split; unfold_setters; try assumption.
      * change 0%Q with (inject_Z 0). rewrite <- Zle_Qle. lia.
      * change 100%Q with (inject_Z 100). rewrite <- Zle_Qle. lia.
Qed.

Ltac bounded_ops :=
  idtac;
  lazymatch goal with
  | |- lifts _ (rebellion _) => apply bounded_rebellion
  | |- lifts _ update_pollution => apply bounded_update_pollution
  | |- lifts _ trigger_disasters => apply bounded_trigger_disasters
  | |- lifts _ (update_tension _ _ _) => apply bounded_update_tension
  | |- _ => bounded_prim
  end.

Lemma bounded_fire_global_events : lifts bounded fire_global_events.
Proof. lifts_go bounded_ops. Qed.

Lemma bounded_simulate_global_events yr : lifts bounded (simulate_global_events yr).
Proof.
  unfold simulate_global_events.
  lifts_go ltac:(idtac; first [apply bounded_fire_global_events | bounded_ops]).
Qed.

Lemma bounded_update i tid st a r st' : lifts bounded (update i tid st a r st').
Proof. lifts_go bounded_ops. Qed.

Lemma bounded_get_state i t : lifts bounded (get_state i t).
Proof. lifts_go bounded_ops. Qed.

Lemma bounded_choose_action i tid st : lifts bounded (choose_action i tid st).
Proof. lifts_go bounded_ops. Qed.

Ltac bounded_agent :=
  idtac;
  lazymatch goal with
  | |- lifts _ (update _ _ _ _ _ _) => apply bounded_update
  | |- lifts _ (get_state _ _) => apply bounded_get_state
  | |- lifts _ (choose_action _ _ _) => apply bounded_choose_action
  | |- _ => bounded_ops
  end.

Lemma bounded_wage_wars : lifts bounded wage_wars.
Proof. lifts_go bounded_agent. Qed.

Lemma bounded_simulate_war yr : lifts bounded (simulate_war yr).
Proof.
  unfold simulate_war.
  lifts_go ltac:(idtac; first [apply bounded_wage_wars | bounded_agent]).
Qed.

Lemma bounded_join_environment_agreement i : lifts bounded (join_environment_agreement i).
Proof. lifts_go bounded_agent. Qed.

Lemma bounded_trade_resources i j : lifts bounded (trade_resources i j).
Proof. lifts_go bounded_agent. Qed.

Lemma bounded_collect_taxes i : lifts bounded (collect_taxes i).
Proof. lifts_go bounded_agent. Qed.

Lemma bounded_make_investment_decision i : lifts bounded (make_investment_decision i).
Proof. lifts_go bounded_agent. Qed.

Ltac bounded_methods :=
  idtac;
  lazymatch goal with
  | |- lifts _ (join_environment_agreement _) => apply bounded_join_environment_agreement
  | |- lifts _ (trade_resources _ _) => apply bounded_trade_resources
  | |- lifts _ (collect_taxes _) => apply bounded_collect_taxes
  | |- lifts _ (make_investment_decision _) => apply bounded_make_investment_decision
  | |- lifts _ (simulate_global_events _) => apply bounded_simulate_global_events
  | |- lifts _ (simulate_war _) => apply bounded_simulate_war
  | |- _ => bounded_agent
  end.

Lemma bounded_turn_growth i : lifts bounded (turn_growth i).
Proof. lifts_go bounded_methods. Qed.

Lemma bounded_turn_consumption i : lifts bounded (turn_consumption i).
Proof. lifts_go bounded_methods. Qed.

Lemma bounded_turn_scarcity i : lifts bounded (turn_scarcity i).
Proof. lifts_go bounded_methods. Qed.

Lemma bounded_turn_forest i : lifts bounded (turn_forest i).
Proof. lifts_go bounded_methods. Qed.

Lemma bounded_turn_environment i : lifts bounded (turn_environment i).
Proof. lifts_go bounded_methods. Qed.

Lemma bounded_turn_society i : lifts bounded (turn_society i).
Proof. lifts_go bounded_methods. Qed.

Lemma bounded_turn_trade i : lifts bounded (turn_trade i).
Proof. lifts_go bounded_methods. Qed.

Lemma bounded_turn_politics i : lifts bounded (turn_politics i).
Proof. lifts_go bounded_methods. Qed.

Lemma bounded_turn_rebellion i : lifts bounded (turn_rebellion i).
Proof. lifts_go bounded_methods. Qed.

Ltac bounded_turns :=
  idtac;
  lazymatch goal with
  | |- lifts _ (turn_growth _) => apply bounded_turn_growth
  | |- lifts _ (turn_consumption _) => apply bounded_turn_consumption
  | |- lifts _ (turn_scarcity _) => apply bounded_turn_scarcity
  | |- lifts _ (turn_forest _) => apply bounded_turn_forest
  | |- lifts _ (turn_environment _) => apply bounded_turn_environment
  | |- lifts _ (turn_society _) => apply bounded_turn_society
  | |- lifts _ (turn_trade _) => apply bounded_turn_trade
  | |- lifts _ (turn_politics _) => apply bounded_turn_politics
  | |- lifts _ (turn_rebellion _) => apply bounded_turn_rebellion
  | |- _ => bounded_methods
  end.

Lemma bounded_simulate_turn i : lifts bounded (simulate_turn i).
Proof. lifts_go bounded_turns. Qed.

Lemma bounded_simulate_year yr : lifts bounded (simulate_year yr).
Proof.
  unfold simulate_year.
  lifts_go ltac:(idtac; first [apply bounded_simulate_turn | bounded_turns]).
Qed.

Lemma bounded_simulate_world years : lifts bounded (simulate_world years).
Proof.
  unfold simulate_world.
  lifts_go ltac:(idtac; first [apply bounded_simulate_year | bounded_turns]).
Qed.

(** *** The start of an episode *)

Lemma Country_init_ok nm ag r : country_ok (fst (Country_init nm ag r)).
Proof.
  unfold Country_init.
  repeat match goal with
    | |- context [let (_, _) := ?x in _] => destruct x
    end.
  split; simpl; try lra. intros k t. by rewrite lookup_empty.
Qed.

Lemma make_countries_ok agents r : Forall country_ok (fst (make_countries agents r)).
Proof.
  revert r. induction agents as [|[nm ag] agents IH]; intros r; simpl; [constructor|].
  pose proof (Country_init_ok nm ag r) as Hc.
  destruct (Country_init nm ag r) as [c r1]. specialize (IH r1).
  destruct (make_countries agents r1) as [cs r2]. simpl in *. by constructor.
Qed.

Lemma Ecosystem_init_ok cs e : Ecosystem_init cs = Some e → ecosystem_ok e.
Proof.
  unfold Ecosystem_init. destruct (div_len _ _); simpl; [|done].
  intros [= <-]. split; simpl; lra || lia.
Qed.

Lemma bounded_init_tension i j : lifts bounded (init_tension i j).
Proof.
  unfold init_tension. destruct (decide (i ≠ j)) as [Hne|Heq]; [|apply lifts_ret; exact _].
  apply lifts_bind; [exact _ | apply lifts_get_country; exact _ | intros other].
  apply (lifts_bind_post bounded (fun n => 40 ≤ n ≤ 60)).
  - apply lifts_lift_rand. exact _.
  - intros s n. by apply randint_range.
  - intros n Hn. apply lifts_bind; [exact _ | | intros _].
    + apply bounded_upd_country. intros c [Hlo Hhi Hreb Hten].
      split; unfold_setters; try assumption.
      apply (tension_insert_ok _ _ _ Hten). lia.
    + bounded_prim.
Qed.

Lemma bounded_init_tensions : lifts bounded init_tensions.
Proof.
  unfold init_tensions.
  lifts_go ltac:(idtac; first [apply bounded_init_tension | bounded_prim]).
Qed.

Lemma new_episode_ok agents r s : new_episode agents r = Some s → world_ok (world s).
Proof.
  unfold new_episode.
  pose proof (make_countries_ok agents r) as Hcs.
  destruct (make_countries agents r) as [cs r1]. simpl in Hcs.
  destruct (Ecosystem_init cs) as [e|] eqn:He; simpl; [|done].
  match goal with
  | |- context [init_tensions ?s0] => pose proof (bounded_init_tensions s0) as [Hb _]
  end.
  destruct (init_tensions _) as [[[]|] s']; [|done].
  intros [= <-]. apply Hb. split; simpl; [done|]. by eapply Ecosystem_init_ok.
Qed.

(** *** Every operation keeps the bounds *)

Lemma bounded_run op : lifts bounded (run op).
Proof.
  destruct op; simpl;
    lifts_go ltac:(idtac; first
      [ apply bounded_simulate_world | apply bounded_simulate_year
      | apply bounded_fire_global_events | apply bounded_wage_wars
      | apply bounded_simulate_turn | bounded_turns ]).
Qed.

Lemma reachable_ok s : reachable s → world_ok (world s).
Proof.
  induction 1 as [agents r s H | op s _ IH].
  - by eapply new_episode_ok.
  - by apply (bounded_run op s).
Qed.

(** C2.  In every state of an episode, whatever operations have run and
    in whatever order, and whether they returned or raised: the happiness
    of every country is in [[0, 100]], its rebellion risk is not negative,
    and every tension it holds, stored or read with the default 50, is in
    [[0, 100]]; the ecosystem health is in [[0, 100]]; the alarm level is
    0, 1, 2 or 3; and no operation lowers the alarm level. *)
Theorem bounds_hold_in_every_reachable_state (s : State) :
  reachable s →
  (∀ c, c ∈ countries (world s) →
        (0 <= happiness c)%Q ∧ (happiness c <= 100)%Q
        ∧ (0 <= rebellion_risk c)%Q
        ∧ (∀ nm t, tension_score c !! nm = Some t → 0 ≤ t ≤ 100)
        ∧ (∀ other, 0 ≤ tension_with c other ≤ 100))
  ∧ (0 <= ecosystem_health (ecosystem (world s)))%Q
  ∧ (ecosystem_health (ecosystem (world s)) <= 100)%Q
  ∧ alarm_level (ecosystem (world s)) ∈ [0; 1; 2; 3]
  ∧ ∀ op, alarm_level (ecosystem (world s))
          ≤ alarm_level (ecosystem (world (snd (run op s)))).
Proof.
  intros Hs. destruct (reachable_ok s Hs) as [Hcs [Hlo Hhi Hal]].
  split; [|split; [done|split; [done|split]]].
  - intros c Hc. destruct (proj1 (Forall_forall _ _) Hcs c Hc) as [H1 H2 H3 H4].
    repeat split; try done; try (by eapply H4).
    + unfold tension_with. destruct (tension_score c !! name other) eqn:E; simpl; [|lia].
      by eapply H4.
    + unfold tension_with. destruct (tension_score c !! name other) eqn:E; simpl; [|lia].
      by eapply H4.
  - assert (alarm_level (ecosystem (world s)) = 0 ∨ alarm_level (ecosystem (world s)) = 1
            ∨ alarm_level (ecosystem (world s)) = 2 ∨ alarm_level (ecosystem (world s)) = 3)
      as Hcases by lia.
    set_unfold. tauto.
  - intros op. apply (bounded_run op s).
Qed.

Lemma bounds_hold_in_every_reachable_state_witness :
  let s := snd (run (OpSimulateYear 1) episode_start) in
  (0 <= ecosystem_health (ecosystem (world s)))%Q
  ∧ (ecosystem_health (ecosystem (world s)) <= 100)%Q
  ∧ alarm_level (ecosystem (world s)) ∈ [0; 1; 2; 3].
Proof.
  intros s.
  destruct (bounds_hold_in_every_reachable_state s) as (_ & H1 & H2 & H3 & _).
  - apply reachable_step.
    apply (reachable_start [("Sofialand", RLAgent_init); ("Jimenara", RLAgent_init)]
             (constant_source (2 ^ 52))).
    vm_compute. reflexivity.
  - repeat split; assumption.
Defined.

(** * Further properties of the code *)

(** ** The countries of a world stay the same *)

Lemma keeps_names_upd_country i (f : Country → Country) :
  (∀ c, name (f c) = name c) → lifts (keeps names_of) (upd_country i f).
Proof.
  intros Hf. apply keeps_upd_world. intros w. unfold names_of. simpl.
  by apply fmap_alter_proj.
Qed.

Ltac names_prim :=
  idtac;
  lazymatch goal with
  | |- lifts _ (upd_country _ _) => apply keeps_names_upd_country; intros ?; reflexivity
  | |- lifts _ (upd_eco _) => apply keeps_upd_world; intros ?; reflexivity
  | |- lifts _ (upd_world _) => apply keeps_upd_world; intros ?; reflexivity
  | |- lifts _ (sound_alarm_loop _) => apply lifts_sound_alarm_loop
  | |- lifts _ ?m => let h := head_of m in unfold h
  end.

Lemma simulate_turn_keeps_names i : lifts (keeps names_of) (simulate_turn i).
Proof. lifts_go names_prim. Qed.

Lemma fire_global_events_keeps_names : lifts (keeps names_of) fire_global_events.
Proof. lifts_go names_prim. Qed.

Lemma wage_wars_keeps_names : lifts (keeps names_of) wage_wars.
Proof. lifts_go names_prim. Qed.

Ltac names_ops :=
  idtac;
  lazymatch goal with
  | |- lifts _ (simulate_turn _) => apply simulate_turn_keeps_names
  | |- lifts _ fire_global_events => apply fire_global_events_keeps_names
  | |- lifts _ wage_wars => apply wage_wars_keeps_names
  | |- _ => names_prim
  end.

(** X1.  No operation adds, removes, renames or reorders countries: after
    any operation, returning or raising, [world.countries] has the same
    names in the same order, hence the same length. *)
Theorem countries_are_never_added_or_renamed (op : Operation) (s : State) :
  names_of (world (snd (run op s))) = names_of (world s)
  ∧ length (countries (world (snd (run op s)))) = length (countries (world s)).
Proof.
  assert (lifts (keeps names_of) (run op)) as H.
  { destruct op; simpl; lifts_go names_ops. }
  specialize (H s). unfold keeps in H. split; [exact H|].
  apply (f_equal length) in H. unfold names_of in H. by rewrite !length_fmap in H.
Qed.

(** ** The year counters *)

Lemma try_except_unit_run (body : M unit) s :
  try_except body (ret tt) s = (Ok tt, snd (body s)).
Proof. unfold try_except. by destruct (body s) as [[[]|] ?]. Qed.


Lemma fmap_alter_commute {X} (g : Country → X) (h : X → X) (f : Country → Country) i
    (cs : list Country) :
  (∀ c, g (f c) = h (g c)) → g <$> alter f i cs = alter h i (g <$> cs).
Proof.
  intros H. apply list_eq. intros k. rewrite list_lookup_fmap.
  destruct (decide (i = k)) as [->|Hne].
  - rewrite !list_lookup_alter_eq, list_lookup_fmap.
    destruct (cs !! k); simpl; [|done]. by rewrite H.
  - by rewrite !list_lookup_alter_ne, list_lookup_fmap.
Qed.

Lemma keeps_years_upd_country i (f : Country → Country) :
  (∀ c, year (f c) = year c) → lifts (keeps years_of) (upd_country i f).
Proof.
  intros Hf. apply keeps_upd_world. intros w. unfold years_of. simpl.
  by apply fmap_alter_proj.
Qed.

Ltac years_prim :=
  idtac;
  lazymatch goal with
  | |- lifts _ (upd_country _ _) => apply keeps_years_upd_country; intros ?; reflexivity
  | |- lifts _ (upd_eco _) => apply keeps_upd_world; intros ?; reflexivity
  | |- lifts _ (upd_world _) => apply keeps_upd_world; intros ?; reflexivity
  | |- lifts _ (sound_alarm_loop _) => apply lifts_sound_alarm_loop
  | |- lifts _ ?m => let h := head_of m in unfold h
  end.



(** The first statement of a turn is the only one that touches a year
    counter. *)
Lemma turn_growth_years i s :
  years_of (world (snd (turn_growth i s))) = alter (fun y => y + 1) i (years_of (world s)).
Proof.
  unfold turn_growth. rewrite !bind_upd_country. unfold years_of. simpl.
  rewrite !(fmap_alter_proj year) by (intros ?; reflexivity).
  by apply fmap_alter_commute.
Qed.

Lemma simulate_turn_years i s :
  simulate_turn i s = (Ok tt, snd (simulate_turn i s))
  ∧ years_of (world (snd (simulate_turn i s)))
    = alter (fun y => y + 1) i (years_of (world s)).
Proof.
  unfold simulate_turn. rewrite try_except_unit_run. split; [done|]. simpl.
  match goal with
  | |- context [bind (turn_growth i) ?K s] =>
      pose proof (lifts_after (keeps years_of) (turn_growth i) K) as Hk
  end.
  unfold keeps in Hk. rewrite Hk; [apply turn_growth_years|].
  intros []. lifts_go years_prim.
Qed.





(** ** The flags of the years *)

Global Instance flags_kept_frame : Frame flags_kept.
Proof.
  split; unfold flags_kept.
  - done.
  - intros s1 s2 s3 H1 H2 y Hy. auto.
  - done.
Qed.

Lemma flags_kept_upd_world (f : World → World) :
  (∀ w y, global_events_done w !! y = Some true → global_events_done (f w) !! y = Some true) →
  lifts flags_kept (upd_world f).
Proof. intros H s y Hy. simpl. by apply H. Qed.

Lemma mark_year_keeps_flags (d : gmap Z bool) (yr y : Z) :
  d !! y = Some true → <[yr := true]> d !! y = Some true.
Proof. intros H. rewrite lookup_insert. by case_decide. Qed.

Ltac flags_prim :=
  idtac;
  lazymatch goal with
  | |- lifts _ (upd_country _ _) =>
      let Hy := fresh "Hy" in apply flags_kept_upd_world; intros ? ? Hy; exact Hy
  | |- lifts _ (upd_eco _) =>
      let Hy := fresh "Hy" in apply flags_kept_upd_world; intros ? ? Hy; exact Hy
  | |- lifts _ (upd_world _) =>
      let Hy := fresh "Hy" in
      apply flags_kept_upd_world; intros ? ? Hy;
      first [exact Hy | by apply mark_year_keeps_flags]
  | |- lifts _ (sound_alarm_loop _) => apply lifts_sound_alarm_loop
  | |- lifts _ ?m => let h := head_of m in unfold h
  end.

Lemma simulate_turn_keeps_flags i : lifts flags_kept (simulate_turn i).
Proof. lifts_go flags_prim. Qed.

Lemma fire_global_events_keeps_flags : lifts flags_kept fire_global_events.
Proof. lifts_go flags_prim. Qed.

Lemma wage_wars_keeps_flags : lifts flags_kept wage_wars.
Proof. lifts_go flags_prim. Qed.

Ltac flags_ops :=
  idtac;
  lazymatch goal with
  | |- lifts _ (simulate_turn _) => apply simulate_turn_keeps_flags
  | |- lifts _ fire_global_events => apply fire_global_events_keeps_flags
  | |- lifts _ wage_wars => apply wage_wars_keeps_flags
  | |- _ => flags_prim
  end.

(** X3.  Once [global_events_done[y]] is [True] no operation makes it
    [False] again or removes it; so on a world that has been through year
    [y], a later call of [simulate_global_events(y)], as in a second run of
    [simulate_world] on the same world, fires nothing. *)
Theorem year_flag_is_never_cleared (op : Operation) (s : State) (y : Z) :
  global_events_done (world s) !! y = Some true →
  global_events_done (world (snd (run op s))) !! y = Some true
  ∧ simulate_global_events y (snd (run op s)) = (Ok tt, snd (run op s)).
Proof.
  intros Hy.
  assert (lifts flags_kept (run op)) as H.
  { destruct op; simpl; lifts_go flags_ops. }
  pose proof (H s y Hy) as Hy'. split; [exact Hy'|].
  apply simulate_global_events_guarded. by rewrite Hy'.
Qed.

Lemma year_flag_is_never_cleared_witness :
  let s1 := snd (simulate_global_events 1 hostile_state) in
  global_events_done (world (snd (run (OpSimulateTurn 0) s1))) !! 1 = Some true.
Proof.
  intros s1.
  refine (proj1 (year_flag_is_never_cleared (OpSimulateTurn 0) s1 1 _)).
  vm_compute. reflexivity.
Defined.

(** ** The environment agreement *)

Global Instance membership_kept_frame : Frame membership_kept.
Proof.
  split; unfold membership_kept.
  - intros s j c Hc Hm. eauto.
  - intros s1 s2 s3 H1 H2 j c Hc Hm.
    destruct (H1 j c Hc Hm) as (c' & Hc' & Hm'). eauto.
  - intros s r j c Hc Hm. simpl. eauto.
Qed.

Lemma membership_kept_upd_country i (f : Country → Country) :
  (∀ c, environment_agreement c = 1 → environment_agreement (f c) = 1) →
  lifts membership_kept (upd_country i f).
Proof.
  intros Hf s j c Hc Hm. simpl.
  destruct (decide (i = j)) as [->|Hne].
  - exists (f c). rewrite list_lookup_alter_eq, Hc. split; [done | auto].
  - exists c. by rewrite list_lookup_alter_ne.
Qed.

Lemma membership_kept_upd_world (f : World → World) :
  (∀ w, countries (f w) = countries w) → lifts membership_kept (upd_world f).
Proof. intros Hf s j c Hc Hm. simpl. rewrite Hf. eauto. Qed.

Ltac membership_prim :=
  idtac;
  lazymatch goal with
  | |- lifts _ (upd_country _ _) =>
      let Hm := fresh "Hm" in
      apply membership_kept_upd_country; intros ? Hm; first [exact Hm | reflexivity]
  | |- lifts _ (upd_eco _) => apply membership_kept_upd_world; intros ?; reflexivity
  | |- lifts _ (upd_world _) => apply membership_kept_upd_world; intros ?; reflexivity
  | |- lifts _ (sound_alarm_loop _) => apply lifts_sound_alarm_loop
  | |- lifts _ ?m => let h := head_of m in unfold h
  end.

Lemma simulate_turn_keeps_membership i : lifts membership_kept (simulate_turn i).
Proof. lifts_go membership_prim. Qed.

Lemma fire_global_events_keeps_membership : lifts membership_kept fire_global_events.
Proof. lifts_go membership_prim. Qed.

Lemma wage_wars_keeps_membership : lifts membership_kept wage_wars.
Proof. lifts_go membership_prim. Qed.

Ltac membership_ops :=
  idtac;
  lazymatch goal with
  | |- lifts _ (simulate_turn _) => apply simulate_turn_keeps_membership
  | |- lifts _ fire_global_events => apply fire_global_events_keeps_membership
  | |- lifts _ wage_wars => apply wage_wars_keeps_membership
  | |- _ => membership_prim
  end.

(** X4.  A country that has joined the environment agreement stays a
    member through every operation, and for a member
    [join_environment_agreement] returns [True] at once: no draw, no
    choice of the agent, no change of state. *)
Theorem agreement_membership_is_permanent
    (op : Operation) (s : State) (j : nat) (c : Country) :
  countries (world s) !! j = Some c →
  environment_agreement c = 1 →
  (∃ c', countries (world (snd (run op s))) !! j = Some c' ∧ environment_agreement c' = 1)
  ∧ join_environment_agreement j s = (Ok true, s).
Proof.
  intros Hc Hm. split.
  - assert (lifts membership_kept (run op)) as H.
    { destruct op; simpl; lifts_go membership_ops. }
    exact (H s j c Hc Hm).
  - unfold join_environment_agreement, try_except.
    rewrite (bind_ok _ _ _ _ _ (get_country_ok _ _ _ Hc)), Hm. reflexivity.
Qed.

Lemma agreement_membership_is_permanent_witness :
  (∃ c', countries (world (snd (run (OpSimulateYear 1) member_state))) !! 0%nat = Some c'
         ∧ environment_agreement c' = 1)
  ∧ join_environment_agreement 0 member_state = (Ok true, member_state).
Proof.
  apply (agreement_membership_is_permanent (OpSimulateYear 1) member_state 0
           (set_environment_agreement 1 (sample_country "Sofialand" GovRight))).
  - reflexivity.
  - reflexivity.
Defined.

(** ** The tables of the agents *)

Lemma bind_lift_rand {A B} (f : RandomSource → A * RandomSource) (k : A → M B) s :
  bind (lift_rand f) k s
  = k (fst (f (rng s))) {| world := world s; rng := snd (f (rng s)) |}.
Proof. unfold bind, lift_rand. by destruct (f (rng s)). Qed.

Lemma getitem_setitem_fst (k s : StateKey) (e : QEntry) (t : QTable) :
  fst (QT.getitem k (QT.setitem s e t))
  = if decide (s = k) then e else fst (QT.getitem k t).
Proof.
  unfold QT.getitem, QT.setitem. simpl. rewrite lookup_insert.
  case_decide; [done|]. by destruct (entries t !! k).
Qed.

(** An update changes what no other pair of state and action reads,
    whether it returns or raises. *)
Lemma table_update_frame al ga s a r s' t k b :
  (k, b) ≠ (s, a) →
  QT.read k b (snd (QT.update al ga s a r s' t)) = QT.read k b t.
Proof.
  intros Hne. unfold QT.read, QT.update.
  pose proof (getitem_after_getitem k s' t) as H1.
  pose proof (getitem_after_getitem s s' t) as Hs.
  destruct (QT.getitem s' t) as [e1 t1]; simpl in *.
  destruct (Py.max_list _); simpl; [|by rewrite H1].
  pose proof (getitem_after_getitem k s t1) as H2.
  destruct (QT.getitem s t1) as [e2 t2]; simpl in *.
  destruct (QT.entry_get a e2); simpl; [|by rewrite H2, H1].
  rewrite getitem_setitem_fst. case_decide as Hk.
  - subst k. rewrite entry_get_set_ne by congruence. by rewrite Hs.
  - by rewrite H2, H1.
Qed.

(** X5.  [RLAgent.update] on table [tid] of the agent of country [i]
    touches nothing but that table: the world is the same apart from the
    agent of country [i], the other tables of that agent are the same,
    the random source is not used, and in the table every pair of state
    and action other than the updated one reads as before, whether the
    call returns or raises. *)
Theorem update_touches_one_entry
    (s : State) (i : nat) (c : Country) (tid : TableId)
    (st st' : StateKey) (a : Action) (r : Q) :
  countries (world s) !! i = Some c →
  ∃ t',
    snd (update i tid st a r st' s)
    = {| world := set_countries
                    (<[i := set_agent (set_table tid t' (agent c)) c]> (countries (world s)))
                    (world s);
         rng := rng s |}
    ∧ (∀ tid', tid' ≠ tid →
               table_of tid' (set_table tid t' (agent c)) = table_of tid' (agent c))
    ∧ ∀ k b, (k, b) ≠ (st, a) →
             QT.read k b t' = QT.read k b (table_of tid (agent c)).
Proof.
  intros Hc. unfold update.
  rewrite (bind_ok _ _ _ _ _ (get_country_ok _ _ _ Hc)). cbv zeta.
  pose proof (fun k b => table_update_frame (alpha (agent c)) (gamma (agent c))
                           st a r st' (table_of tid (agent c)) k b) as Hframe.
  destruct (QT.update _ _ _ _ _ _ _) as [res t'] eqn:E. simpl in Hframe.
  exists t'. rewrite bind_upd_country.
  assert (alter (fun c0 => set_agent (set_table tid t' (agent c0)) c0) i (countries (world s))
          = <[i := set_agent (set_table tid t' (agent c)) c]> (countries (world s))) as ->.
  { apply list_eq. intros j. destruct (decide (i = j)) as [<-|Hne].
    - rewrite list_lookup_alter_eq, Hc, list_lookup_insert_eq by (by eapply lookup_lt_Some).
      done.
    - by rewrite list_lookup_alter_ne, list_lookup_insert_ne. }
  split; [by destruct res|]. split; [|exact Hframe].
  intros tid' Hne. by destruct tid, tid'.
Qed.

Lemma update_touches_one_entry_witness :
  ∃ t',
    snd (update 0 WarQ [3; 0; 2; 2; 0; 3; 4] attack (-1) [3; 0; 2; 2; 0; 3; 4]
           (sample_state [sample_country "Sofialand" GovRight] 60 0))
    = {| world := set_countries
                    (<[0%nat := set_agent
                                  (set_table WarQ t' (agent (sample_country "Sofialand" GovRight)))
                                  (sample_country "Sofialand" GovRight)]>
                       (countries (world (sample_state [sample_country "Sofialand" GovRight] 60 0))))
                    (world (sample_state [sample_country "Sofialand" GovRight] 60 0));
         rng := rng (sample_state [sample_country "Sofialand" GovRight] 60 0) |}.
Proof.
  destruct (update_touches_one_entry
              (sample_state [sample_country "Sofialand" GovRight] 60 0) 0
              (sample_country "Sofialand" GovRight) WarQ
              [3; 0; 2; 2; 0; 3; 4] [3; 0; 2; 2; 0; 3; 4] attack (-1) eq_refl)
    as (t' & H & _).
  exists t'. exact H.
Defined.

(** *** Well-formed tables *)

Lemma entry_set_keys a v e : map fst (QT.entry_set a v e) = map fst e.
Proof.
  induction e as [|[b w] e IH]; simpl; [done|].
  destruct (decide (a = b)); simpl; [done|]. by rewrite IH.
Qed.

Lemma getitem_wf tid k t :
  table_wf tid t → entry_wf tid (fst (QT.getitem k t)) ∧ table_wf tid (snd (QT.getitem k t)).
Proof.
  intros [Hd He]. unfold QT.getitem.
  destruct (entries t !! k) as [e|] eqn:E; simpl.
  - split; [by eapply He | by split].
  - split; [done|]. split; [done|]. simpl.
    intros k' e'. rewrite lookup_insert. case_decide.
    + by intros [= <-].
    + apply He.
Qed.

Lemma update_wf tid al ga s a r s' t :
  table_wf tid t → table_wf tid (snd (QT.update al ga s a r s' t)).
Proof.
  intros Ht. unfold QT.update.
  destruct (getitem_wf tid s' t Ht) as [_ H1].
  destruct (QT.getitem s' t) as [e1 t1]; simpl in *.
  destruct (Py.max_list _); simpl; [|done].
  destruct (getitem_wf tid s t1 H1) as [He2 H2].
  destruct (QT.getitem s t1) as [e2 t2]; simpl in *.
  destruct (QT.entry_get a e2); simpl; [|done].
  destruct H2 as [Hd He]. split; [done|]. simpl.
  intros k' e'. rewrite lookup_insert. case_decide.
  - intros [= <-]. unfold entry_wf. by rewrite entry_set_keys.
  - apply He.
Qed.

Lemma set_table_wf tid t ag :
  agent_wf ag → table_wf tid t → agent_wf (set_table tid t ag).
Proof.
  intros Hag Ht tid'.
  destruct tid, tid'; first [exact Ht | exact (Hag InvestQ) | exact (Hag AgreeQ) | exact (Hag WarQ)].
Qed.

Lemma RLAgent_init_wf : agent_wf RLAgent_init.
Proof.
  intros []; (split; [reflexivity|]); simpl; intros k e; by rewrite lookup_empty.
Qed.

Global Instance agents_kept_frame : Frame agents_kept.
Proof.
  split; unfold agents_kept.
  - done.
  - auto.
  - done.
Qed.

Lemma agents_kept_upd_country i (f : Country → Country) :
  (∀ c, agent (f c) = agent c) → lifts agents_kept (upd_country i f).
Proof.
  intros Hf s Hs. unfold agents_wf in *. simpl.
  apply Forall_alter; [done|]. intros c _ Hc. by rewrite Hf.
Qed.

Lemma agents_kept_upd_world (f : World → World) :
  (∀ w, countries (f w) = countries w) → lifts agents_kept (upd_world f).
Proof. intros Hf s Hs. unfold agents_wf in *. simpl. by rewrite Hf. Qed.

Lemma agents_kept_table_getitem i tid k : lifts agents_kept (table_getitem i tid k).
Proof.
  intros s Hs. unfold table_getitem.
  destruct (countries (world s) !! i) as [c|] eqn:Hc.
  - rewrite (bind_ok _ _ _ _ _ (get_country_ok _ _ _ Hc)).
    assert (agent_wf (agent c)) as Hwf
      by exact (Forall_lookup_1 _ _ _ _ Hs Hc).
    destruct (getitem_wf tid k _ (Hwf tid)) as [_ Ht].
    destruct (QT.getitem k (table_of tid (agent c))) as [e t]. simpl in Ht.
    rewrite bind_upd_country. unfold ret. simpl. unfold agents_wf. simpl.
    apply Forall_alter; [done|]. intros c' _ Hc'. simpl. by apply set_table_wf.
  - by rewrite (bind_raised _ _ _ _ (get_country_raised _ _ Hc)).
Qed.

Lemma agents_kept_update i tid st a r st' : lifts agents_kept (update i tid st a r st').
Proof.
  intros s Hs. unfold update.
  destruct (countries (world s) !! i) as [c|] eqn:Hc.
  - rewrite (bind_ok _ _ _ _ _ (get_country_ok _ _ _ Hc)). cbv zeta.
    assert (agent_wf (agent c)) as Hwf
      by exact (Forall_lookup_1 _ _ _ _ Hs Hc).
    pose proof (update_wf tid (alpha (agent c)) (gamma (agent c)) st a r st' _ (Hwf tid)) as Ht.
    destruct (QT.update _ _ _ _ _ _ _) as [res t]. simpl in Ht.
    rewrite bind_upd_country.
    assert (agents_wf (set_countries
              (alter (fun c0 => set_agent (set_table tid t (agent c0)) c0) i
                 (countries (world s))) (world s))) as Hgoal.
    { unfold agents_wf. simpl. apply Forall_alter; [done|].
      intros c' _ Hc'. simpl. by apply set_table_wf. }
    by destruct res.
  - by rewrite (bind_raised _ _ _ _ (get_country_raised _ _ Hc)).
Qed.

Ltac agents_wf_prim :=
  idtac;
  lazymatch goal with
  | |- lifts _ (table_getitem _ _ _) => apply agents_kept_table_getitem
  | |- lifts _ (update _ _ _ _ _ _) => apply agents_kept_update
  | |- lifts _ (upd_country _ _) => apply agents_kept_upd_country; intros ?; reflexivity
  | |- lifts _ (upd_eco _) => apply agents_kept_upd_world; intros ?; reflexivity
  | |- lifts _ (upd_world _) => apply agents_kept_upd_world; intros ?; reflexivity
  | |- lifts _ (sound_alarm_loop _) => apply lifts_sound_alarm_loop
  | |- lifts _ ?m => let h := head_of m in unfold h
  end.

Lemma simulate_turn_keeps_agents i : lifts agents_kept (simulate_turn i).
Proof. lifts_go agents_wf_prim. Qed.

Lemma fire_global_events_keeps_agents : lifts agents_kept fire_global_events.
Proof. lifts_go agents_wf_prim. Qed.

Lemma wage_wars_keeps_agents : lifts agents_kept wage_wars.
Proof. lifts_go agents_wf_prim. Qed.

Ltac agents_wf_ops :=
  idtac;
  lazymatch goal with
  | |- lifts _ (simulate_turn _) => apply simulate_turn_keeps_agents
  | |- lifts _ fire_global_events => apply fire_global_events_keeps_agents
  | |- lifts _ wage_wars => apply wage_wars_keeps_agents
  | |- _ => agents_wf_prim
  end.

Lemma run_keeps_agents op : lifts agents_kept (run op).
Proof. destruct op; simpl; lifts_go agents_wf_ops. Qed.

(** *** The choice of an action *)

Lemma max_by_fold {A} (f : A → Q) (rest : list A) :
  ∀ best,
    let x := fold_left (fun best y => if Py.gtb (f y) (f best) then y else best) rest best in
    x ∈ best :: rest ∧ (f best <= f x)%Q ∧ ∀ y, y ∈ rest → (f y <= f x)%Q.
Proof.
  induction rest as [|z rest IH]; intros best; simpl.
  - split; [left|]. split; [lra|]. intros y Hy. by apply not_elem_of_nil in Hy.
  - destruct (IH (if Py.gtb (f z) (f best) then z else best)) as (Hin & Hle & Hall).
    destruct (Py.gtb (f z) (f best)) eqn:E.
    + apply gtb_gt in E. split; [|split].
      * right. exact Hin.
      * lra.
      * intros y Hy. apply elem_of_cons in Hy as [->|Hy]; [done | by apply Hall].
    + apply gtb_le in E. split; [|split].
      * apply elem_of_cons in Hin as [->|Hin]; [left | right; by right].
      * done.
      * intros y Hy. apply elem_of_cons in Hy as [->|Hy]; [lra | by apply Hall].
Qed.

(** [max(xs, key=f)] returns an element of [xs] whose key no other key
    exceeds, and raises only on an empty sequence. *)
Lemma max_by_spec {A} (f : A → Q) (xs : list A) :
  match Py.max_by f xs with
  | Some x => x ∈ xs ∧ ∀ y, y ∈ xs → (f y <= f x)%Q
  | None => xs = []
  end.
Proof.
  destruct xs as [|x0 rest]; simpl; [done|].
  destruct (max_by_fold f rest x0) as (Hin & Hle & Hall).
  split; [exact Hin|]. intros y Hy.
  apply elem_of_cons in Hy as [->|Hy]; [done | by apply Hall].
Qed.

(** [random.choice(xs)] returns an element of a sequence that is not
    empty. *)
Lemma choice_spec {A} (xs : list A) (r : RandomSource) :
  xs ≠ [] → ∃ x, fst (Rand.choice xs r) = Some x ∧ x ∈ xs.
Proof.
  intros Hne. unfold Rand.choice, Rand.next.
  destruct xs as [|x0 rest] eqn:E; [done|]. rewrite <- E in *. simpl.
  destruct (lookup_lt_is_Some_2 xs
              (N.to_nat (draws r (cursor r) mod N.of_nat (length xs)))) as [x Hx].
  { pose proof (N.mod_lt (draws r (cursor r)) (N.of_nat (length xs))) as Hlt.
    assert (N.of_nat (length xs) ≠ 0%N) as Hpos by (rewrite E; simpl; lia).
    specialize (Hlt Hpos). lia. }
  exists x. split; [done|]. by eapply list_elem_of_lookup_2.
Qed.

Lemma table_getitem_run i tid k s c :
  countries (world s) !! i = Some c →
  ∃ s', table_getitem i tid k s = (Ok (fst (QT.getitem k (table_of tid (agent c)))), s').
Proof.
  intros Hc. unfold table_getitem.
  rewrite (bind_ok _ _ _ _ _ (get_country_ok _ _ _ Hc)).
  destruct (QT.getitem k (table_of tid (agent c))) as [e t]. simpl.
  rewrite bind_upd_country. unfold ret. eauto.
Qed.

(** The run of [choose_action] on a well-formed table. *)
Lemma choose_action_run (s : State) (i : nat) (c : Country) (tid : TableId) (k : StateKey) :
  countries (world s) !! i = Some c →
  table_wf tid (table_of tid (agent c)) →
  let e := fst (QT.getitem k (table_of tid (agent c))) in
  ∃ a s',
    choose_action i tid k s = (Ok a, s')
    ∧ a ∈ action_domain tid
    ∧ (Py.ltb (fst (Rand.random (rng s))) (epsilon (agent c)) = false →
       ∃ v, (a, v) ∈ e ∧ ∀ b w, (b, w) ∈ e → (w <= v)%Q).
Proof.
  intros Hc Hwf e.
  destruct (getitem_wf tid k _ Hwf) as [He _]. fold e in He.
  assert (e ≠ []) as Hne.
  { intros E. rewrite E in He. unfold entry_wf in He. by destruct tid. }
  unfold choose_action.
  rewrite (bind_ok _ _ _ _ _ (get_country_ok _ _ _ Hc)), bind_lift_rand.
  set (s1 := {| world := world s; rng := snd (Rand.random (rng s)) |}).
  destruct (table_getitem_run i tid k s1 c Hc) as [s2 Hget]. fold e in Hget.
  destruct (Py.ltb (fst (Rand.random (rng s))) (epsilon (agent c))) eqn:Hexp.
  - rewrite (bind_ok _ _ _ _ _ Hget), bind_lift_rand.
    destruct (choice_spec (map fst e) (rng s2)) as (a & Ha & Hin).
    { intros E. apply Hne. by destruct e. }
    rewrite Ha. simpl. exists a. eexists. split; [reflexivity|].
    split; [|done]. unfold entry_wf in He. by rewrite <- He.
  - rewrite (bind_ok _ _ _ _ _ Hget).
    pose proof (max_by_spec snd e) as Hmax.
    destruct (Py.max_by snd e) as [[a v]|]; [|done].
    destruct Hmax as [Hin Hall]. simpl.
    exists a, s2. split; [reflexivity|]. split.
    + unfold entry_wf in He. rewrite <- He.
      change a with (fst (a, v)). by apply list_elem_of_fmap_2.
    + intros _. exists v. split; [done|]. intros b w Hb. exact (Hall (b, w) Hb).
Qed.

(** X6.  On a well-formed table [choose_action] never raises and returns
    an action of the domain of the table; when the draw does not fall
    below [epsilon] the action returned is one whose value in the entry
    of the state no other value exceeds. *)
Theorem choose_action_is_in_domain
    (s : State) (i : nat) (c : Country) (tid : TableId) (k : StateKey) :
  countries (world s) !! i = Some c →
  table_wf tid (table_of tid (agent c)) →
  let e := fst (QT.getitem k (table_of tid (agent c))) in
  ∃ a s',
    choose_action i tid k s = (Ok a, s')
    ∧ a ∈ action_domain tid
    ∧ (Py.ltb (fst (Rand.random (rng s))) (epsilon (agent c)) = false →
       ∃ v, (a, v) ∈ e ∧ ∀ b w, (b, w) ∈ e → (w <= v)%Q).
Proof. exact (choose_action_run s i c tid k). Qed.

Lemma choose_action_is_in_domain_witness :
  ∃ a s',
    choose_action 1 InvestQ [4; 0; 2; 2; 1; 4] green_state = (Ok a, s')
    ∧ a ∈ action_domain InvestQ.
Proof.
  destruct (choose_action_is_in_domain green_state 1
              (set_agent green_agent (set_happiness 80 (sample_country "Jimenara" GovLeft)))
              InvestQ [4; 0; 2; 2; 1; 4] eq_refl) as (a & s' & H1 & H2 & _).
  - split; [reflexivity|]. simpl. intros k e. rewrite lookup_insert. case_decide.
    + intros [= <-]. reflexivity.
    + by rewrite lookup_empty.
  - exists a, s'. split; assumption.
Defined.

(** *** The tables through an episode *)

Lemma Country_init_agent nm ag r : agent (fst (Country_init nm ag r)) = ag.
Proof.
  unfold Country_init.
  repeat match goal with
    | |- context [let (_, _) := ?x in _] => destruct x
    end.
  reflexivity.
Qed.

Lemma make_countries_agents agents r :
  Forall (fun p => agent_wf (snd p)) agents →
  Forall (fun c => agent_wf (agent c)) (fst (make_countries agents r)).
Proof.
  intros H. revert r. induction H as [|[nm ag] agents Hag _ IH]; intros r; simpl; [constructor|].
  pose proof (Country_init_agent nm ag r) as Ha.
  destruct (Country_init nm ag r) as [c r1]. specialize (IH r1).
  destruct (make_countries agents r1) as [cs r2]. simpl in *.
  constructor; [by rewrite Ha | done].
Qed.

Lemma init_tensions_keeps_agents : lifts agents_kept init_tensions.
Proof. lifts_go agents_wf_prim. Qed.

(** X7.  In an episode whose agents start with well-formed tables (as
    [RLAgent()] builds them), the tables of every country are well formed
    after any sequence of operations: every stored entry has exactly the
    actions of its domain, so no lookup of an action in an entry is a
    [KeyError]. *)
Theorem tables_stay_well_formed
    (agents : list (string * RLAgent)) (r : RandomSource) (s0 : State)
    (ops : list Operation) :
  new_episode agents r = Some s0 →
  Forall (fun p => agent_wf (snd p)) agents →
  agent_wf RLAgent_init
  ∧ agents_wf (world (foldl (fun s op => snd (run op s)) s0 ops)).
Proof.
  intros Hnew Hag. split; [apply RLAgent_init_wf|].
  assert (agents_wf (world s0)) as H0.
  { unfold new_episode in Hnew.
    pose proof (make_countries_agents agents r Hag) as Hcs.
    destruct (make_countries agents r) as [cs r1]. simpl in Hcs.
    destruct (Ecosystem_init cs) as [e|]; simpl in Hnew; [|done].
    match type of Hnew with
    | context [init_tensions ?st] => pose proof (init_tensions_keeps_agents st) as Hk
    end.
    destruct (init_tensions _) as [[[]|] s']; [|done].
    injection Hnew as <-. apply Hk. exact Hcs. }
  clear Hnew. revert s0 H0. induction ops as [|op ops IH]; intros s0 H0; simpl; [done|].
  apply IH. by apply (run_keeps_agents op s0).
Qed.

Lemma tables_stay_well_formed_witness :
  agents_wf (world (foldl (fun s op => snd (run op s)) episode_start
                      [OpSimulateYear 1; OpWageWars])).
Proof.
  refine (proj2 (tables_stay_well_formed
                   [("Sofialand", RLAgent_init); ("Jimenara", RLAgent_init)]
                   (constant_source (2 ^ 52)) episode_start
                   [OpSimulateYear 1; OpWageWars] _ _)).
  - vm_compute. reflexivity.
  - repeat constructor; apply RLAgent_init_wf.
Defined.

(** ** War *)




(** The candidates, pair by pair. *)
Lemma potential_wars_spec (w : World) (i j : nat) :
  (i, j) ∈ potential_wars w
  ↔ ∃ c1 c2, countries w !! i = Some c1 ∧ countries w !! j = Some c2
             ∧ i ≠ j ∧ 70 < war_tension w c1 c2.
Proof.
  unfold potential_wars, positions, war_tension.
  rewrite list_elem_of_bind. split.
  - intros (i' & Hin & Hi'). apply list_elem_of_bind in Hin as (j' & Hin & Hj').
    destruct (countries w !! i') as [c1|] eqn:E1; [|by apply not_elem_of_nil in Hin].
    destruct (countries w !! j') as [c2|] eqn:E2; [|by apply not_elem_of_nil in Hin].
    destruct (decide (i' ≠ j')) as [Hne|]; [|by apply not_elem_of_nil in Hin].
    destruct (70 <? _) eqn:Ht; [|by apply not_elem_of_nil in Hin].
    apply list_elem_of_singleton in Hin as [= -> ->].
    apply Z.ltb_lt in Ht. by exists c1, c2.
  - intros (c1 & c2 & E1 & E2 & Hne & Ht).
    exists i. split; [|apply elem_of_seq; split; [lia | by eapply lookup_lt_Some]].
    apply list_elem_of_bind. exists j.
    split; [|apply elem_of_seq; split; [lia | by eapply lookup_lt_Some]].
    rewrite E1, E2. rewrite decide_True by done.
    apply Z.ltb_lt in Ht. rewrite Ht. by apply list_elem_of_singleton.
Qed.


(** *** A war that is not fought, or not decided *)








(** *** The plunder *)

Lemma war_loss_bounds (r : Z) : 0 ≤ r → 0 ≤ war_loss r ≤ r.
Proof.
  intros Hr. unfold war_loss, Py.int. simpl.
  rewrite Z.quot_div_nonneg by lia. split.
  - apply Z.div_pos; lia.
  - apply Z.div_le_upper_bound; lia.
Qed.

(** One turn of the loop over [loser.resources]. *)
Lemma plunder_step winner loser (X : Resource) s cw cl :
  winner ≠ loser →
  countries (world s) !! winner = Some cw →
  countries (world s) !! loser = Some cl →
  ∃ s',
    (l <- get_country loser ;
     let loss := Py.int (inject_Z (res_get X (resources l)) * 0.3)%Q in
     _ <- upd_country loser (fun c =>
            set_resources
              (res_set X (Z.max 0 (res_get X (resources c) - loss)) (resources c)) c) ;
     upd_country winner (fun c =>
            set_resources
              (res_set X (res_get X (resources c) + loss) (resources c)) c)) s
    = (Ok tt, s')
    ∧ countries (world s') !! winner
      = Some (set_resources
                (res_set X (res_get X (resources cw) + war_loss (res_get X (resources cl)))
                   (resources cw)) cw)
    ∧ countries (world s') !! loser
      = Some (set_resources
                (res_set X (Z.max 0 (res_get X (resources cl)
                                     - war_loss (res_get X (resources cl))))
                   (resources cl)) cl).
Proof.
  intros Hne Hw Hl.
  rewrite (bind_ok _ _ _ _ _ (get_country_ok _ _ _ Hl)). cbv zeta.
  rewrite bind_upd_country. unfold upd_country, upd_world.
  eexists. split; [reflexivity|]. simpl. split.
  - by rewrite list_lookup_alter_eq, list_lookup_alter_ne, Hw.
  - by rewrite list_lookup_alter_ne, list_lookup_alter_eq, Hl.
Qed.

(** X10.  The plunder of a decided war: of every resource the loser keeps
    what it had minus [int(0.3 * holding)], not below 0, and the winner
    gains that same [int(0.3 * holding)]; so when the holdings of the
    loser are not negative, nothing is lost and what the two countries
    hold together of each resource is unchanged. *)
Theorem plunder_moves_three_tenths
    (s : State) (winner loser : nat) (cw cl : Country) (X : Resource) :
  winner ≠ loser →
  countries (world s) !! winner = Some cw →
  countries (world s) !! loser = Some cl →
  let s' := snd (plunder winner loser s) in
  let rl := res_get X (resources cl) in
  holding X winner s' = res_get X (resources cw) + war_loss rl
  ∧ holding X loser s' = Z.max 0 (rl - war_loss rl)
  ∧ (0 ≤ rl →
     0 ≤ holding X loser s'
     ∧ holding X winner s' + holding X loser s' = res_get X (resources cw) + rl).
Proof.
  intros Hne Hw Hl s' rl.
  assert (holding X winner s' = res_get X (resources cw) + war_loss rl
          ∧ holding X loser s' = Z.max 0 (rl - war_loss rl)) as [E1 E2].
  { subst s' rl. unfold plunder, resource_keys. simpl for_each.
    destruct (plunder_step winner loser oil s cw cl Hne Hw Hl) as (s1 & R1 & W1 & L1).
    rewrite (bind_ok _ _ _ _ _ R1).
    destruct (plunder_step winner loser coal s1 _ _ Hne W1 L1) as (s2 & R2 & W2 & L2).
    rewrite (bind_ok _ _ _ _ _ R2).
    destruct (plunder_step winner loser gas s2 _ _ Hne W2 L2) as (s3 & R3 & W3 & L3).
    rewrite (bind_ok _ _ _ _ _ R3).
    destruct (plunder_step winner loser forest s3 _ _ Hne W3 L3) as (s4 & R4 & W4 & L4).
    rewrite (bind_ok _ _ _ _ _ R4). unfold ret, holding. simpl.
    rewrite W4, L4. destruct X; split; reflexivity. }
  split; [exact E1|]. split; [exact E2|].
  intros Hr. pose proof (war_loss_bounds rl Hr). rewrite E1, E2. lia.
Qed.

Lemma plunder_moves_three_tenths_witness :
  let s' := snd (plunder 1 0 hostile_state) in
  holding oil 1 s' = 100 + war_loss 100
  ∧ holding oil 0 s' = Z.max 0 (100 - war_loss 100)
  ∧ (0 ≤ 100 →
     0 ≤ holding oil 0 s' ∧ holding oil 1 s' + holding oil 0 s' = 100 + 100).
Proof.
  apply (plunder_moves_three_tenths hostile_state 1 0
           (set_tension_score {[ "Sofialand" := 50 ]} (sample_country "Jimenara" GovLeft))
           (set_tension_score {[ "Jimenara" := 90 ]} (sample_country "Sofialand" GovRight))
           oil).
  - discriminate.
  - reflexivity.
  - reflexivity.
Defined.

(** ** The years that have a flag *)

Global Instance no_year_added_frame : Frame no_year_added.
Proof.
  split; unfold no_year_added.
  - done.
  - intros s1 s2 s3 H1 H2 y Hy. auto.
  - done.
Qed.














(** ** A world without countries *)



(** ** Tension *)

Lemma update_tension_run self partner change s cs cp :
  countries (world s) !! self = Some cs →
  countries (world s) !! partner = Some cp →
  update_tension self partner change s
  = (Ok tt,
     with_countries
       (alter (fun c =>
          set_tension_score
            (<[name cp := clamp_tension (tension_with c cp + change)]> (tension_score c)) c)
          self (countries (world s))) s).
Proof.
  intros Hs Hp. unfold update_tension, try_except.
  rewrite (bind_ok _ _ _ _ _ (get_country_ok _ _ _ Hp)). reflexivity.
Qed.

Lemma tension_with_insert (c other : Country) (v : Z) :
  tension_with (set_tension_score (<[name other := v]> (tension_score c)) c) other = v.
Proof. unfold tension_with. simpl. by rewrite lookup_insert_eq. Qed.

(** X13.  [update_tension] saturates at 0 and at 100: the new tension is
    the old one plus the change, brought back into [[0, 100]], no other
    tension of the country changes, and two changes of the same sign on a
    tension that is in range amount to one call with their sum. *)
Theorem update_tension_saturates
    (s : State) (self partner : nat) (cs cp : Country) (a b : Z) :
  countries (world s) !! self = Some cs →
  countries (world s) !! partner = Some cp →
  0 ≤ tension_with cs cp ≤ 100 →
  0 ≤ a * b →
  let s1 := snd (update_tension self partner a s) in
  (∃ c1, countries (world s1) !! self = Some c1
         ∧ tension_with c1 cp = clamp_tension (tension_with cs cp + a)
         ∧ 0 ≤ tension_with c1 cp ≤ 100
         ∧ ∀ other, name other ≠ name cp → tension_with c1 other = tension_with cs other)
  ∧ update_tension self partner b s1 = update_tension self partner (a + b) s.
Proof.
  intros Hs Hp Hrange Hsign s1.
  assert (s1 = with_countries
            (alter (fun c =>
               set_tension_score
                 (<[name cp := clamp_tension (tension_with c cp + a)]> (tension_score c)) c)
               self (countries (world s))) s) as E1.
  { subst s1. by rewrite (update_tension_run _ _ _ _ cs cp). }
  set (c1 := set_tension_score
               (<[name cp := clamp_tension (tension_with cs cp + a)]> (tension_score cs)) cs).
  assert (countries (world s1) !! self = Some c1) as Hs1.
  { rewrite E1. simpl. by rewrite list_lookup_alter_eq, Hs. }
  split.
  - exists c1. split; [exact Hs1|]. subst c1. rewrite tension_with_insert.
    split; [done|]. split; [unfold clamp_tension; lia|].
    intros other Hne. unfold tension_with. simpl. by rewrite lookup_insert_ne.
  - assert (∃ cp1, countries (world s1) !! partner = Some cp1 ∧ name cp1 = name cp)
      as (cp1 & Hp1 & Hnm).
    { rewrite E1. simpl. destruct (decide (self = partner)) as [->|Hne].
      - rewrite list_lookup_alter_eq, Hp. simpl. eexists. split; [done|]. reflexivity.
      - rewrite list_lookup_alter_ne by done. eauto. }
    rewrite (update_tension_run _ _ _ _ c1 cp1 Hs1 Hp1),
            (update_tension_run _ _ _ _ cs cp Hs Hp).
    f_equal. rewrite E1. unfold with_countries, set_countries. simpl. do 2 f_equal.
    apply list_eq. intros k. destruct (decide (self = k)) as [->|Hne].
    + rewrite !list_lookup_alter_eq, Hs. simpl. f_equal.
      unfold set_tension_score. simpl. f_equal.
      rewrite Hnm, insert_insert_eq. f_equal.
      unfold tension_with at 1. simpl. rewrite Hnm, lookup_insert_eq. simpl.
      unfold clamp_tension. nia.
    + by rewrite !list_lookup_alter_ne.
Qed.

Lemma update_tension_saturates_witness :
  update_tension 0 1 10 (snd (update_tension 0 1 5 hostile_state))
  = update_tension 0 1 (5 + 10) hostile_state.
Proof.
  refine (proj2 (update_tension_saturates hostile_state 0 1
           (set_tension_score {[ "Jimenara" := 90 ]} (sample_country "Sofialand" GovRight))
           (set_tension_score {[ "Sofialand" := 50 ]} (sample_country "Jimenara" GovLeft))
           5 10 _ _ _ _)).
  - reflexivity.
  - reflexivity.
  - vm_compute. split; discriminate.
  - lia.
Defined.

(** ** Trade and money *)

Global Instance pays_within_frame i j : Frame (pays_within i j).
Proof.
  split; unfold pays_within.
  - done.
  - intros s1 s2 s3 H1 H2 Hi Hj.
    destruct (H1 Hi Hj) as [L1 E1].
    destruct H2 as [L2 E2].
    { apply lookup_lt_is_Some. rewrite L1. by apply lookup_lt_is_Some. }
    { apply lookup_lt_is_Some. rewrite L1. by apply lookup_lt_is_Some. }
    split; [congruence | lia].
  - done.
Qed.

Lemma wealth_upd_country k i (f : Country → Country) s :
  (∀ c, money (f c) = money c) →
  wealth k {| world := set_countries (alter f i (countries (world s))) (world s);
              rng := rng s |}
  = wealth k s.
Proof.
  intros Hf. unfold wealth. simpl. f_equal. by apply lookup_alter_proj.
Qed.

Lemma pays_within_upd_country i j k (f : Country → Country) :
  (∀ c, money (f c) = money c) → lifts (pays_within i j) (upd_country k f).
Proof.
  intros Hf s _ _. split; simpl.
  - apply length_alter.
  - by rewrite !(wealth_upd_country _ _ _ s Hf).
Qed.

Lemma pays_within_upd_world i j (f : World → World) :
  (∀ w, countries (f w) = countries w) → lifts (pays_within i j) (upd_world f).
Proof. intros Hf s _ _. unfold wealth. simpl. by rewrite Hf. Qed.

Ltac money_prim :=
  idtac;
  lazymatch goal with
  | |- lifts _ (upd_country _ _) => apply pays_within_upd_country; intros; reflexivity
  | |- lifts _ (upd_eco _) => apply pays_within_upd_world; intros; reflexivity
  | |- lifts _ ?m => let h := head_of m in unfold h
  end.

(** The state after the four assignments of an accepted trade that move
    the resource and the money. *)
Lemma accepted_trade_payment self partner X amount s cs cp :
  self ≠ partner →
  countries (world s) !! self = Some cs →
  countries (world s) !! partner = Some cp →
  ∃ s4,
    snd (accepted_trade self partner X amount s)
    = snd ((_ <- upd_country self (fun c => set_pollution (pollution c + trade_pollution X)%Q c) ;
            _ <- regional_pollution_of_country_add self (trade_pollution X) ;
            _ <- update_tension self partner (-5) ;
            update_tension partner self (-5)) s4)
    ∧ length (countries (world s4)) = length (countries (world s))
    ∧ wealth self s4 = money cs - amount * 1000
    ∧ wealth partner s4 = money cp + amount * 1000.
Proof.
  intros Hne Hs Hp. unfold accepted_trade.
  do 4 rewrite bind_upd_country.
  eexists. split; [reflexivity|]. unfold wealth. simpl.
  rewrite !length_alter. split; [done|].
  repeat (rewrite list_lookup_alter_eq || rewrite list_lookup_alter_ne by done).
  rewrite Hs. simpl.
  repeat (rewrite list_lookup_alter_eq || rewrite list_lookup_alter_ne by done).
  rewrite Hp. done.
Qed.

Lemma after_payment_pays i j self partner (X : Resource) :
  lifts (pays_within i j)
    (_ <- upd_country self (fun c => set_pollution (pollution c + trade_pollution X)%Q c) ;
     _ <- regional_pollution_of_country_add self (trade_pollution X) ;
     _ <- update_tension self partner (-5) ;
     update_tension partner self (-5)).
Proof. lifts_go money_prim. Qed.

Lemma accepted_trade_pays self partner X amount :
  self ≠ partner → lifts (pays_within self partner) (accepted_trade self partner X amount).
Proof.
  intros Hne s [cs Hs] [cp Hp].
  destruct (accepted_trade_payment self partner X amount s cs cp Hne Hs Hp)
    as (s4 & -> & L & Ws & Wp).
  destruct (after_payment_pays self partner self partner X s4) as [L' E'].
  { apply lookup_lt_is_Some. rewrite L. by eapply lookup_lt_Some. }
  { apply lookup_lt_is_Some. rewrite L. by eapply lookup_lt_Some. }
  split; [congruence|]. rewrite E', Ws, Wp. unfold wealth. rewrite Hs, Hp. simpl. lia.
Qed.

Ltac payment_prim :=
  idtac;
  lazymatch goal with
  | |- lifts _ (accepted_trade _ _ _ _) => apply accepted_trade_pays; assumption
  | |- _ => money_prim
  end.

Lemma trade_resources_pays self partner :
  self ≠ partner → lifts (pays_within self partner) (trade_resources self partner).
Proof. intros Hne. unfold trade_resources. lifts_go payment_prim. Qed.

(** X14.  For two distinct countries: in an accepted trade of amount [A]
    the caller, who receives the resource, pays [A * 1000] and the partner
    receives it (the test before the trade is on the money of the partner,
    so nothing keeps the money of the caller from going below 0); and
    after any call of [trade_resources], whatever branch it takes, the
    money of the two countries adds up to the same amount. *)
Theorem trade_conserves_money
    (s : State) (self partner : nat) (cs cp : Country) :
  self ≠ partner →
  countries (world s) !! self = Some cs →
  countries (world s) !! partner = Some cp →
  (∀ (X : Resource) (A : Z),
     let s' := snd (accepted_trade self partner X A s) in
     wealth self s' = money cs - A * 1000
     ∧ wealth partner s' = money cp + A * 1000)
  ∧ (let s' := snd (trade_resources self partner s) in
     wealth self s' + wealth partner s' = money cs + money cp).
Proof.
  intros Hne Hs Hp. split.
  - intros X A s'.
    destruct (accepted_trade_payment self partner X A s cs cp Hne Hs Hp)
      as (s4 & E & L & Ws & Wp).
    assert (is_Some (countries (world s4) !! self)) as Is.
    { apply lookup_lt_is_Some. rewrite L. by eapply lookup_lt_Some. }
    assert (is_Some (countries (world s4) !! partner)) as Ip.
    { apply lookup_lt_is_Some. rewrite L. by eapply lookup_lt_Some. }
    destruct (after_payment_pays self self self partner X s4 Is Is) as [_ H1].
    destruct (after_payment_pays partner partner self partner X s4 Ip Ip) as [_ H2].
    subst s'. rewrite E. lia.
  - intros s'.
    destruct (trade_resources_pays self partner Hne s) as [_ E]; [by eexists..|].
    fold s' in E. rewrite E. unfold wealth. by rewrite Hs, Hp.
Qed.

Lemma trade_conserves_money_witness :
  let s' := snd (trade_resources 0 1 (sample_state trading_pair 60 0)) in
  wealth 0 s' + wealth 1 s' = 200000000 + 200000000.
Proof.
  refine (proj2 (trade_conserves_money (sample_state trading_pair 60 0) 0 1
            (set_resources {| r_oil := 10; r_coal := 100; r_gas := 100; r_forest := 100 |}
               (sample_country "Sofialand" GovRight))
            (sample_country "Jimenara" GovLeft) _ _ _)).
  - discriminate.
  - reflexivity.
  - reflexivity.
Defined.

(** ** The investment of a turn *)





(** ** A world of one country *)

Global Instance alone_undecided_frame : Frame alone_undecided.
Proof.
  split; unfold alone_undecided.
  - done.
  - intros s1 s2 s3 H1 H2 L. destruct (H1 L) as [L1 E1]. destruct (H2 L1) as [L2 E2].
    split; [done | congruence].
  - done.
Qed.

Lemma alone_undecided_weaken {A} (m : M A) :
  lifts (keeps decisions_of) m → lifts alone_undecided m.
Proof.
  intros H s L. specialize (H s). unfold keeps in H. split; [|exact H].
  apply (f_equal length) in H. unfold decisions_of in H.
  rewrite !length_fmap in H. congruence.
Qed.

Ltac decisions_prim :=
  idtac;
  lazymatch goal with
  | |- lifts _ (upd_country _ _) =>
      apply keeps_upd_world; intros ?; unfold decisions_of; simpl;
      apply fmap_alter_proj; intros ?; reflexivity
  | |- lifts _ (upd_eco _) => apply keeps_upd_world; intros ?; reflexivity
  | |- lifts _ ?m => let h := head_of m in unfold h
  end.

(** With one country the list of the other countries is empty and
    [random.choice] raises [IndexError]: what follows in the turn does not
    run. *)
Lemma lone_trade_raises {B} (k : unit → M B) :
  lifts alone_undecided (bind (turn_trade 0) k).
Proof.
  intros s L. unfold turn_trade.
  rewrite bind_assoc, bind_get_world. unfold positions. rewrite L. simpl. done.
Qed.

(** X16.  In a world of one country the turn stops at the choice of a
    trade partner ([random.choice] of an empty list, caught by the
    [except] of [simulate_turn]): the year is counted, but the country
    never trades, never decides on the agreement, never invests, never
    changes its government, and its agent learns nothing. *)
Theorem lone_country_never_decides (s : State) (c : Country) :
  countries (world s) = [c] →
  ∃ c',
    countries (world (snd (simulate_turn 0 s))) = [c']
    ∧ year c' = year c + 1
    ∧ agent c' = agent c
    ∧ investments c' = investments c
    ∧ environment_agreement c' = environment_agreement c
    ∧ government c' = government c
    ∧ ideology_score c' = ideology_score c.
Proof.
  intros E.
  assert (lifts alone_undecided (simulate_turn 0)) as H.
  { unfold simulate_turn. apply lifts_try_except; [exact _ | | apply lifts_ret; exact _].
    do 7 (apply lifts_bind;
          [exact _ | apply alone_undecided_weaken; lifts_go decisions_prim | intros _]).
    apply lone_trade_raises. }
  destruct (H s) as [L D]; [by rewrite E|].
  destruct (simulate_turn_years 0 s) as [_ Y].
  unfold years_of in Y. unfold decisions_of in D. rewrite E in D, Y.
  destruct (countries (world (snd (simulate_turn 0 s)))) as [|c' [|]]; try done.
  simpl in D, Y. exists c'. split; [done|]. split; [congruence|].
  injection D as D1 D2 D3 D4 D5. done.
Qed.

Lemma lone_country_never_decides_witness :
  ∃ c',
    countries (world (snd (simulate_turn 0 lone_state))) = [c']
    ∧ year c' = 0 + 1
    ∧ agent c' = RLAgent_init
    ∧ investments c' = {| inv_economy := 0; inv_environment := 0; inv_infrastructure := 0 |}
    ∧ environment_agreement c' = 0
    ∧ government c' = GovRight
    ∧ ideology_score c' = 40.
Proof.
  apply (lone_country_never_decides lone_state (sample_country "Sofialand" GovRight)).
  reflexivity.
Defined.

(** ** The stocks of the countries *)

Lemma int_nonneg (x : Q) : (0 <= x)%Q → 0 ≤ Py.int x.
Proof.
  intros Hx. rewrite int_is_floor by done.
  change 0 with (Qfloor 0). by apply Qfloor_resp_le.
Qed.

(** [int(p * f)] for a share [f] of a stock [p]. *)
Lemma int_scale_bounds (p : Z) (f : Q) :
  0 ≤ p → (0 <= f)%Q → (f <= 1)%Q → 0 ≤ Py.int (inject_Z p * f)%Q ≤ p.
Proof.
  intros Hp H0 H1.
  assert (0 <= inject_Z p)%Q as Hq by (change 0%Q with (inject_Z 0); by rewrite <- Zle_Qle).
  assert (0 <= inject_Z p * f)%Q as Hx by nra.
  split; [by apply int_nonneg|].
  rewrite int_is_floor by done.
  rewrite Zle_Qle. eapply Qle_trans; [apply Qfloor_le|]. nra.
Qed.

Lemma random_range (r : RandomSource) : (0 <= fst (Rand.random r))%Q ∧ (fst (Rand.random r) < 1)%Q.
Proof.
  unfold Rand.random, Rand.next. cbn [fst].
  pose proof (N.mod_lt (draws r (cursor r)) (2 ^ 53) ltac:(done)) as Hlt.
  apply N2Z.inj_lt in Hlt. split.
  - unfold Qle. cbn [Qnum Qden]. rewrite Z.mul_1_r. apply N2Z.is_nonneg.
  - unfold Qlt. cbn [Qnum Qden]. rewrite Z.mul_1_r, Z.mul_1_l. exact Hlt.
Qed.

Lemma uniform_range (a b : Q) (r : RandomSource) :
  (a <= b)%Q → (a <= fst (Rand.uniform a b r))%Q ∧ (fst (Rand.uniform a b r) <= b)%Q.
Proof.
  intros Hab. unfold Rand.uniform.
  pose proof (random_range r) as [H0 H1].
  destruct (Rand.random r) as [u r']. simpl in *. split; nra.
Qed.

Lemma randint_fst_range (a b : Z) (r : RandomSource) :
  a ≤ b → a ≤ fst (Rand.randint a b r) ≤ b.
Proof.
  intros Hab. unfold Rand.randint, Rand.next. simpl.
  pose proof (Z.mod_pos_bound (Z.of_N (draws r (cursor r))) (b - a + 1)). lia.
Qed.

Global Instance stocked_frame : Frame stocked.
Proof.
  split; unfold stocked.
  - done.
  - intros s1 s2 s3 H1 H2 H. auto.
  - done.
Qed.

Lemma stocked_upd_country i (f : Country → Country) :
  (∀ c, stock_ok c → stock_ok (f c)) → lifts stocked (upd_country i f).
Proof. intros Hf s H. simpl. apply Forall_alter; [done|]. intros c _. apply Hf. Qed.

Lemma stocked_upd_world (f : World → World) :
  (∀ w, countries (f w) = countries w) → lifts stocked (upd_world f).
Proof. intros Hf s H. simpl. by rewrite Hf. Qed.

(** What is read from a country is read from a country in order. *)
Lemma stocked_get_country {B} i (k : Country → M B) :
  (∀ c, stock_ok c → lifts stocked (k c)) → lifts stocked (bind (get_country i) k).
Proof.
  intros Hk s H. destruct (countries (world s) !! i) as [c|] eqn:E.
  - rewrite (bind_ok _ _ _ _ _ (get_country_ok _ _ _ E)).
    apply Hk; [|done]. by eapply (Forall_lookup_1 _ _ _ _ H).
  - by rewrite (bind_raised _ _ _ _ (get_country_raised _ _ E)).
Qed.

(** An assignment to a country from what has just been read from it. *)
Lemma stocked_get_upd {B} i (f : Country → Country → Country) (k : Country → M B) :
  (∀ c, stock_ok c → stock_ok (f c c)) →
  (∀ c, stock_ok c → lifts stocked (k c)) →
  lifts stocked (c <- get_country i ; _ <- upd_country i (f c) ; k c).
Proof.
  intros Hf Hk s H. destruct (countries (world s) !! i) as [c|] eqn:E.
  - rewrite (bind_ok _ _ _ _ _ (get_country_ok _ _ _ E)), bind_upd_country.
    assert (stock_ok c) as Hc by (by eapply (Forall_lookup_1 _ _ _ _ H)).
    apply Hk; [done|]. simpl. apply Forall_alter; [done|].
    intros x Hx _. rewrite E in Hx. injection Hx as <-. by apply Hf.
  - by rewrite (bind_raised _ _ _ _ (get_country_raised _ _ E)).
Qed.

Lemma stocked_randint {B} (a b : Z) (k : Z → M B) :
  a ≤ b → (∀ n, a ≤ n ≤ b → lifts stocked (k n)) →
  lifts stocked (bind (lift_rand (Rand.randint a b)) k).
Proof.
  intros Hab Hk. apply (lifts_bind_post stocked (fun n => a ≤ n ≤ b)).
  - apply lifts_lift_rand. exact _.
  - intros s n. by apply randint_range.
  - exact Hk.
Qed.

Lemma stocked_uniform {B} (a b : Q) (k : Q → M B) :
  (a <= b)%Q → (∀ u, (a <= u)%Q ∧ (u <= b)%Q → lifts stocked (k u)) →
  lifts stocked (bind (lift_rand (Rand.uniform a b)) k).
Proof.
  intros Hab Hk. apply (lifts_bind_post stocked (fun u => (a <= u)%Q ∧ (u <= b)%Q)).
  - apply lifts_lift_rand. exact _.
  - intros s u. unfold lift_rand. pose proof (uniform_range a b (rng s) Hab) as Hu.
    destruct (Rand.uniform a b (rng s)) as [u' r']. simpl in *. by intros [= <-].
  - exact Hk.
Qed.

(** The facts of the countries in order that are in the context. *)
Ltac stock_facts :=
  repeat match goal with
    | H : stock_ok _ |- _ => destruct H as [? ? ? ? ? ? ? ? ? ?]
    end;
  repeat match goal with
    | H : ∀ X : Resource, 0 ≤ res_get X (resources ?c) |- _ =>
        pose proof (H oil); pose proof (H coal); pose proof (H gas); pose proof (H forest);
        clear H
    end;
  repeat match goal with
    | X : Resource |- _ => destruct X
    end;
  cbn [res_get res_set r_oil r_coal r_gas r_forest trade_pollution] in *.

Ltac nonneg_inject :=
  repeat match goal with
    | |- context [inject_Z ?z] =>
        lazymatch goal with
        | _ : (0 <= inject_Z z)%Q |- _ => fail
        | _ => idtac
        end;
        assert (0 <= inject_Z z)%Q
          by (change 0%Q with (inject_Z 0); rewrite <- Zle_Qle; nia)
    end.

Ltac stock_Q :=
  unfold severity_multiplier, investment_efficiency in *;
  repeat case_decide; repeat case_bool_decide;
  py_cases; nonneg_inject; lra.

Ltac int_facts :=
  repeat match goal with
    | |- context [Py.int ?q] =>
        lazymatch goal with
        | _ : 0 ≤ Py.int q |- _ => fail
        | _ => idtac
        end;
        first
          [ lazymatch q with
            | (inject_Z ?p * ?f)%Q =>
                let H := fresh in
                assert (0 ≤ Py.int q ∧ Py.int q ≤ p) as H
                  by (apply int_scale_bounds; [lia | stock_Q | stock_Q]);
                destruct H
            end
          | assert (0 ≤ Py.int q) by (apply int_nonneg; stock_Q) ]
    end.

Ltac stock_arith :=
  stock_facts;
  lazymatch goal with
  | |- (_ <= _)%Q => stock_Q
  | |- _ => int_facts; lia
  end.

(** An assignment keeps the stocks in order. *)
Ltac solve_stock_ok :=
  let c := fresh "c" in
  let H := fresh "H" in
  intros c H;
  split;
  unfold set_population, set_resources, set_natural_disaster_risk, set_government,
    set_ideology_score, set_money, set_military_power, set_happiness, set_tech_level,
    set_pollution, set_production, set_investments, set_infrastructure_level,
    set_rebellion_risk, set_year, set_has_rebelled_this_year, set_tension_score,
    set_diplomatic_relations, set_environment_agreement, set_agent;
  cbn [population resources tech_level education_level pollution production
       infrastructure_level military_power has_rebelled_this_year];
  first
    [ by destruct H
    | reflexivity
    | let X := fresh "X" in intros X; stock_arith
    | stock_arith ].

Ltac stocked_prim :=
  idtac;
  lazymatch goal with
  | |- lifts _ (upd_country _ _) => apply stocked_upd_country; solve_stock_ok
  | |- lifts _ (upd_eco _) => apply stocked_upd_world; intros ?; reflexivity
  | |- lifts _ (upd_world _) => apply stocked_upd_world; intros ?; reflexivity
  | |- lifts _ (sound_alarm_loop _) => apply lifts_sound_alarm_loop
  | |- lifts _ ?m => let h := head_of m in unfold h
  end.

(** One step: what is read from a country or drawn is known to be in
    range. *)
Ltac stocked_step prim :=
  cbv beta zeta;
  lazymatch goal with
  | |- lifts _ (bind (get_country _) _) => apply stocked_get_country; intros ? ?
  | |- lifts _ (bind (lift_rand (Rand.randint ?a ?b)) _) =>
      apply (stocked_randint a b); [lia | intros ? ?]
  | |- lifts _ (bind (lift_rand (Rand.uniform ?a ?b)) _) =>
      apply (stocked_uniform a b); [lra | intros ? ?]
  | |- _ => lifts_step prim
  end.

Ltac stocked_go prim := repeat (stocked_step prim).

Lemma stocked_update_pollution : lifts stocked update_pollution.
Proof. stocked_go stocked_prim. Qed.

Lemma stocked_trigger_disasters : lifts stocked trigger_disasters.
Proof. stocked_go stocked_prim. Qed.

Lemma stocked_update_tension i j change : lifts stocked (update_tension i j change).
Proof. stocked_go stocked_prim. Qed.

Lemma stocked_rebellion i : lifts stocked (rebellion i).
Proof. stocked_go stocked_prim. Qed.

Ltac stocked_ops :=
  idtac;
  lazymatch goal with
  | |- lifts _ (rebellion _) => apply stocked_rebellion
  | |- lifts _ update_pollution => apply stocked_update_pollution
  | |- lifts _ trigger_disasters => apply stocked_trigger_disasters
  | |- lifts _ (update_tension _ _ _) => apply stocked_update_tension
  | |- _ => stocked_prim
  end.

Lemma stocked_fire_global_events : lifts stocked fire_global_events.
Proof. stocked_go stocked_ops. Qed.

Lemma stocked_simulate_global_events yr : lifts stocked (simulate_global_events yr).
Proof.
  unfold simulate_global_events.
  stocked_go ltac:(idtac; first [apply stocked_fire_global_events | stocked_ops]).
Qed.

Lemma stocked_update i tid st a r st' : lifts stocked (update i tid st a r st').
Proof. stocked_go stocked_ops. Qed.

Lemma stocked_get_state i t : lifts stocked (get_state i t).
Proof. stocked_go stocked_ops. Qed.

Lemma stocked_choose_action i tid st : lifts stocked (choose_action i tid st).
Proof. stocked_go stocked_ops. Qed.

Ltac stocked_agent :=
  idtac;
  lazymatch goal with
  | |- lifts _ (update _ _ _ _ _ _) => apply stocked_update
  | |- lifts _ (get_state _ _) => apply stocked_get_state
  | |- lifts _ (choose_action _ _ _) => apply stocked_choose_action
  | |- _ => stocked_ops
  end.

(** The winner gains what has been read from the loser. *)
Lemma stocked_plunder winner loser : lifts stocked (plunder winner loser).
Proof. stocked_go stocked_agent. Qed.

(** The loser loses a part of the population that has just been read. *)
Lemma stocked_war_effects winner loser : lifts stocked (war_effects winner loser).
Proof.
  unfold war_effects.
  apply lifts_bind; [exact _ | apply stocked_plunder | intros _].
  cbv zeta.
  apply (stocked_get_upd loser
           (fun l c => set_population
                         (population c - Py.int (inject_Z (population l) * 0.05)%Q) c)).
  - solve_stock_ok.
  - intros l Hl. stocked_go stocked_agent.
Qed.

Lemma stocked_resolve_war attacker defender : lifts stocked (resolve_war attacker defender).
Proof.
  unfold resolve_war.
  stocked_go ltac:(idtac; first [apply stocked_war_effects | stocked_agent]).
Qed.

Lemma stocked_wage_wars : lifts stocked wage_wars.
Proof.
  unfold wage_wars.
  stocked_go ltac:(idtac; first [apply stocked_resolve_war | stocked_agent]).
Qed.

Lemma stocked_simulate_war yr : lifts stocked (simulate_war yr).
Proof.
  unfold simulate_war.
  stocked_go ltac:(idtac; first [apply stocked_wage_wars | stocked_agent]).
Qed.

Lemma stocked_join_environment_agreement i : lifts stocked (join_environment_agreement i).
Proof. stocked_go stocked_agent. Qed.

Lemma stocked_collect_taxes i : lifts stocked (collect_taxes i).
Proof. stocked_go stocked_agent. Qed.

Lemma stocked_make_investment_decision i : lifts stocked (make_investment_decision i).
Proof. stocked_go stocked_agent. Qed.

(** The partner gives what it has: the amount of an accepted trade is at
    most the holding that has been read from the partner. *)
Lemma stocked_accepted_trade self partner X amount s p :
  self ≠ partner →
  countries (world s) !! partner = Some p →
  0 ≤ amount ≤ res_get X (resources p) →
  stocked s (snd (accepted_trade self partner X amount s)).
Proof.
  intros Hne Hp Ha H. unfold accepted_trade. do 2 rewrite bind_upd_country.
  match goal with
  | |- context [snd (?m ?s2)] =>
      assert (lifts stocked m) as Hrest by stocked_go stocked_ops;
      apply (Hrest s2)
  end.
  simpl. apply Forall_alter.
  - apply Forall_alter; [done|]. intros c _. revert c. solve_stock_ok.
  - intros x Hx _. rewrite list_lookup_alter_ne, Hp in Hx by done. injection Hx as <-.
    assert (stock_ok p) as Hok by (by eapply (Forall_lookup_1 _ _ _ _ H)).
    destruct Hok as [? Hres ? ? ? ? ? ? ? ?]. split; try done.
    intros Y. simpl. rewrite res_get_set. case_decide; [lia | apply Hres].
Qed.

Lemma stocked_trade_resources self partner : lifts stocked (trade_resources self partner).
Proof.
  intros s H. unfold trade_resources. rewrite try_except_ret_snd, bind_get_eco.
  destruct (bool_decide (partner = self) || _) eqn:G; [exact H|].
  apply orb_false_iff in G as [G _]. apply bool_decide_eq_false in G.
  destruct (countries (world s) !! self) as [c|] eqn:Hc;
    [rewrite (bind_ok _ _ _ _ _ (get_country_ok _ _ _ Hc))
    |by rewrite (bind_raised _ _ _ _ (get_country_raised _ _ Hc))].
  destruct (countries (world s) !! partner) as [p|] eqn:Hp;
    [rewrite (bind_ok _ _ _ _ _ (get_country_ok _ _ _ Hp))
    |by rewrite (bind_raised _ _ _ _ (get_country_raised _ _ Hp))].
  destruct (Py.max_by _ resource_keys) as [X|]; [|exact H].
  unfold of_option. rewrite bind_ret.
  destruct (_ || _) eqn:G2; [exact H|].
  apply orb_false_iff in G2 as [_ G2]. apply Z.ltb_ge in G2.
  rewrite bind_lift_rand. cbv zeta.
  pose proof (randint_fst_range 5 20 (rng s) ltac:(lia)) as Hn.
  set (n := fst (Rand.randint 5 20 (rng s))) in *.
  destruct (money p <? _); [exact H|].
  rewrite bind_lift_rand.
  destruct (Py.gtb _ _).
  - match goal with
    | |- context [snd (?m ?s')] =>
        assert (lifts stocked m) as Hm by stocked_go stocked_ops;
        apply (Hm s'); exact H
    end.
  - apply (stocked_accepted_trade _ _ _ _ _ p); [congruence | exact Hp | lia | exact H].
Qed.

Ltac stocked_methods :=
  idtac;
  lazymatch goal with
  | |- lifts _ (join_environment_agreement _) => apply stocked_join_environment_agreement
  | |- lifts _ (trade_resources _ _) => apply stocked_trade_resources
  | |- lifts _ (collect_taxes _) => apply stocked_collect_taxes
  | |- lifts _ (make_investment_decision _) => apply stocked_make_investment_decision
  | |- lifts _ (simulate_global_events _) => apply stocked_simulate_global_events
  | |- lifts _ (simulate_war _) => apply stocked_simulate_war
  | |- lifts _ (resolve_war _ _) => apply stocked_resolve_war
  | |- lifts _ wage_wars => apply stocked_wage_wars
  | |- lifts _ fire_global_events => apply stocked_fire_global_events
  | |- _ => stocked_agent
  end.

Lemma stocked_turn_growth i : lifts stocked (turn_growth i).
Proof. stocked_go stocked_methods. Qed.

Lemma stocked_turn_consumption i : lifts stocked (turn_consumption i).
Proof. stocked_go stocked_methods. Qed.

Lemma stocked_turn_scarcity i : lifts stocked (turn_scarcity i).
Proof. stocked_go stocked_methods. Qed.

Lemma stocked_turn_forest i : lifts stocked (turn_forest i).
Proof. stocked_go stocked_methods. Qed.

Lemma stocked_turn_environment i : lifts stocked (turn_environment i).
Proof. stocked_go stocked_methods. Qed.

Lemma stocked_turn_society i : lifts stocked (turn_society i).
Proof. stocked_go stocked_methods. Qed.

Lemma stocked_turn_trade i : lifts stocked (turn_trade i).
Proof. stocked_go stocked_methods. Qed.

Lemma stocked_turn_politics i : lifts stocked (turn_politics i).
Proof. stocked_go stocked_methods. Qed.

Lemma stocked_turn_rebellion i : lifts stocked (turn_rebellion i).
Proof. stocked_go stocked_methods. Qed.

Ltac stocked_turns :=
  idtac;
  lazymatch goal with
  | |- lifts _ (turn_growth _) => apply stocked_turn_growth
  | |- lifts _ (turn_consumption _) => apply stocked_turn_consumption
  | |- lifts _ (turn_scarcity _) => apply stocked_turn_scarcity
  | |- lifts _ (turn_forest _) => apply stocked_turn_forest
  | |- lifts _ (turn_environment _) => apply stocked_turn_environment
  | |- lifts _ (turn_society _) => apply stocked_turn_society
  | |- lifts _ (turn_trade _) => apply stocked_turn_trade
  | |- lifts _ (turn_politics _) => apply stocked_turn_politics
  | |- lifts _ (turn_rebellion _) => apply stocked_turn_rebellion
  | |- _ => stocked_methods
  end.

Lemma stocked_simulate_turn i : lifts stocked (simulate_turn i).
Proof. stocked_go stocked_turns. Qed.

Lemma stocked_run op : lifts stocked (run op).
Proof.
  destruct op; simpl;
    stocked_go ltac:(idtac; first [apply stocked_simulate_turn | stocked_turns]).
Qed.

(** *** The start of an episode *)

Lemma Country_init_stock nm ag r : stock_ok (fst (Country_init nm ag r)).
Proof.
  unfold Country_init.
  repeat match goal with
    | |- context [let (_, _) := Rand.randint ?a ?b ?r in _] =>
        pose proof (randint_fst_range a b r ltac:(lia));
        destruct (Rand.randint a b r); cbn [fst] in *
    | |- context [let (_, _) := ?x in _] => destruct x
    end.
  split; simpl; try lia; try lra; try done.
  - intros []; simpl; lia.
  - change 0%Q with (inject_Z 0). rewrite <- Zle_Qle. lia.
Qed.

Lemma make_countries_stock agents r : Forall stock_ok (fst (make_countries agents r)).
Proof.
  revert r. induction agents as [|[nm ag] agents IH]; intros r; simpl; [constructor|].
  pose proof (Country_init_stock nm ag r) as Hc.
  destruct (Country_init nm ag r) as [c r1]. specialize (IH r1).
  destruct (make_countries agents r1) as [cs r2]. simpl in *. by constructor.
Qed.

Lemma stocked_init_tensions : lifts stocked init_tensions.
Proof. stocked_go stocked_prim. Qed.

Lemma reachable_stocked s : reachable s → Forall stock_ok (countries (world s)).
Proof.
  induction 1 as [agents r s H | op s _ IH].
  - unfold new_episode in H.
    pose proof (make_countries_stock agents r) as Hcs.
    destruct (make_countries agents r) as [cs r1]. simpl in Hcs.
    destruct (Ecosystem_init cs) as [e|]; simpl in H; [|done].
    match type of H with
    | context [init_tensions ?st] => pose proof (stocked_init_tensions st) as Hk
    end.
    destruct (init_tensions _) as [[[]|] s']; [|done].
    injection H as <-. apply Hk. exact Hcs.
  - by apply (stocked_run op s).
Qed.



(** ** Rebellion *)

(** The run of [rebellion] on a country of the world. *)
Lemma rebellion_run i s c :
  countries (world s) !! i = Some c →
  ∃ s1 c1,
    rebellion i s = (Ok tt, s1)
    ∧ countries (world s1) !! i = Some c1
    ∧ population c1 = Py.int (inject_Z (population c) * 0.9)%Q
    ∧ military_power c1 = Py.int (inject_Z (military_power c) * 0.5)%Q
    ∧ money c1 = Py.int (inject_Z (money c) * 0.5)%Q
    ∧ has_rebelled_this_year c1 = has_rebelled_this_year c
    ∧ (happiness c1 = 70%Q ∧ government c1 = flip (government c)
       ∧ ideology_score c1 = - ideology_score c
       ∨ (∃ n, 30 ≤ n ≤ 40 ∧ happiness c1 = inject_Z n)
         ∧ government c1 = government c ∧ ideology_score c1 = ideology_score c).
Proof.
  intros Hc. unfold rebellion, try_except.
  do 3 rewrite bind_upd_country. rewrite bind_lift_rand.
  destruct (Py.ltb _ 0.25).
  - do 2 rewrite bind_upd_country. unfold upd_country, upd_world. simpl.
    eexists _, _. split; [reflexivity|]. simpl.
    rewrite !list_lookup_alter_eq, Hc. simpl. split; [reflexivity|].
    repeat split; try reflexivity. left. repeat split; reflexivity.
  - rewrite bind_lift_rand. unfold upd_country, upd_world. simpl.
    eexists _, _. split; [reflexivity|]. simpl.
    rewrite !list_lookup_alter_eq, Hc. simpl. split; [reflexivity|].
    repeat split; try reflexivity. right. split; [|split; reflexivity].
    eexists. split; [|reflexivity].
    exact (randint_fst_range 30 40 (snd (Rand.random (rng s))) ltac:(lia)).
Qed.

(** X18.  No statement of the program sets [has_rebelled_this_year], so
    in an episode it is [False] for every country and the test before the
    rebellion is the test [happiness < 20] alone: a country that reaches
    the end of its turn with happiness below 20 always rebels.  It keeps
    nine tenths of its population and half of its military power and of
    its money, and ends either with the other government, the opposite
    ideology and happiness 70, or with the same government and a happiness
    drawn between 30 and 40. *)
Theorem low_happiness_always_rebels (s : State) (i : nat) (c : Country) :
  reachable s →
  countries (world s) !! i = Some c →
  has_rebelled_this_year c = false
  ∧ ((happiness c < 20)%Q →
     ∃ c',
       countries (world (snd (turn_rebellion i s))) !! i = Some c'
       ∧ population c' = Py.int (inject_Z (population c) * 0.9)%Q
       ∧ military_power c' = Py.int (inject_Z (military_power c) * 0.5)%Q
       ∧ money c' = Py.int (inject_Z (money c) * 0.5)%Q
       ∧ (happiness c' = 70%Q ∧ government c' = flip (government c)
          ∧ ideology_score c' = - ideology_score c
          ∨ (∃ n, 30 ≤ n ≤ 40 ∧ happiness c' = inject_Z n)
            ∧ government c' = government c ∧ ideology_score c' = ideology_score c)).
Proof.
  intros Hs Hc.
  pose proof (Forall_lookup_1 _ _ _ _ (reachable_stocked s Hs) Hc) as [].
  split; [done|]. intros Hlow.
  unfold turn_rebellion.
  rewrite (bind_ok _ _ _ _ _ (get_country_ok _ _ _ Hc)).
  rewrite (proj2 (ltb_lt _ _) Hlow). replace (has_rebelled_this_year c) with false by done.
  simpl andb. cbv iota.
  destruct (rebellion_run i s c Hc) as (s1 & c1 & Hrun & Hc1 & Hpop & Hmil & Hmon & _ & Hout).
  rewrite (bind_ok _ _ _ _ _ Hrun).
  rewrite (bind_ok _ _ _ _ _ (get_country_ok _ _ _ Hc1)).
  assert (Py.ltb (happiness c1) 0 = false) as ->.
  { apply ltb_ge. destruct Hout as [(-> & _)|[(n & Hn & ->) _]]; [lra|].
    change 0%Q with (inject_Z 0). rewrite <- Zle_Qle. lia. }
  rewrite bind_ret. unfold upd_country, upd_world. simpl.
  rewrite list_lookup_alter_eq, Hc1. simpl.
  eexists. split; [reflexivity|]. simpl. done.
Qed.

Lemma low_happiness_always_rebels_witness :
  has_rebelled_this_year episode_first = false.
Proof.
  refine (proj1 (low_happiness_always_rebels episode_start 0 episode_first _ _)).
  - apply (reachable_start [("Sofialand", RLAgent_init); ("Jimenara", RLAgent_init)]
             (constant_source (2 ^ 52))).
    vm_compute. reflexivity.
  - vm_compute. reflexivity.
Defined.

(** ** The keys of the tables *)

Lemma floordiv_nonneg (x : Q) : (0 <= x)%Q → 0 ≤ Py.floordiv x 20.
Proof.
  intros Hx. unfold Py.floordiv. change 0 with (Qfloor 0). apply Qfloor_resp_le.
  apply Qle_shift_div_l; lra.
Qed.

(** X19.  In an episode [get_state] never raises for a country of the
    world, and the key it returns has 6 components (7 with a tension),
    each between 0 and 5: the tables of an agent have at most [6^5 * 2]
    keys for the investments and the agreement and [6^6 * 2] for the
    war. *)
Theorem state_keys_are_bounded (s : State) (i : nat) (c : Country) (t : option Z) :
  reachable s →
  countries (world s) !! i = Some c →
  ∃ k,
    get_state i t s = (Ok k, s)
    ∧ length k = match t with Some _ => 7%nat | None => 6%nat end
    ∧ Forall (fun b => 0 ≤ b ≤ 5) k.
Proof.
  intros Hs Hc.
  pose proof (Forall_lookup_1 _ _ _ _ (reachable_stocked s Hs) Hc) as [].
  destruct (reachable_ok s Hs) as [Hcs []].
  pose proof (Forall_lookup_1 _ _ _ _ Hcs Hc) as [].
  unfold get_state.
  rewrite (bind_ok _ _ _ _ _ (get_country_ok _ _ _ Hc)), bind_get_world. cbv zeta.
  assert (0 ≤ Py.floordiv (happiness c) 20) by (by apply floordiv_nonneg).
  assert (0 ≤ Py.floordiv (pollution c) 20) by (by apply floordiv_nonneg).
  assert (0 ≤ Py.floordiv (infrastructure_level c) 20) by (by apply floordiv_nonneg).
  assert (0 ≤ Py.floordiv (ecosystem_health (ecosystem (world s))) 20)
    by (by apply floordiv_nonneg).
  assert (0 ≤ Py.int (production c) / 50)
    by (apply Z.div_pos; [by apply int_nonneg | lia]).
  destruct t; (eexists; split; [reflexivity|]; split; [reflexivity|]);
    repeat constructor; try case_decide; lia.
Qed.

Lemma state_keys_are_bounded_witness :
  ∃ k,
    get_state 0 (Some 90) episode_start = (Ok k, episode_start)
    ∧ length k = 7%nat
    ∧ Forall (fun b => 0 ≤ b ≤ 5) k.
Proof.
  apply (state_keys_are_bounded episode_start 0 episode_first (Some 90)).
  - apply (reachable_start [("Sofialand", RLAgent_init); ("Jimenara", RLAgent_init)]
             (constant_source (2 ^ 52))).
    vm_compute. reflexivity.
  - vm_compute. reflexivity.
Defined.

(** ** The keys of [regional_pollution] *)

Global Instance keys_kept_frame : Frame keys_kept.
Proof.
  split; unfold keys_kept.
  - done.
  - intros s1 s2 s3 [N1 H1] [N2 H2]. split; [congruence | auto].
  - done.
Qed.

Lemma keys_kept_upd_country i (f : Country → Country) :
  (∀ c, name (f c) = name c) → lifts keys_kept (upd_country i f).
Proof.
  intros Hf s.
  assert (names_of (world (snd (upd_country i f s))) = names_of (world s)) as N.
  { unfold names_of. simpl. by apply fmap_alter_proj. }
  split; [exact N|]. unfold regional_keys_cover. rewrite N. done.
Qed.

Lemma keys_kept_upd_eco (f : Ecosystem → Ecosystem) :
  (∀ e k, is_Some (regional_pollution e !! k) → is_Some (regional_pollution (f e) !! k)) →
  lifts keys_kept (upd_eco f).
Proof.
  intros Hf s. split; [done|]. intros H nm Hnm. simpl. apply Hf. by apply H.
Qed.

Lemma keys_kept_upd_world (f : World → World) :
  (∀ w, countries (f w) = countries w) →
  (∀ w, ecosystem (f w) = ecosystem w) →
  lifts keys_kept (upd_world f).
Proof.
  intros Hc He s. unfold keys_kept, regional_keys_cover, names_of. simpl.
  by rewrite Hc, He.
Qed.

(** [d[k] += v] writes a key that is there. *)
Lemma keys_kept_regional_pollution_add nm v : lifts keys_kept (regional_pollution_add nm v).
Proof.
  intros s. unfold regional_pollution_add. rewrite bind_get_eco. unfold dict_add.
  destruct (regional_pollution (ecosystem (world s)) !! nm) as [old|]; [|apply frame_refl].
  simpl. split; [done|]. intros H k Hk. simpl.
  apply lookup_insert_is_Some'. right. by apply H.
Qed.

Lemma recorded_key (cs : list Country) (nm : string) (m : nat) :
  ∀ k acc,
    (is_Some (acc !! nm) ∨ ∃ i c, (k ≤ i < k + m)%nat ∧ cs !! i = Some c ∧ name c = nm) →
    is_Some (fold_left (record_regional cs) (seq k m) acc !! nm).
Proof.
  induction m as [|m IH]; intros k acc H; simpl.
  - destruct H as [H|(i & c & Hi & _)]; [done | lia].
  - apply IH. unfold record_regional.
    destruct H as [H|(i & c & Hi & Hc & Hnm)].
    + left. destruct (cs !! k); [|done]. apply lookup_insert_is_Some'. by right.
    + destruct (decide (i = k)) as [->|Hne].
      * left. rewrite Hc. apply lookup_insert_is_Some'. by left.
      * right. exists i, c. split; [lia | done].
Qed.

(** The new dict of [update_pollution] has a key for every country. *)
Lemma keys_kept_update_pollution : lifts keys_kept update_pollution.
Proof.
  intros s.
  assert (names_of (world (snd (update_pollution s))) = names_of (world s)) as N.
  { assert (lifts (keeps names_of) update_pollution) as Hn by lifts_go names_prim.
    apply Hn. }
  split; [exact N|]. intros _.
  unfold regional_keys_cover. rewrite N. clear N.
  unfold update_pollution. rewrite try_except_ret_snd, bind_get_world.
  destruct (div_len _ _) as [gp|] eqn:Hgp.
  2:{ unfold div_len in Hgp. destruct (length (countries (world s))) eqn:L; [|done].
      apply nil_length_inv in L. unfold names_of. rewrite L. intros nm Hnm.
      by apply not_elem_of_nil in Hnm. }
  unfold of_option. rewrite bind_ret, bind_upd_eco.
  match goal with
  | |- context [bind (for_fold _ _ _) _ ?s1] =>
      destruct (pollution_loop (countries (world s)) (length (countries (world s))) 0 ∅ s1
                  eq_refl eq_refl ltac:(lia)) as (cs' & Hrun & _ & _ & _)
  end.
  unfold positions. rewrite (bind_ok _ _ _ _ _ Hrun).
  intros nm Hnm. simpl.
  apply recorded_key. right.
  unfold names_of in Hnm. apply list_elem_of_fmap in Hnm as (c & -> & Hc).
  apply list_elem_of_lookup in Hc as [i Hi].
  exists i, c. split; [|done]. apply lookup_lt_Some in Hi. lia.
Qed.

Ltac keys_prim :=
  idtac;
  lazymatch goal with
  | |- lifts _ update_pollution => apply keys_kept_update_pollution
  | |- lifts _ (regional_pollution_add _ _) => apply keys_kept_regional_pollution_add
  | |- lifts _ (upd_country _ _) => apply keys_kept_upd_country; intros ?; reflexivity
  | |- lifts _ (upd_eco _) =>
      let Hk := fresh "Hk" in
      apply keys_kept_upd_eco; intros ? ? Hk;
      first [exact Hk | simpl; apply lookup_insert_is_Some'; by right]
  | |- lifts _ (upd_world _) => apply keys_kept_upd_world; intros ?; reflexivity
  | |- lifts _ (sound_alarm_loop _) => apply lifts_sound_alarm_loop
  | |- lifts _ ?m => let h := head_of m in unfold h
  end.

Lemma keys_kept_simulate_turn i : lifts keys_kept (simulate_turn i).
Proof. lifts_go keys_prim. Qed.

Lemma keys_kept_fire_global_events : lifts keys_kept fire_global_events.
Proof. lifts_go keys_prim. Qed.

Lemma keys_kept_wage_wars : lifts keys_kept wage_wars.
Proof. lifts_go keys_prim. Qed.

Ltac keys_ops :=
  idtac;
  lazymatch goal with
  | |- lifts _ (simulate_turn _) => apply keys_kept_simulate_turn
  | |- lifts _ fire_global_events => apply keys_kept_fire_global_events
  | |- lifts _ wage_wars => apply keys_kept_wage_wars
  | |- _ => keys_prim
  end.

Lemma keys_kept_run op : lifts keys_kept (run op).
Proof. destruct op; simpl; lifts_go keys_ops. Qed.

Lemma Ecosystem_init_keys (cs : list Country) (nm : string) :
  ∀ acc : gmap string Q,
    (is_Some (acc !! nm) ∨ nm ∈ name <$> cs) →
    is_Some (fold_left (fun d c => <[name c := pollution c]> d) cs acc !! nm).
Proof.
  induction cs as [|c cs IH]; intros acc H; simpl.
  - destruct H as [H|H]; [done | by apply not_elem_of_nil in H].
  - apply IH. destruct H as [H|H].
    + left. apply lookup_insert_is_Some'. by right.
    + rewrite fmap_cons in H. apply elem_of_cons in H as [->|H].
      * left. apply lookup_insert_is_Some'. by left.
      * by right.
Qed.

Lemma keys_kept_init_tensions : lifts keys_kept init_tensions.
Proof. lifts_go keys_prim. Qed.

Lemma reachable_keys s :
  reachable s →
  regional_keys_cover (world s) ∧ (1 ≤ length (countries (world s)))%nat.
Proof.
  induction 1 as [agents r s H | op s _ [IH1 IH2]].
  - unfold new_episode in H.
    destruct (make_countries agents r) as [cs r1].
    destruct (Ecosystem_init cs) as [e|] eqn:He; simpl in H; [|done].
    match type of H with
    | context [init_tensions ?st] => pose proof (keys_kept_init_tensions st) as [Hn Hk]
    end.
    destruct (init_tensions _) as [[[]|] s']; [|done].
    injection H as <-. simpl in Hn, Hk.
    unfold Ecosystem_init in He.
    destruct (div_len _ (length cs)) as [gp|] eqn:Hgp; simpl in He; [|done].
    injection He as <-. split.
    + apply Hk. intros nm Hnm. simpl. apply Ecosystem_init_keys. by right.
    + apply (f_equal length) in Hn. unfold names_of in Hn. rewrite !length_fmap in Hn.
      simpl in Hn. rewrite Hn. unfold div_len in Hgp. destruct (length cs); [done | lia].
  - destruct (keys_kept_run op s) as [Hn Hk]. split; [by apply Hk|].
    apply (f_equal length) in Hn. unfold names_of in Hn. rewrite !length_fmap in Hn.
    by rewrite Hn.
Qed.

(** ** A turn runs to its end *)

Section TurnReturns.

Context (self : nat).













End TurnReturns.





(** ** The first year of an episode *)

Global Instance calm_kept_frame : Frame calm_kept.
Proof.
  split; unfold calm_kept.
  - done.
  - intros s1 s2 s3 H1 H2 H. auto.
  - done.
Qed.

Lemma calm_neutral (c other : Country) :
  calm c → 40 ≤ tension_with c other ≤ 60 ∧ get_diplomatic_status c other = neutral.
Proof.
  intros [Ht _].
  assert (40 ≤ tension_with c other ≤ 60) as H.
  { unfold tension_with. destruct (tension_score c !! name other) as [t|] eqn:E; simpl.
    - by eapply Ht.
    - lia. }
  split; [exact H|]. unfold get_diplomatic_status. cbv zeta.
  rewrite (proj2 (Z.ltb_ge _ _)) by lia. by rewrite (proj2 (Z.ltb_ge _ _)) by lia.
Qed.

Lemma calm_kept_init_tension i j : lifts calm_kept (init_tension i j).
Proof.
  unfold init_tension. destruct (decide (i ≠ j)) as [Hne|Heq]; [|apply lifts_ret; exact _].
  apply lifts_bind; [exact _ | apply lifts_get_country; exact _ | intros other].
  apply (lifts_bind_post calm_kept (fun n => 40 ≤ n ≤ 60)).
  - apply lifts_lift_rand. exact _.
  - intros s n. by apply randint_range.
  - intros n Hn. apply lifts_bind; [exact _ | | intros _].
    + intros s H. simpl. apply Forall_alter; [done|]. intros c _ [Ht Hr].
      split; [|exact Hr]. simpl. intros nm t. rewrite lookup_insert. case_decide.
      * intros [= <-]. exact Hn.
      * apply Ht.
    + intros s H. simpl. apply Forall_alter; [done|]. intros c _ Hc.
      destruct (calm_neutral c other Hc) as [_ Hst]. destruct Hc as [Ht Hr].
      split; [exact Ht|]. simpl. intros nm st. rewrite lookup_insert. case_decide.
      * intros [= <-]. exact Hst.
      * apply Hr.
Qed.

Lemma calm_kept_init_tensions : lifts calm_kept init_tensions.
Proof.
  unfold init_tensions.
  lifts_go ltac:(idtac; apply calm_kept_init_tension).
Qed.

Lemma make_countries_calm agents r : Forall calm (fst (make_countries agents r)).
Proof.
  revert r. induction agents as [|[nm ag] agents IH]; intros r; simpl; [constructor|].
  assert (calm (fst (Country_init nm ag r))) as Hc.
  { unfold Country_init.
    repeat match goal with
      | |- context [let (_, _) := ?x in _] => destruct x
      end.
    split; simpl; intros k t; by rewrite lookup_empty. }
  destruct (Country_init nm ag r) as [c r1]. specialize (IH r1).
  destruct (make_countries agents r1) as [cs r2]. simpl in *. by constructor.
Qed.

(** X21.  An episode starts in peace: the first tensions are drawn
    between 40 and 60, so every country is ['neutral'] toward every
    other, every recorded relation is ['neutral'], and there is no
    candidate for a war, whatever the pollution. *)
Theorem episode_starts_in_peace
    (agents : list (string * RLAgent)) (r : RandomSource) (s : State) :
  new_episode agents r = Some s →
  (∀ c other, c ∈ countries (world s) →
     40 ≤ tension_with c other ≤ 60
     ∧ get_diplomatic_status c other = neutral
     ∧ ∀ nm st, diplomatic_relations c !! nm = Some st → st = neutral)
  ∧ potential_wars (world s) = [].
Proof.
  intros H.
  assert (Forall calm (countries (world s))) as Hcalm.
  { unfold new_episode in H.
    pose proof (make_countries_calm agents r) as Hcs.
    destruct (make_countries agents r) as [cs r1]. simpl in Hcs.
    destruct (Ecosystem_init cs) as [e|]; simpl in H; [|done].
    match type of H with
    | context [init_tensions ?st] => pose proof (calm_kept_init_tensions st) as Hk
    end.
    destruct (init_tensions _) as [[[]|] s']; [|done].
    injection H as <-. apply Hk. exact Hcs. }
  split.
  - intros c other Hc.
    pose proof (proj1 (Forall_forall _ _) Hcalm c Hc) as Hok.
    destruct (calm_neutral c other Hok) as [Ht Hst]. destruct Hok as [_ Hr]. done.
  - destruct (potential_wars (world s)) as [|[i j] rest] eqn:E; [done|].
    assert ((i, j) ∈ potential_wars (world s)) as Hin by (rewrite E; left).
    apply potential_wars_spec in Hin as (c1 & c2 & E1 & E2 & _ & Ht).
    assert (calm c1) as Hc1 by exact (Forall_lookup_1 _ _ _ _ Hcalm E1).
    destruct (calm_neutral c1 c2 Hc1) as [Hrange _].
    unfold war_tension in Ht. destruct (Py.gtb _ _); lia.
Qed.

Lemma episode_starts_in_peace_witness : potential_wars (world episode_start) = [].
Proof.
  refine (proj2 (episode_starts_in_peace
                   [("Sofialand", RLAgent_init); ("Jimenara", RLAgent_init)]
                   (constant_source (2 ^ 52)) episode_start _)).
  vm_compute. reflexivity.
Defined.

(** ** The disease *)

(** The list that [max] and [sorted] go through in [trigger_disasters]:
    every position with the regional pollution of its country. *)
Lemma keyed_run (s : State) (xs : list nat) :
  regional_keys_cover (world s) →
  (∀ i, i ∈ xs → (i < length (countries (world s)))%nat) →
  ∃ keyed,
    map_m (fun i =>
             c <- get_country i ;
             k <- of_option (regional_pollution (ecosystem (world s)) !! name c) ;
             ret (i, k)) xs s
    = (Ok keyed, s)
    ∧ map fst keyed = xs
    ∧ Forall (fun p => ∃ c, countries (world s) !! fst p = Some c
                            ∧ snd p = regional_pollution_of (world s) c) keyed.
Proof.
  intros Hcov. induction xs as [|i xs IH]; intros Hxs; simpl.
  - exists []. split; [done|]. split; [done | constructor].
  - destruct (lookup_lt_is_Some_2 (countries (world s)) i) as [c Hc];
      [apply Hxs; left|].
    destruct (Hcov (name c)) as [v Hv].
    { unfold names_of. apply list_elem_of_fmap_2. by eapply list_elem_of_lookup_2. }
    destruct IH as (keyed & Hrun & Hfst & Hall); [intros j Hj; apply Hxs; by right|].
    exists ((i, v) :: keyed).
    rewrite bind_assoc, (bind_ok _ _ _ _ _ (get_country_ok _ _ _ Hc)).
    rewrite Hv. unfold of_option. rewrite bind_assoc, !bind_ret.
    rewrite (bind_ok _ _ _ _ _ Hrun). split; [done|]. split; [simpl; by rewrite Hfst|].
    constructor; [|done]. exists c. split; [done|]. simpl.
    unfold regional_pollution_of. by rewrite Hv.
Qed.

(** X22.  In an episode the disease of [trigger_disasters] finds its
    target ([max] over the countries never raises): it strikes a country
    whose regional pollution no other country exceeds, and it changes
    nothing but that country. *)
Theorem disease_strikes_the_most_polluted (s : State) :
  reachable s →
  ∃ i c,
    countries (world s) !! i = Some c
    ∧ (∀ c', c' ∈ countries (world s) →
         (regional_pollution_of (world s) c' <= regional_pollution_of (world s) c)%Q)
    ∧ disease s = disease_on i s
    ∧ fst (disease s) = Ok tt
    ∧ (∀ j, j ≠ i → countries (world (snd (disease s))) !! j = countries (world s) !! j)
    ∧ ecosystem (world (snd (disease s))) = ecosystem (world s).
Proof.
  intros Hs. destruct (reachable_keys s Hs) as [Hcov Hlen].
  destruct (keyed_run s (positions (world s)) Hcov) as (keyed & Hrun & Hfst & Hall).
  { intros i Hi. unfold positions in Hi. apply elem_of_seq in Hi. lia. }
  pose proof (max_by_spec snd keyed) as Hmax.
  destruct (Py.max_by snd keyed) as [[i v]|] eqn:Em.
  2:{ rewrite Hmax in Hfst. unfold positions in Hfst.
      destruct (length (countries (world s))); [lia | done]. }
  destruct Hmax as [Hin Hle].
  destruct (proj1 (Forall_forall _ _) Hall _ Hin) as (c & Hc & Hv). simpl in Hc, Hv.
  assert (disease s = disease_on i s) as Hd.
  { unfold disease, by_regional_pollution. rewrite bind_assoc, bind_get_world.
    rewrite (bind_ok _ _ _ _ _ Hrun), Em. reflexivity. }
  exists i, c. split; [exact Hc|]. split; [|split; [exact Hd|]].
  - intros c' Hc'. apply list_elem_of_lookup in Hc' as [j Hj].
    assert (j ∈ map fst keyed) as Hjk.
    { rewrite Hfst. unfold positions. apply elem_of_seq.
      apply lookup_lt_Some in Hj. lia. }
    apply list_elem_of_In, in_map_iff in Hjk as ([j' v'] & Hj' & Hin').
    simpl in Hj'. subst j'. apply list_elem_of_In in Hin'.
    destruct (proj1 (Forall_forall _ _) Hall _ Hin') as (c'' & Hc'' & Hv').
    simpl in Hc'', Hv'. rewrite Hj in Hc''. injection Hc'' as <-.
    rewrite <- Hv, <- Hv'. exact (Hle (j, v') Hin').
  - rewrite Hd. unfold disease_on.
    rewrite (bind_ok _ _ _ _ _ (get_country_ok _ _ _ Hc)). cbv zeta.
    do 2 rewrite bind_upd_country. unfold upd_country, upd_world. simpl.
    split; [done|]. split; [|done].
    intros j Hne. by rewrite !list_lookup_alter_ne.
Qed.

Lemma disease_strikes_the_most_polluted_witness :
  ∃ i c,
    countries (world episode_start) !! i = Some c
    ∧ (∀ c', c' ∈ countries (world episode_start) →
         (regional_pollution_of (world episode_start) c'
          <= regional_pollution_of (world episode_start) c)%Q)
    ∧ disease episode_start = disease_on i episode_start.
Proof.
  destruct (disease_strikes_the_most_polluted episode_start) as (i & c & H1 & H2 & H3 & _).
  - apply (reachable_start [("Sofialand", RLAgent_init); ("Jimenara", RLAgent_init)]
             (constant_source (2 ^ 52))).
    vm_compute. reflexivity.
  - exists i, c. repeat split; assumption.
Defined.

(** ** The flood *)

Lemma insert_desc_Permutation {A} (f : A → Q) (x : A) (xs : list A) :
  Py.insert_desc f x xs ≡ₚ x :: xs.
Proof.
  induction xs as [|y ys IH]; simpl; [done|].
  destruct (Py.gtb (f y) (f x)); [|done]. rewrite IH. apply Permutation_swap.
Qed.

Lemma sorted_desc_Permutation {A} (f : A → Q) (xs : list A) : Py.sorted_desc f xs ≡ₚ xs.
Proof.
  induction xs as [|x xs IH]; simpl; [done|].
  rewrite insert_desc_Permutation. by f_equiv.
Qed.

Lemma insert_desc_sorted {A} (f : A → Q) (x : A) (xs : list A) :
  StronglySorted (by_decreasing f) xs → StronglySorted (by_decreasing f) (Py.insert_desc f x xs).
Proof.
  induction 1 as [|y ys Hys IH Hall]; simpl; [repeat constructor|].
  destruct (Py.gtb (f y) (f x)) eqn:E.
  - apply gtb_gt in E. constructor; [exact IH|].
    apply Forall_forall. intros z Hz. rewrite insert_desc_Permutation in Hz.
    apply elem_of_cons in Hz as [->|Hz].
    + unfold by_decreasing. lra.
    + exact (proj1 (Forall_forall _ _) Hall z Hz).
  - apply gtb_le in E. constructor; [by constructor|].
    constructor; [exact E|].
    eapply Forall_impl; [exact Hall|]. unfold by_decreasing. intros z Hz. simpl in *. lra.
Qed.

Lemma sorted_desc_sorted {A} (f : A → Q) (xs : list A) :
  StronglySorted (by_decreasing f) (Py.sorted_desc f xs).
Proof.
  induction xs as [|x xs IH]; simpl; [constructor|]. by apply insert_desc_sorted.
Qed.

Lemma flood_one_elsewhere t j :
  t ≠ j → lifts (keeps (fun w => countries w !! j)) (flood_one t).
Proof.
  intros Hne. unfold flood_one.
  lifts_go ltac:(idtac; apply keeps_upd_world; intros ?; simpl; by apply list_lookup_alter_ne).
Qed.

Lemma flood_elsewhere ts j :
  j ∉ ts → lifts (keeps (fun w => countries w !! j)) (for_each ts flood_one).
Proof.
  intros Hj. induction ts as [|t ts IH]; simpl.
  - apply lifts_ret. exact _.
  - apply not_elem_of_cons in Hj as [Hne Hj].
    apply lifts_bind; [exact _ | apply flood_one_elsewhere; congruence | intros _; by apply IH].
Qed.

(** X23.  In an episode the flood of [trigger_disasters] strikes the
    first two countries of the list sorted by decreasing regional
    pollution: two different countries (one, in a world of one), no other
    country has a higher regional pollution than either of them, and no
    other country is changed. *)
Theorem flood_strikes_the_two_most_polluted (s : State) :
  reachable s →
  ∃ ts,
    flood s = for_each ts flood_one s
    ∧ length ts = Nat.min 2 (length (countries (world s)))
    ∧ NoDup ts
    ∧ (∀ t j ct cj,
         t ∈ ts → j ∉ ts →
         countries (world s) !! t = Some ct →
         countries (world s) !! j = Some cj →
         (regional_pollution_of (world s) cj <= regional_pollution_of (world s) ct)%Q)
    ∧ ∀ j, j ∉ ts → countries (world (snd (flood s))) !! j = countries (world s) !! j.
Proof.
  intros Hs. destruct (reachable_keys s Hs) as [Hcov Hlen].
  destruct (keyed_run s (positions (world s)) Hcov) as (keyed & Hrun & Hfst & Hall).
  { intros i Hi. unfold positions in Hi. apply elem_of_seq in Hi. lia. }
  pose proof (sorted_desc_Permutation snd keyed) as Hperm.
  pose proof (sorted_desc_sorted snd keyed) as Hsort.
  set (sorted := Py.sorted_desc snd keyed) in *.
  assert (fst <$> sorted ≡ₚ positions (world s)) as Hpos.
  { rewrite Hperm. by rewrite <- Hfst. }
  assert (∀ p c, p ∈ sorted → countries (world s) !! fst p = Some c →
                 snd p = regional_pollution_of (world s) c) as Hval.
  { intros p c Hp Hc. rewrite Hperm in Hp.
    destruct (proj1 (Forall_forall _ _) Hall p Hp) as (c' & Hc' & Hv). congruence. }
  exists (take 2 (fst <$> sorted)).
  assert (flood s = for_each (take 2 (fst <$> sorted)) flood_one s) as Hf.
  { unfold flood, by_regional_pollution. rewrite bind_assoc, bind_get_world.
    rewrite (bind_ok _ _ _ _ _ Hrun). reflexivity. }
  split; [exact Hf|]. split; [|split; [|split]].
  - rewrite length_take, Hpos. unfold positions. rewrite length_seq. lia.
  - eapply sublist_NoDup; [|apply sublist_take]. rewrite Hpos. apply NoDup_seq.
  - intros t j ct cj Ht Hj Hct Hcj.
    assert (j ∈ fst <$> sorted) as Hin.
    { rewrite Hpos. unfold positions. apply elem_of_seq.
      apply lookup_lt_Some in Hcj. lia. }
    rewrite <- (take_drop 2 (fst <$> sorted)) in Hin.
    apply elem_of_app in Hin as [Hin|Hin]; [done|].
    rewrite <- fmap_take in Ht. rewrite <- fmap_drop in Hin.
    apply list_elem_of_fmap in Ht as (pt & -> & Hpt).
    apply list_elem_of_fmap in Hin as (pj & -> & Hpj).
    assert (by_decreasing snd pt pj) as Hle.
    { apply (StronglySorted_app_1_elem_of _ (take 2 sorted) (drop 2 sorted)); [|done..].
      by rewrite take_drop. }
    rewrite <- (Hval pt ct), <- (Hval pj cj); [exact Hle | | done | | done].
    + rewrite <- (take_drop 2 sorted). apply elem_of_app. by right.
    + rewrite <- (take_drop 2 sorted). apply elem_of_app. by left.
  - intros j Hj. rewrite Hf. exact (flood_elsewhere _ j Hj s).
Qed.

Lemma flood_strikes_the_two_most_polluted_witness :
  ∃ ts,
    flood episode_start = for_each ts flood_one episode_start
    ∧ length ts = Nat.min 2 (length (countries (world episode_start)))
    ∧ NoDup ts.
Proof.
  destruct (flood_strikes_the_two_most_polluted episode_start) as (ts & H1 & H2 & H3 & _).
  - apply (reachable_start [("Sofialand", RLAgent_init); ("Jimenara", RLAgent_init)]
             (constant_source (2 ^ 52))).
    vm_compute. reflexivity.
  - exists ts. repeat split; assumption.
Defined.

(** ** The levels of a country *)

Global Instance no_progress_frame : Frame no_progress.
Proof.
  split; unfold no_progress.
  - intros s i c Hc Ht. exists c. split; [done|]. split; [lia | done].
  - intros s1 s2 s3 H1 H2 i c Hc Ht.
    destruct (H1 i c Hc Ht) as (c1 & Hc1 & Ht1 & He1).
    destruct (H2 i c1 Hc1 ltac:(lia)) as (c2 & Hc2 & Ht2 & He2).
    exists c2. split; [done|]. split; [lia | congruence].
  - intros s r i c Hc Ht. exists c. split; [done|]. split; [lia | done].
Qed.

Lemma no_progress_upd_country i (f : Country → Country) :
  (∀ c, 1 ≤ tech_level c →
        1 ≤ tech_level (f c) ≤ tech_level c ∧ education_level (f c) = education_level c) →
  lifts no_progress (upd_country i f).
Proof.
  intros Hf s j c Hc Ht. simpl. destruct (decide (i = j)) as [->|Hne].
  - exists (f c). rewrite list_lookup_alter_eq, Hc. split; [done | by apply Hf].
  - exists c. rewrite list_lookup_alter_ne by done. split; [done|]. split; [lia | done].
Qed.

Lemma no_progress_upd_world (f : World → World) :
  (∀ w, countries (f w) = countries w) → lifts no_progress (upd_world f).
Proof.
  intros Hf s j c Hc Ht. simpl. rewrite Hf. exists c. split; [done|]. split; [lia | done].
Qed.

Ltac levels_prim :=
  idtac;
  lazymatch goal with
  | |- lifts _ (upd_country _ _) =>
      apply no_progress_upd_country; intros ? ?; split; simpl; [lia | reflexivity]
  | |- lifts _ (upd_eco _) => apply no_progress_upd_world; intros ?; reflexivity
  | |- lifts _ (upd_world _) => apply no_progress_upd_world; intros ?; reflexivity
  | |- lifts _ (sound_alarm_loop _) => apply lifts_sound_alarm_loop
  | |- lifts _ ?m => let h := head_of m in unfold h
  end.

Lemma no_progress_simulate_turn i : lifts no_progress (simulate_turn i).
Proof. lifts_go levels_prim. Qed.

Lemma no_progress_fire_global_events : lifts no_progress fire_global_events.
Proof. lifts_go levels_prim. Qed.

Lemma no_progress_wage_wars : lifts no_progress wage_wars.
Proof. lifts_go levels_prim. Qed.

Ltac levels_ops :=
  idtac;
  lazymatch goal with
  | |- lifts _ (simulate_turn _) => apply no_progress_simulate_turn
  | |- lifts _ fire_global_events => apply no_progress_fire_global_events
  | |- lifts _ wage_wars => apply no_progress_wage_wars
  | |- _ => levels_prim
  end.

(** X24.  No operation raises the tech level of a country (which is 1 or
    more, as in an episode) or changes its education level: the tech
    level only goes down, by the meteor and the blackout, not below 1,
    and nothing brings it back. *)
Theorem tech_level_never_rises (op : Operation) (s : State) (i : nat) (c : Country) :
  countries (world s) !! i = Some c →
  1 ≤ tech_level c →
  ∃ c',
    countries (world (snd (run op s))) !! i = Some c'
    ∧ 1 ≤ tech_level c' ≤ tech_level c
    ∧ education_level c' = education_level c.
Proof.
  intros Hc Ht.
  assert (lifts no_progress (run op)) as H.
  { destruct op; simpl; lifts_go levels_ops. }
  exact (H s i c Hc Ht).
Qed.

Lemma tech_level_never_rises_witness :
  ∃ c',
    countries (world (snd (run (OpSimulateWorld 2) lone_state))) !! 0%nat = Some c'
    ∧ 1 ≤ tech_level c' ≤ 3
    ∧ education_level c' = 3.
Proof.
  apply (tech_level_never_rises (OpSimulateWorld 2) lone_state 0
           (sample_country "Sofialand" GovRight)).
  - reflexivity.
  - vm_compute. discriminate.
Defined.

(** ** Taxes *)

Lemma int_below (x : Q) : (0 <= x)%Q → (inject_Z (Py.int x) <= x)%Q.
Proof. intros Hx. rewrite int_is_floor by done. apply Qfloor_le. Qed.

(** X25.  In an episode [collect_taxes] never raises and draws nothing;
    it changes the money and the happiness of the country and nothing
    else: the money grows by a tax between 0 and the population, and the
    happiness falls by 8 at most, not below 0. *)
Theorem taxes_never_reduce_money (s : State) (self : nat) (c : Country) :
  reachable s →
  countries (world s) !! self = Some c →
  ∃ tax hap,
    collect_taxes self s
    = (Ok tt,
       with_countries
         (<[self := set_happiness hap (set_money (money c + tax) c)]> (countries (world s))) s)
    ∧ 0 ≤ tax ≤ population c
    ∧ (0 <= hap)%Q ∧ (happiness c - 8 <= hap)%Q ∧ (hap <= happiness c)%Q.
Proof.
  intros Hs Hc.
  pose proof (Forall_lookup_1 _ _ _ _ (reachable_stocked s Hs) Hc) as [Hpop _ _ _ _ _ _ _ _ _].
  destruct (reachable_ok s Hs) as [Hcs _].
  pose proof (Forall_lookup_1 _ _ _ _ Hcs Hc) as [Hlo Hhi _ _].
  unfold collect_taxes, try_except.
  rewrite (bind_ok _ _ _ _ _ (get_country_ok _ _ _ Hc)), bind_get_eco. cbv zeta.
  rewrite bind_upd_country. unfold upd_country, upd_world. cbn [fst snd world rng countries].
  match goal with
  | |- context [set_money (money _ + ?t)] => set (tax := t)
  end.
  match goal with
  | |- context [Py.max 0 (happiness _ - inject_Z ?l)%Q] => set (loss := l)
  end.
  exists tax, (Py.max 0 (happiness c - inject_Z loss)%Q).
  assert (0 ≤ tax ≤ population c) as Htax.
  { subst tax.
    assert (0 <= inject_Z (population c))%Q as Hq
      by (change 0%Q with (inject_Z 0); by rewrite <- Zle_Qle).
    destruct (decide (government c = GovRight)) as [Hg|Hg].
    - pose proof (int_scale_bounds (population c) 0.05 Hpop ltac:(lra) ltac:(lra)) as Hb.
      pose proof (int_below (inject_Z (population c) * 0.05) ltac:(lra)) as Hbelow.
      destruct (bool_decide (government c = GovRight) && Py.gtb (infrastructure_level c) 70);
        [|exact Hb].
      set (t0 := Py.int (inject_Z (population c) * 0.05)%Q) in *.
      assert (0 <= inject_Z t0)%Q as Ht0
        by (change 0%Q with (inject_Z 0); rewrite <- Zle_Qle; lia).
      split; [apply int_nonneg; lra|].
      rewrite Zle_Qle. eapply Qle_trans; [apply int_below; lra|]. lra.
    - rewrite bool_decide_eq_false_2 by done. simpl andb. cbv iota.
      apply int_scale_bounds; [done | lra | lra]. }
  split; [|split; [exact Htax|]].
  - f_equal. unfold with_countries, set_countries. simpl. do 2 f_equal.
    apply list_eq. intros k. destruct (decide (self = k)) as [->|Hne].
    + rewrite !list_lookup_alter_eq, Hc.
      rewrite list_lookup_insert_eq by (by eapply lookup_lt_Some). reflexivity.
    + by rewrite !list_lookup_alter_ne, list_lookup_insert_ne.
  - assert (2 ≤ loss ≤ 8) as Hloss.
    { subst loss. destruct (Py.gtb _ 50); case_decide; lia. }
    assert (2 <= inject_Z loss)%Q as H2
      by (change 2%Q with (inject_Z 2); rewrite <- Zle_Qle; lia).
    assert (inject_Z loss <= 8)%Q as H8
      by (change 8%Q with (inject_Z 8); rewrite <- Zle_Qle; lia).
    py_cases; repeat split; lra.
Qed.

Lemma taxes_never_reduce_money_witness :
  ∃ tax hap,
    collect_taxes 0 episode_start
    = (Ok tt,
       with_countries
         (<[0%nat := set_happiness hap (set_money (money episode_first + tax) episode_first)]>
            (countries (world episode_start))) episode_start)
    ∧ 0 ≤ tax ≤ population episode_first
    ∧ (0 <= hap)%Q ∧ (happiness episode_first - 8 <= hap)%Q
    ∧ (hap <= happiness episode_first)%Q.
Proof.
  apply (taxes_never_reduce_money episode_start 0 episode_first).
  - apply (reachable_start [("Sofialand", RLAgent_init); ("Jimenara", RLAgent_init)]
             (constant_source (2 ^ 52))).
    vm_compute. reflexivity.
  - vm_compute. reflexivity.
Defined.
